(** * ConvertSegFinal: the fare repricing transform of
    [tools_factory/price_lock/repricing_script.js]

    A shallow embedding of the JavaScript function [ConvertSegFinal] and of
    the closures it defines ([GetFltDtl], [GetAirLineName], [GetAirportName],
    [CountryName], [GetMonth]).

    The script works on untyped JSON data, so the embedding keeps the data
    untyped as well: a [value] is a JavaScript value, a plain object is a
    finite map from property names to values, and every property read goes
    through [get_prop], which raises [TypeError] on [undefined] and [null]
    exactly where the script would.  The input segment [seg_] is a mutable
    object that the script writes to; it is the state of the monad [M]. *)

From Stdlib Require Import ZArith Ascii String.
From stdpp Require Import gmap strings list fin_maps pretty.

Set Warnings "-register-all".
Local Open Scope string_scope.
Local Open Scope Z_scope.

(** ** JavaScript values *)

(** Numbers are whole numbers: [VNum n] is the double of value [n], and a sum
    or a product is rounded to the nearest double the way the script's is
    ([double] below), so that the arithmetic is the script's on whole
    amounts of any size short of the infinities.  Amounts with a fraction
    have no value here.  [VNaN] is the not-a-number value.  Objects are
    plain data: own properties only. *)
Inductive value :=
| VUndef
| VNull
| VBool (b : bool)
| VNum (n : Z)
| VNaN
| VStr (s : string)
| VArr (l : list value)
| VObj (m : gmap string value).

Abbreviation obj := (gmap string value).

Inductive error := TypeError.

(** Completion of an expression or statement list: a value or a throw. *)
Inductive exc (A : Type) :=
| Ok (a : A)
| Throw (e : error).
Arguments Ok {A} a.
Arguments Throw {A} e.

#[global] Instance exc_ret : MRet exc := λ A a, Ok a.
#[global] Instance exc_bind : MBind exc := λ A B f m,
  match m with Ok a => f a | Throw e => Throw e end.

(** [try { m } catch (e) { h }] *)
Definition try_exc {A} (m : exc A) (h : exc A) : exc A :=
  match m with Ok a => Ok a | Throw _ => h end.

(** ** Numbers *)

(** The double nearest to an integer, a tie going to the even significand:
    the rounding of the script's [+] and [*].  A double has 53 significant
    bits, so an integer up to 2^53 in absolute value is a double itself and
    a larger one loses its low bits. *)
Definition double (z : Z) : Z :=
  let m := Z.abs z in
  let e := Z.log2 m - 52 in
  if e <=? 0 then z
  else
    let q := m / 2 ^ e in
    let r := m mod 2 ^ e in
    let half := 2 ^ (e - 1) in
    let q := if (half <? r) || ((r =? half) && Z.odd q) then q + 1 else q in
    Z.sgn z * (q * 2 ^ e).

(** The double nearest to the fraction [m / d], for [0 <= m] and [0 < d],
    a tie going to the even significand; [None] when that double is not a
    whole number.  The doubles below 2^-1022 are spaced 2^-1074 apart. *)
Definition double_of_fraction (m d : Z) : option Z :=
  if m =? 0 then Some 0
  else
    let e0 := Z.log2 m - Z.log2 d in
    let above := if 0 <=? e0 then d * 2 ^ e0 <=? m else d <=? m * 2 ^ (- e0) in
    let e := if above then e0 else e0 - 1 in
    let k := Z.max (e - 52) (-1074) in
    let num := if 0 <=? k then m else m * 2 ^ (- k) in
    let den := if 0 <=? k then d * 2 ^ k else d in
    let q := num / den in
    let r := num mod den in
    let q := if (den <? 2 * r) || ((2 * r =? den) && Z.odd q) then q + 1 else q in
    if 0 <=? k then Some (q * 2 ^ k)
    else if q mod 2 ^ (- k) =? 0 then Some (q / 2 ^ (- k)) else None.

Fixpoint first_some {A} (f : Z → option A) (k : Z) (fuel : nat) : option A :=
  match fuel with
  | O => None
  | S fuel =>
      match f k with
      | Some a => Some a
      | None => first_some f (k + 1) fuel
      end
  end.

(** The whole number that the digits of the double [x] stand for, [0 < x]:
    among the numbers of fewest significant digits that [x] is the nearest
    double to, the nearest to [x] (the one of even last digit when two are as
    near).  Seventeen digits tell any two doubles apart. *)
Definition shortest (x : Z) : Z :=
  let n := Z.of_nat (String.length (pretty x)) in
  let candidate (k : Z) : option Z :=
    let p := 10 ^ (n - k) in
    let lo := x / p * p in
    let hi := lo + p in
    match double lo =? x, double hi =? x with
    | true, true =>
        if x - lo <? hi - x then Some lo
        else if hi - x <? x - lo then Some hi
        else if Z.even (x / p) then Some lo else Some hi
    | true, false => Some lo
    | false, true => Some hi
    | false, false => None
    end in
  default x (first_some candidate 1 17).

Fixpoint strip_zeros (fuel : nat) (z : Z) : Z :=
  match fuel with
  | O => z
  | S fuel => if z mod 10 =? 0 then strip_zeros fuel (z / 10) else z
  end.

(** [Number::toString] on a whole number: its digits, followed by zeros
    below 10^21 and in exponent notation from there on. *)
Definition number_to_string (z : Z) : string :=
  if z =? 0 then "0"
  else
    let v := shortest (Z.abs z) in
    let sign := if z <? 0 then "-" else "" in
    if v <? 10 ^ 21 then sign +:+ pretty v
    else
      let n := String.length (pretty v) in
      let e := "e+" +:+ pretty (Z.of_nat n - 1) in
      match pretty (strip_zeros n v) with
      | String d EmptyString => sign +:+ String d e
      | String d r => sign +:+ String d ("." +:+ r +:+ e)
      | EmptyString => EmptyString
      end.

(** ** Strings *)

Definition is_space (c : ascii) : bool :=
  let n := nat_of_ascii c in
  (Nat.eqb n 32 || (Nat.leb 9 n && Nat.leb n 13))%bool.

Fixpoint trim_left (s : string) : string :=
  match s with
  | String c r => if is_space c then trim_left r else s
  | EmptyString => EmptyString
  end.

Fixpoint rev_string (s : string) (acc : string) : string :=
  match s with
  | String c r => rev_string r (String c acc)
  | EmptyString => acc
  end.

Definition trim (s : string) : string :=
  rev_string (trim_left (rev_string (trim_left s) "")) "".

Definition upper_ascii (c : ascii) : ascii :=
  let n := nat_of_ascii c in
  if (Nat.leb 97 n && Nat.leb n 122)%bool then ascii_of_nat (n - 32) else c.

(** [String.prototype.toUpperCase], on a string written in UTF-8.  The
    conversion is the one of Unicode: besides the ASCII letters it turns
    into ASCII the ten characters whose upper case is ASCII, the dotless i
    (bytes 196 177) into I, the long s (197 191) into S, the sharp s
    (195 159) into SS and the ligatures ff, fi, fl, ffi, ffl and the two st
    (239 172 128 to 134) into their letters.  Any other character has an
    upper case outside ASCII and is left as it is: the script only compares
    the result with an ASCII word, and such a character rules the equality
    out in either form. *)
Fixpoint upper (s : string) : string :=
  match s with
  | EmptyString => EmptyString
  | String c r =>
      if (nat_of_ascii c <? 128)%nat then String (upper_ascii c) (upper r)
      else
        match s with
        | String "196" (String "177" r') => String "I" (upper r')
        | String "197" (String "191" r') => String "S" (upper r')
        | String "195" (String "159" r') => String "S" (String "S" (upper r'))
        | String "239" (String "172" (String "128" r')) =>
            String "F" (String "F" (upper r'))
        | String "239" (String "172" (String "129" r')) =>
            String "F" (String "I" (upper r'))
        | String "239" (String "172" (String "130" r')) =>
            String "F" (String "L" (upper r'))
        | String "239" (String "172" (String "131" r')) =>
            String "F" (String "F" (String "I" (upper r')))
        | String "239" (String "172" (String "132" r')) =>
            String "F" (String "F" (String "L" (upper r')))
        | String "239" (String "172" (String "133" r')) =>
            String "S" (String "T" (upper r'))
        | String "239" (String "172" (String "134" r')) =>
            String "S" (String "T" (upper r'))
        | _ => String c (upper r)
        end
  end.

(** [s.split(sep)] for a one-character separator; the empty string splits
    into one empty piece, as in JavaScript. *)
Fixpoint split_on (sep : ascii) (s : string) : list string :=
  match s with
  | EmptyString => [EmptyString]
  | String c r =>
      if Ascii.eqb c sep then EmptyString :: split_on sep r
      else match split_on sep r with
           | p :: ps => String c p :: ps
           | [] => [String c EmptyString]
           end
  end.

Definition digit_val (radix : Z) (c : ascii) : option Z :=
  let n := Z.of_nat (nat_of_ascii c) in
  let d := if (48 <=? n) && (n <=? 57) then Some (n - 48)
           else if (97 <=? n) && (n <=? 102) then Some (n - 87)
           else if (65 <=? n) && (n <=? 70) then Some (n - 55)
           else None in
  match d with
  | Some k => if k <? radix then Some k else None
  | None => None
  end.

(** Longest prefix of digits in [radix]: its value, if it is not empty. *)
Fixpoint digits_prefix (radix : Z) (s : string) (acc : option Z) : option Z :=
  match s with
  | String c r =>
      match digit_val radix c with
      | Some k => digits_prefix radix r (Some (default 0 acc * radix + k))
      | None => acc
      end
  | EmptyString => acc
  end.

(** The whole string is a non-empty run of digits in [radix]. *)
Fixpoint digits_all (radix : Z) (s : string) (acc : option Z) : option Z :=
  match s with
  | String c r =>
      match digit_val radix c with
      | Some k => digits_all radix r (Some (default 0 acc * radix + k))
      | None => None
      end
  | EmptyString => acc
  end.

Definition hex_prefixed (s : string) : option string :=
  match s with
  | String "0" (String "x" r) => Some r
  | String "0" (String "X" r) => Some r
  | _ => None
  end.

Definition radix_prefixed (s : string) : option (Z * string) :=
  match s with
  | String "0" (String "x" r) | String "0" (String "X" r) => Some (16, r)
  | String "0" (String "o" r) | String "0" (String "O" r) => Some (8, r)
  | String "0" (String "b" r) | String "0" (String "B" r) => Some (2, r)
  | _ => None
  end.

(** The leading decimal digits of [s]: their value after [acc], their
    number after [n], and the rest of the string. *)
Fixpoint digits_run (s : string) (acc n : Z) : Z * Z * string :=
  match s with
  | String c r =>
      match digit_val 10 c with
      | Some k => digits_run r (acc * 10 + k) (n + 1)
      | None => (acc, n, s)
      end
  | EmptyString => (acc, n, s)
  end.

(** The exponent part that ends a decimal literal: nothing, or [e] or [E]
    and a run of digits with an optional sign. *)
Definition exponent_part (s : string) : option Z :=
  match s with
  | EmptyString => Some 0
  | String c r =>
      if (Ascii.eqb c "e" || Ascii.eqb c "E")%bool then
        match r with
        | String "+" d => digits_all 10 d None
        | String "-" d => Z.opp <$> digits_all 10 d None
        | _ => digits_all 10 r None
        end
      else None
  end.

(** A decimal literal without its sign: digits, an optional point and
    digits, an optional exponent, with a digit before or after the point.
    Its value is rounded to the nearest double. *)
Definition decimal_literal (s : string) : option Z :=
  let '(m, ni, r) := digits_run s 0 0 in
  let '(m, nf, r) :=
    match r with
    | String "." r' => digits_run r' m 0
    | _ => (m, 0, r)
    end in
  if ni + nf =? 0 then None
  else
    e ← exponent_part r;
    let p := e - nf in
    if 0 <=? p then double_of_fraction (m * 10 ^ p) 1
    else double_of_fraction m (10 ^ (- p)).

(** [StringToNumber]: a decimal literal with an optional sign, or a
    hexadecimal, octal or binary one, between ASCII white space; the empty
    or blank string is 0.  [None] is NaN, the value of a string that is no
    literal; a literal whose double is not a whole number, and [Infinity],
    have no value here and read as NaN too. *)
Definition StringToNumber (s : string) : option Z :=
  let t := trim s in
  match t with
  | EmptyString => Some 0
  | String "+" r => decimal_literal r
  | String "-" r => Z.opp <$> decimal_literal r
  | _ => match radix_prefixed t with
         | Some (radix, r) => double <$> digits_all radix r None
         | None => decimal_literal t
         end
  end.

(** [parseInt(s)] on a string, without a radix argument. *)
Definition parseInt_string (s : string) : option Z :=
  let t := trim_left s in
  let '(sign, t) := match t with
                    | String "-" r => (-1, r)
                    | String "+" r => (1, r)
                    | _ => (1, t)
                    end in
  match hex_prefixed t with
  | Some r => Z.mul sign <$> digits_prefix 16 r None
  | None => Z.mul sign <$> digits_prefix 10 t None
  end.

Fixpoint join_comma (l : list string) : string :=
  match l with
  | [] => ""
  | [s] => s
  | s :: r => s +:+ "," +:+ join_comma r
  end.

(** ** Conversions and operators *)

(** [ToString]; an array joins the strings of its elements, with
    [undefined] and [null] elements left empty. *)
Fixpoint to_string (v : value) : string :=
  match v with
  | VUndef => "undefined"
  | VNull => "null"
  | VBool true => "true"
  | VBool false => "false"
  | VNum n => number_to_string n
  | VNaN => "NaN"
  | VStr s => s
  | VArr l =>
      join_comma
        (map (λ x, match x with VUndef | VNull => "" | _ => to_string x end) l)
  | VObj _ => "[object Object]"
  end.

(** [ToPrimitive]: arrays and plain objects become their strings. *)
Definition to_primitive (v : value) : value :=
  match v with
  | VArr _ | VObj _ => VStr (to_string v)
  | _ => v
  end.

(** [ToNumber]; [None] is NaN. *)
Definition to_number (v : value) : option Z :=
  match to_primitive v with
  | VUndef => None
  | VNull => Some 0
  | VBool b => Some (if b then 1 else 0)
  | VNum n => Some n
  | VNaN => None
  | VStr s => StringToNumber s
  | VArr _ | VObj _ => None
  end.

Definition of_number (n : option Z) : value :=
  match n with Some z => VNum z | None => VNaN end.

(** [a == b].  Two objects compare by identity, which a value model does not
    have; the script only ever compares against a literal. *)
Definition loose_eq (a b : value) : bool :=
  match a, b with
  | (VUndef | VNull), (VUndef | VNull) => true
  | (VUndef | VNull), _ | _, (VUndef | VNull) => false
  | (VArr _ | VObj _), (VArr _ | VObj _) => false
  | _, _ =>
      match to_primitive a, to_primitive b with
      | VStr s, VStr t => String.eqb s t
      | a', b' =>
          match to_number a', to_number b' with
          | Some x, Some y => x =? y
          | _, _ => false
          end
      end
  end.

Definition loose_ne (a b : value) : bool := negb (loose_eq a b).

(** [v != null] *)
Definition not_null (v : value) : bool := loose_ne v VNull.

(** [a < b]: strings compare as strings, everything else as numbers, and a
    NaN operand makes the comparison false. *)
Definition js_lt (a b : value) : bool :=
  match to_primitive a, to_primitive b with
  | VStr s, VStr t => String.ltb s t
  | a', b' =>
      match to_number a', to_number b' with
      | Some x, Some y => x <? y
      | _, _ => false
      end
  end.

Definition js_gt (a b : value) : bool := js_lt b a.

(** [a + b]: concatenation as soon as one operand is a string, and the
    rounded sum of two numbers otherwise. *)
Definition js_add (a b : value) : value :=
  match to_primitive a, to_primitive b with
  | VStr s, b' => VStr (s +:+ to_string b')
  | a', VStr t => VStr (to_string a' +:+ t)
  | a', b' =>
      match to_number a', to_number b' with
      | Some x, Some y => VNum (double (x + y))
      | _, _ => VNaN
      end
  end.

(** [a * b]: the rounded product. *)
Definition js_mul (a b : value) : value :=
  match to_number a, to_number b with
  | Some x, Some y => VNum (double (x * y))
  | _, _ => VNaN
  end.

(** [parseInt(v)]: the integer that the string of [v] starts with, as a
    double. *)
Definition parseInt (v : value) : value :=
  of_number (double <$> parseInt_string (to_string v)).

(** ** Property access *)

(** A canonical array index: decimal digits without a leading zero. *)
Definition array_index (k : string) : option nat :=
  match digits_all 10 k None with
  | Some n => if String.eqb (pretty n) k then Some (Z.to_nat n) else None
  | None => None
  end.

Definition char_at (s : string) (i : nat) : value :=
  match String.get i s with
  | Some c => VStr (String c EmptyString)
  | None => VUndef
  end.

(** [v.k]: reading a property of [undefined] or [null] throws; an absent
    property reads as [undefined]. *)
Definition get_prop (v : value) (k : string) : exc value :=
  match v with
  | VUndef | VNull => Throw TypeError
  | VObj m => Ok (default VUndef (m !! k))
  | VArr l =>
      if String.eqb k "length" then Ok (VNum (Z.of_nat (length l)))
      else match array_index k with
           | Some i => Ok (default VUndef (l !! i))
           | None => Ok VUndef
           end
  | VStr s =>
      if String.eqb k "length" then Ok (VNum (Z.of_nat (String.length s)))
      else match array_index k with
           | Some i => Ok (char_at s i)
           | None => Ok VUndef
           end
  | VBool _ | VNum _ | VNaN => Ok VUndef
  end.

(** [v[i]]: the key is [ToString(i)]; a number indexes an array directly. *)
Definition get_elem (v : value) (i : value) : exc value :=
  match v, i with
  | VArr l, VNum n =>
      Ok (if 0 <=? n then default VUndef (l !! Z.to_nat n) else VUndef)
  | _, _ => get_prop v (to_string i)
  end.

(** [Object.values(v).length] for a value that is not [undefined]/[null]. *)
Definition values_length (v : value) : value :=
  match v with
  | VObj m => VNum (Z.of_nat (size m))
  | VArr l => VNum (Z.of_nat (length l))
  | VStr s => VNum (Z.of_nat (String.length s))
  | _ => VNum 0
  end.

(** Method calls on strings: the receiver has to be a string, anything else
    has no such method (or no properties at all) and the call throws. *)
Definition js_split (v : value) (sep : ascii) : exc (list value) :=
  match v with
  | VStr s => Ok (VStr <$> split_on sep s)
  | _ => Throw TypeError
  end.

Definition toUpperCase (v : value) : exc value :=
  match v with
  | VStr s => Ok (VStr (upper s))
  | _ => Throw TypeError
  end.

(** [a[i]] on the array a [split] returned. *)
Definition nth_value (l : list value) (i : nat) : value :=
  default VUndef (l !! i).

(** [s.substring(a, b)] on a string value with [a <= b]. *)
Definition js_substring (v : value) (a b : nat) : value :=
  match v with
  | VStr s => VStr (substring a (b - a) s)
  | _ => VUndef
  end.

(** [ToBoolean] *)
Definition to_boolean (v : value) : bool :=
  match v with
  | VUndef | VNull | VNaN => false
  | VBool b => b
  | VNum n => negb (n =? 0)
  | VStr s => negb (String.eqb s "")
  | VArr _ | VObj _ => true
  end.

(** ** Objects under construction *)

(** [o.k], for an object that is known to be one. *)
Definition field (o : obj) (k : string) : value := default VUndef (o !! k).

(** [if (c) { o.k = v; }] *)
Definition set_if (c : bool) (k : string) (v : value) (o : obj) : obj :=
  if c then <[k := v]> o else o.

(** [o.to = src.from] *)
Definition copy_prop (src : value) (from to : string) (o : obj) : exc obj :=
  v ← get_prop src from; Ok (<[to := v]> o).

(** A run of assignments [o.to = src.from], in order. *)
Fixpoint copy_props (src : value) (fs : list (string * string)) (o : obj)
  : exc obj :=
  match fs with
  | [] => Ok o
  | (from, to) :: fs => o' ← copy_prop src from to o; copy_props src fs o'
  end.

(** The same run when the source is the segment object itself. *)
Fixpoint copy_fields (src : obj) (fs : list (string * string)) (o : obj) : obj :=
  match fs with
  | [] => o
  | (from, to) :: fs => copy_fields src fs (<[to := field src from]> o)
  end.

(** [v != null && v.length > 0] *)
Definition has_items (v : value) : bool :=
  not_null v &&
  match get_prop v "length" with Ok n => js_gt n (VNum 0) | Throw _ => false end.

(** Number of iterations of [for (var i = 0; i < len; i++)]. *)
Definition loop_count (len : value) : nat :=
  match to_number len with Some n => Z.to_nat n | None => 0%nat end.

(** [for (var i = start; i < start + n; i++) s = body(i, s)] *)
Fixpoint for_exc {St : Type} (body : nat → St → exc St) (i n : nat) (s : St)
  : exc St :=
  match n with
  | O => Ok s
  | S n' => s' ← body i s; for_exc body (S i) n' s'
  end.

(** ** Dates *)

Definition msPerDay : Z := 86400000.

(** Day number of a civil date (month 1 to 12), day 0 being 1970-01-01. *)
Definition days_from_civil (y m d : Z) : Z :=
  let y' := if m <=? 2 then y - 1 else y in
  let era := y' / 400 in
  let yoe := y' - era * 400 in
  let mp := (m + 9) mod 12 in
  let doy := (153 * mp + 2) / 5 + d - 1 in
  let doe := yoe * 365 + yoe / 4 - yoe / 100 + doy in
  era * 146097 + doe - 719468.

(** [MakeDay(year, month, date)], with the month counted from 0 and
    overflowing into the year. *)
Definition MakeDay (year month date : Z) : Z :=
  days_from_civil (year + month / 12) (month mod 12 + 1) 1 + date - 1.

Definition TimeClip (t : Z) : option Z :=
  if Z.abs t <=? 8640000000000000 then Some t else None.

(** [a <= b] on two dates: on their time values, false when one is invalid. *)
Definition date_le (a b : option Z) : bool :=
  match a, b with
  | Some x, Some y => x <=? y
  | _, _ => false
  end.

(** [new Date("2020-09-30")] and [new Date("2020-12-31")]: a date-only ISO
    string is read as midnight UTC. *)
Definition cutoff_2020_09_30 : option Z :=
  TimeClip (days_from_civil 2020 9 30 * msPerDay).
Definition cutoff_2020_12_31 : option Z :=
  TimeClip (days_from_civil 2020 12 31 * msPerDay).

Definition months : gmap string string :=
  list_to_map
    [("Jan", "01"); ("Feb", "02"); ("Mar", "03"); ("Apr", "04");
     ("May", "05"); ("Jun", "06"); ("Jul", "07"); ("Aug", "08");
     ("Sep", "09"); ("Oct", "10"); ("Nov", "11"); ("Dec", "12")].

Definition GetMonth (month : value) : value :=
  default VUndef (VStr <$> months !! to_string month).

(** ** The state of a call: the segment object *)

Definition M (A : Type) : Type := obj → exc A * obj.

#[global] Instance M_ret : MRet M := λ A a seg_, (Ok a, seg_).
#[global] Instance M_bind : MBind M := λ A B f m seg_,
  match m seg_ with
  | (Ok a, seg_') => f a seg_'
  | (Throw e, seg_') => (Throw e, seg_')
  end.

Definition lift {A} (x : exc A) : M A := λ seg_, (x, seg_).

(** [seg_] *)
Definition the_seg : M obj := λ seg_, (Ok seg_, seg_).

(** [seg_.k] *)
Definition read_seg (k : string) : M value := λ seg_, (Ok (field seg_ k), seg_).

(** [seg_.k = v] *)
Definition write_seg (k : string) (v : value) : M unit :=
  λ seg_, (Ok (), <[k := v]> seg_).

Fixpoint for_M {St : Type} (body : nat → St → M St) (i n : nat) (s : St)
  : M St :=
  match n with
  | O => mret s
  | S n' => s' ← body i s; for_M body (S i) n' s'
  end.

(** What the caller gets back: the record as JSON text, or the record
    itself.  [Serialized o] stands for the text [JSON.stringify(o)]. *)
Inductive result :=
| Serialized (Seg_L : obj)
| Partial (Seg_L : obj).

Definition record_of (r : result) : obj :=
  match r with Serialized o | Partial o => o end.

(** The running totals of the price aggregation (the [var]s of lines
    319 to 339). *)
Record totals := {
  adult : value; child : value; infant : value;
  adultT : value; childT : value; infantT : value;
  TotalTF : value; TotalTT : value; TotalMRKP : value;
  STF : value; TDS : value; ServiceFee : value;
  CashBack : value; Commission : value; TransactionFees : value;
  totalExSeatFare : value
}.

Definition totals0 : totals :=
  {| adult := VNum 0; child := VNum 0; infant := VNum 0;
     adultT := VNum 0; childT := VNum 0; infantT := VNum 0;
     TotalTF := VNum 0; TotalTT := VNum 0; TotalMRKP := VNum 0;
     STF := VNum 0; TDS := VNum 0; ServiceFee := VNum 0;
     CashBack := VNum 0; Commission := VNum 0; TransactionFees := VNum 0;
     totalExSeatFare := VNum 0 |}.

(** ** The transform *)

Section ConvertSegFinal.

(** The host's offset from UTC, in milliseconds, at a given local time. *)
Variable LocalTZA : Z → Z.

(** The parameters of [ConvertSegFinal] other than [seg_]. *)
Variables Res_L org des frArmy frArmyRT : value.
Variables NoAdt NoChd NoInf FFare_L isRT_ fareIdByFareSelected : value.

(** [new Date(year, month, date)]: local midnight of that day, NaN
    components giving an invalid date and years 0 to 99 meaning 19xx. *)
Definition new_Date (year month date : value) : option Z :=
  match to_number year, to_number month, to_number date with
  | Some y, Some m, Some d =>
      let yr := if (0 <=? y) && (y <=? 99) then 1900 + y else y in
      let t := MakeDay yr m d * msPerDay in
      TimeClip (t - LocalTZA t)
  | _, _, _ => None
  end.

Definition GetFltDtl (key_ : value) : exc value :=
  if not_null Res_L then
    dctFltDtl ← get_prop Res_L "dctFltDtl";
    if not_null dctFltDtl && not_null key_ then get_elem dctFltDtl key_
    else Ok VUndef
  else Ok VUndef.

Definition GetAirLineName (key_ : value) : exc value :=
  if not_null Res_L then
    C ← get_prop Res_L "C";
    if not_null C then get_elem C key_ else Ok VUndef
  else Ok VUndef.

Definition GetAirportName (key_ : value) : exc value :=
  if not_null Res_L then
    A ← get_prop Res_L "A";
    if not_null A then
      name ← get_elem A key_;
      if loose_ne name (VStr "") && not_null name then Ok name else Ok key_
    else Ok VUndef
  else Ok VUndef.

Definition CountryName (key_ : value) : exc value :=
  if not_null Res_L then
    A ← get_prop Res_L "A";
    if not_null A then
      Cnty ← get_prop Res_L "Cnty";
      get_elem Cnty key_
    else Ok VUndef
  else Ok VUndef.

(** [code + "|" + GetAirportName(code) + "|" + CountryName(code)] *)
Definition place (code : value) : exc value :=
  name ← GetAirportName code;
  cnty ← CountryName code;
  Ok (js_add (js_add (js_add (js_add code (VStr "|")) name) (VStr "|")) cnty).

(** Lines 125 to 131. *)
Definition leg_head (fleg : value) : exc obj :=
  AC ← get_prop fleg "AC";
  airName ← GetAirLineName AC;
  let fLeg_L : obj := <["airName" := airName]> ∅ in
  OG ← get_prop fleg "OG";
  og ← place OG;
  let fLeg_L := <["org" := og]> fLeg_L in
  DT ← get_prop fleg "DT";
  dt ← place DT;
  let fLeg_L := <["dest" := dt]> fLeg_L in
  copy_prop fleg "DDT" "depDT" fLeg_L.

Definition hand_baggage (unit : string) (weight : Z) (fLeg_L : obj) : obj :=
  <["HBW" := VNum weight]> (<["HBU" := VStr unit]> fLeg_L).

(** Lines 133 to 170: the engine and date table for hand baggage. *)
Definition legacy_hand_baggage (seg_ : obj) (fleg : value) (fLeg_L : obj)
  : exc obj :=
  DDT ← get_prop fleg "DDT";
  parts ← js_split DDT "-";
  if (1 <? length parts)%nat then
    let DepDate := nth_value parts 1 in
    let month := GetMonth (js_substring DepDate 2 5) in
    let DepDate :=
      new_Date (js_substring DepDate 5 9) month (js_substring DepDate 0 2) in
    let EID := field seg_ "EID" in
    let fLeg_L :=
      if date_le DepDate cutoff_2020_09_30 &&
         (loose_ne EID (VNum 5) || loose_ne EID (VNum 10) || loose_ne EID (VNum 1))
      then hand_baggage "KG" 7 fLeg_L
      else hand_baggage "KG" 7 fLeg_L in
    let fLeg_L :=
      if loose_eq EID (VNum 1) then hand_baggage "KG" 7 fLeg_L else fLeg_L in
    let fLeg_L :=
      if loose_eq EID (VNum 0) && date_le DepDate cutoff_2020_12_31
      then hand_baggage "KG" 7 fLeg_L else fLeg_L in
    let fLeg_L :=
      if loose_eq EID (VNum 31) then hand_baggage "KG" 5 fLeg_L else fLeg_L in
    Ok fLeg_L
  else Ok fLeg_L.

(** Lines 171 to 195. *)
Definition leg_details (bnd fleg : value) (lc : nat) (fLeg_L : obj) : exc obj :=
  fLeg_L ← copy_props fleg
    [("HBU", "HBU"); ("HBW", "HBW");
     ("ADT", "arrDT"); ("DTM", "depTM"); ("ATM", "arrTM"); ("FN", "fltNum");
     ("AC", "airCode"); ("STP", "stops"); ("CC", "currCode"); ("CB", "cabin");
     ("DUR", "duration"); ("DTER", "depTer"); ("ATER", "arrTer")] fLeg_L;
  lFC ← get_prop bnd "lFC";
  fareCls ← get_elem lFC (VNum (Z.of_nat lc));
  let fLeg_L := <["fareCls" := fareCls]> fLeg_L in
  fLeg_L ← copy_prop fleg "LOV" "LyOvr" fLeg_L;
  LLOV ← get_prop bnd "LLOV";
  fLeg_L ←
    (if (0 <? lc)%nat && not_null LLOV then
       LyOvr ← get_elem LLOV (VNum (Z.of_nat lc - 1));
       Ok (<["LyOvr" := LyOvr]> fLeg_L)
     else Ok fLeg_L);
  copy_props fleg
    [("GRP", "Group"); ("ACTYP", "AircraftType"); ("AST", "AirSeat");
     ("LOVAT", "LayoverAt"); ("LOVDU", "LayoverDuration");
     ("OPB", "OperatedBy")] fLeg_L.

(** [o.unit = s.split("|")[0]; o.weight = s.split("|")[1]] *)
Definition set_split (s : value) (unit weight : string) (o : obj) : exc obj :=
  p ← js_split s "|";
  Ok (<[weight := nth_value p 1]> (<[unit := nth_value p 0]> o)).

(** Lines 196 to 204: the bound's per-leg baggage lists. *)
Definition leg_baggage (bnd : value) (lc : nat) (fLeg_L : obj) : exc obj :=
  lstBagg ← get_prop bnd "lstBagg";
  len ← get_prop lstBagg "length";
  fLeg_L ←
    (if js_gt len (VNum (Z.of_nat lc)) then
       e ← get_elem lstBagg (VNum (Z.of_nat lc));
       set_split e "BaggageUnit" "BaggageWeight" fLeg_L
     else Ok fLeg_L);
  lstHBagg ← get_prop bnd "lstHBagg";
  if not_null lstHBagg then
    len ← get_prop lstHBagg "length";
    if js_gt len (VNum (Z.of_nat lc)) then
      e ← get_elem lstHBagg (VNum (Z.of_nat lc));
      set_split e "HBU" "HBW" fLeg_L
    else Ok fLeg_L
  else Ok fLeg_L.

(** Lines 206 to 226: provider code, and the baggage of the selected fare.
    Returns the leg and the variable [idFareBK]. *)
Definition leg_provider (seg_ : obj) (bnd fleg fareId : value) (lc : nat)
    (idFareBK : value) (fLeg_L : obj) : exc (obj * value) :=
  fLeg_L ← copy_props fleg
    [("ET", "EquipmentType"); ("SA", "SeatAvail");
     ("FlightDetailRefKey", "FlightDetailRefKey")] fLeg_L;
  let fLeg_L := <["ProviderCode" := VStr ""]> fLeg_L in
  dctBKKY ← get_prop bnd "dctBKKY";
  if not_null dctBKKY && js_gt (values_length dctBKKY) fareId then
    Fr ← get_elem (field seg_ "lstFr") fareId;
    idFareBK ← get_prop Fr "fs";
    keys ← get_elem dctBKKY idFareBK;
    len ← get_prop keys "length";
    if js_gt len (VNum (Z.of_nat lc)) then
      ProviderCode ← get_elem keys (VNum (Z.of_nat lc));
      let fLeg_L := <["ProviderCode" := ProviderCode]> fLeg_L in
      dctBagg ← get_prop bnd "dctBagg";
      bagg ← get_elem dctBagg idFareBK;
      e ← get_elem bagg (VNum (Z.of_nat lc));
      fLeg_L ← set_split e "BaggageUnit" "BaggageWeight" fLeg_L;
      Ok (fLeg_L, idFareBK)
    else Ok (fLeg_L, idFareBK)
  else
    BkKY ← get_prop bnd "BkKY";
    if not_null BkKY then
      ProviderCode ← get_elem BkKY (VNum (Z.of_nat lc));
      Ok (<["ProviderCode" := ProviderCode]> fLeg_L, idFareBK)
    else
      fLeg_L ← copy_prop fleg "ProviderCode" "ProviderCode" fLeg_L;
      Ok (fLeg_L, idFareBK).

(** One iteration of the loop over the legs of a bound (lines 124 to 228);
    [bnd] is [seg_.b[bc]]. *)
Definition ConvertLeg (seg_ : obj) (bnd fareId : value) (lc : nat)
    (idFareBK : value) : exc (obj * value) :=
  FL ← get_prop bnd "FL";
  key_ ← get_elem FL (VNum (Z.of_nat lc));
  fleg ← GetFltDtl key_;
  fLeg_L ← leg_head fleg;
  fLeg_L ← legacy_hand_baggage seg_ fleg fLeg_L;
  fLeg_L ← leg_details bnd fleg lc fLeg_L;
  fLeg_L ← leg_baggage bnd lc fLeg_L;
  leg_provider seg_ bnd fleg fareId lc idFareBK fLeg_L.

(** The loop over the legs: the array [Bnd_L.Legs] and [idFareBK]. *)
Definition ConvertLegs (seg_ : obj) (bnd fareId : value) (n : nat)
    (idFareBK : value) : exc (list value * value) :=
  for_exc
    (λ lc (st : list value * value),
       '(fLeg_L, idFareBK) ← ConvertLeg seg_ bnd fareId lc st.2;
       Ok ((st.1 ++ [VObj fLeg_L])%list, idFareBK))
    0 n ([], idFareBK).

Definition refund_label (b : bool) : value :=
  VStr (if b then "Refundable" else "Non-Refundable").

(** [parseInt(seg_.lstFr[fareId].L_PF[0].BW) > 0], inside [try]. *)
Definition first_row_has_baggage (lstFr fareId : value) : exc bool :=
  Fr ← get_elem lstFr fareId;
  L_PF ← get_prop Fr "L_PF";
  PF0 ← get_elem L_PF (VNum 0);
  BW ← get_prop PF0 "BW";
  Ok (js_gt (parseInt BW) (VNum 0)).

(** One iteration of the loop over the bounds (lines 110 to 259).  The
    loop state is the array [Seg_L.bonds] and the variables [idFareBK] and
    [isHndBGG]; the iteration writes [seg_.l_HB]. *)
Definition ConvertBound (fareId : value) (bc : nat)
    (st : list value * value * value) : M (list value * value * value) :=
  let '(bonds, idFareBK, isHndBGG) := st in
  seg_ ← the_seg;
  bnd ← lift (get_elem (field seg_ "b") (VNum (Z.of_nat bc)));
  Bnd_L ← lift (copy_prop bnd "BDT" "bndDTL" ∅);
  dctCanPo ← lift (get_prop bnd "dctCanPo");
  let Bnd_L := set_if (not_null dctCanPo) "dctCanPo" dctCanPo Bnd_L in
  FL ← lift (get_prop bnd "FL");
  (* the global FL, which nothing reads *)
  _ ← lift (if has_items FL then Ok FL
            else if has_items (field seg_ "l_OB") then
                   OB0 ← get_elem (field seg_ "l_OB") (VNum 0);
                   get_prop OB0 "FL"
                 else Ok VUndef);
  len ← lift (get_prop FL "length");
  '(Legs, idFareBK) ←
    lift (ConvertLegs seg_ bnd fareId (loop_count len) idFareBK);
  let Bnd_L := <["Legs" := VArr Legs]> Bnd_L in
  let Bnd_L :=
    <["Refundable" :=
        refund_label (loose_eq (field seg_ "RF") (VBool true))]> Bnd_L in
  let lstFr := field seg_ "lstFr" in
  '(Bnd_L, isHndBGG) ←
    (if has_items lstFr then
       Fr ← lift (get_elem lstFr fareId);
       L_PF ← lift (get_prop Fr "L_PF");
       PF0 ← lift (get_elem L_PF (VNum 0));
       RF ← lift (get_prop PF0 "RF");
       let Bnd_L :=
         <["Refundable" := refund_label (loose_eq RF (VStr "True"))]> Bnd_L in
       IsHB ← lift (get_prop Fr "IsHB");
       let Bnd_L := <["IsBaggageFare" := IsHB]> Bnd_L in
       write_seg "l_HB" IsHB;;
       mret (Bnd_L, IsHB)
     else mret (Bnd_L, isHndBGG));
  let positive :=
    match first_row_has_baggage lstFr fareId with
    | Ok b => b
    | Throw _ => false
    end in
  let Bnd_L := set_if positive "IsBaggageFare" (VBool false) Bnd_L in
  let isHndBGG := if positive then VBool false else isHndBGG in
  Bnd_L ← lift (copy_props bnd [("JyTm", "JrnyTm"); ("CT", "ConnType")] Bnd_L);
  Bnd_L ←
    lift (if not_null dctCanPo then
            try_exc (lstCanPo ← get_elem dctCanPo idFareBK;
                     Ok (<["lstCanPo" := lstCanPo]> Bnd_L))
                    (Ok Bnd_L)
          else Ok Bnd_L);
  mret ((bonds ++ [VObj Bnd_L])%list, idFareBK, isHndBGG).

(** Lines 106 to 261. *)
Definition ConvertBounds (fareId : value) : M (list value * value * value) :=
  b ← read_seg "b";
  if has_items b then
    len ← lift (get_prop b "length");
    for_M (ConvertBound fareId) 0 (loop_count len) ([], VStr "", VBool false)
  else mret ([], VStr "", VBool false).

(** Lines 265 to 278: the parameters [frArmy] and [frArmyRT] are rebound
    locally; the caller does not see the new strings. *)
Definition fare_armory (FId : value) : value * value :=
  let final :=
    loose_eq frArmy (VStr "9") || loose_eq frArmy (VStr "10") ||
    loose_eq frArmy (VStr "11") || loose_eq frArmy (VStr "21") in
  let frArmyRT' :=
    if loose_ne frArmyRT (VStr "") then js_add frArmyRT (VStr ",")
    else frArmyRT in
  if negb final then (FId, js_add frArmyRT' FId)
  else (frArmy, js_add frArmyRT' FId).

(** [Seg_L.CpnLstDis = 0; Seg_L.CCL = ""; Seg_L.IACL = false;
     Seg_L.CpnTxtS = "";] *)
Definition clear_coupons (Seg_L : obj) : obj :=
  <["CpnTxtS" := VStr ""]>
    (<["IACL" := VBool false]>
       (<["CCL" := VStr ""]> (<["CpnLstDis" := VNum 0]> Seg_L))).

(** Lines 298 to 313. *)
Definition coupon_state (seg_ : obj) (Fr : value) (Seg_L : obj) : exc obj :=
  CouponCodeList ← get_prop Fr "CouponCodeList";
  if not_null CouponCodeList then
    Seg_L ← copy_props Fr
      [("CouponCodeList", "CCL"); ("isAddCL", "IACL"); ("CpnTxtS", "CpnTxtS");
       ("DA", "CpnLstDis")] Seg_L;
    let I_RT := field seg_ "I_RT" in
    if not_null I_RT && loose_eq I_RT (VBool true)
    then Ok (clear_coupons Seg_L)
    else Ok Seg_L
  else
    CC ← get_prop Fr "CC";
    if loose_ne CC (VStr "") then copy_prop Fr "DA" "DiscountAmount" Seg_L
    else Ok Seg_L.

(** Lines 265 to 317, after [seg_.Fr = seg_.lstFr[fareId]]; [Fr] is that
    option. *)
Definition selected_fare_fields (seg_ : obj) (fareId Fr : value) (Seg_L : obj)
  : exc obj :=
  FId ← get_prop Fr "FId";
  let armory := fare_armory FId in
  Seg_L ← copy_prop Fr "INSP" "INSP" Seg_L;
  CT_UPG ← get_prop Fr "CT_UPG";
  let Seg_L :=
    set_if (not_null CT_UPG && not_null CT_UPG) "CT_UPG" CT_UPG Seg_L in
  L_PF ← get_prop Fr "L_PF";
  PF0 ← get_elem L_PF (VNum 0);
  Seg_L ← copy_prop PF0 "INSAmtPP" "INSAmtPP" Seg_L;
  Seg_L ← try_exc (copy_prop Fr "FIAK" "INSAmtKey" Seg_L) (Ok Seg_L);
  Seg_L ← copy_prop Fr "FIA" "FIA" Seg_L;
  let Seg_L := <["lstFr" := field seg_ "lstFr"]> Seg_L in
  let Seg_L := <["selectedFare" := fareId]> Seg_L in
  Seg_L ← copy_props Fr [("FN", "FN"); ("ItnanaryKey", "ItineraryKey")] Seg_L;
  Seg_L ← coupon_state seg_ Fr Seg_L;
  BDKEY ← get_prop (field seg_ "Fr") "BDKEY";
  Ok (set_if (not_null BDKEY) "brandFareKey" BDKEY Seg_L).

(** Lines 262 to 318; writes [seg_.Fr]. *)
Definition SelectFare (fareId : value) (Seg_L : obj) : M obj :=
  let Seg_L := <["Fare" := VNull]> Seg_L in
  lstFr ← read_seg "lstFr";
  if has_items lstFr then
    Fr ← lift (get_elem lstFr fareId);
    write_seg "Fr" Fr;;
    seg_ ← the_seg;
    lift (selected_fare_fields seg_ fareId Fr Seg_L)
  else mret Seg_L.

(** [acc += x * n] *)
Definition add_to (acc x n : value) : value := js_add acc (js_mul x n).

(** [if (x != null) { acc += x * n; }] *)
Definition add_opt (acc x n : value) : value :=
  if not_null x then js_add acc (js_mul x n) else acc.

(** One iteration of the loop over the passenger-fare rows (lines 345 to
    440); [row] is [seg_.Fr.L_PF[pxfrC]].  The object [PxFare_L] that the
    iteration fills is never stored. *)
Definition AddRow (row : value) (t : totals) : exc totals :=
  PxFare_L ← copy_props row
    [("BU", "BaggUnit"); ("BW", "BaggWeight"); ("CNP", "CanPenlty");
     ("CHP", "ChanPenlty"); ("FBC", "FrBassCode"); ("MKP", "MarkUP");
     ("PT", "PaxType"); ("RF", "Refundable"); ("ESF", "ESF")] ∅;
  ESF ← get_prop row "ESF";
  let ExSeat :=
    if not_null ESF then js_add (totalExSeatFare t) ESF
    else totalExSeatFare t in
  PT ← get_prop row "PT";
  BF ← get_prop row "BF";
  TF ← get_prop row "TF";
  TTX ← get_prop row "TTX";
  MKP ← get_prop row "MKP";
  COM ← get_prop row "COM";
  CB ← get_prop row "CB";
  TDS' ← get_prop row "TDS";
  SF ← get_prop row "SF";
  TA ← get_prop row "TA";
  type ← toUpperCase PT;
  let t :=
    if loose_eq type (VStr "ADULT") then
      {| adult := add_to (adult t) BF NoAdt;
         TotalTF := add_to (TotalTF t) TF NoAdt;
         TotalTT := add_to (TotalTT t) TTX NoAdt;
         adultT := add_to (adultT t) TTX NoAdt;
         TotalMRKP := add_to (TotalMRKP t) MKP NoAdt;
         Commission := add_opt (Commission t) COM NoAdt;
         CashBack := add_opt (CashBack t) CB NoAdt;
         STF := js_add (STF t) (VNum 0);
         TDS := add_opt (TDS t) TDS' NoAdt;
         ServiceFee := add_opt (ServiceFee t) SF NoAdt;
         TransactionFees := add_opt (TransactionFees t) TA NoAdt;
         child := child t; infant := infant t;
         childT := childT t; infantT := infantT t;
         totalExSeatFare := ExSeat |}
    else if loose_eq type (VStr "CHILD") then
      {| child := add_to (child t) BF NoChd;
         TotalTF := add_to (TotalTF t) TF NoChd;
         TotalTT := add_to (TotalTT t) TTX NoChd;
         childT := add_to (childT t) TTX NoChd;
         TotalMRKP := add_to (TotalMRKP t) MKP NoChd;
         Commission := add_opt (Commission t) COM NoChd;
         CashBack := add_opt (CashBack t) CB NoChd;
         STF := js_add (STF t) (VNum 0);
         TDS := add_opt (TDS t) TDS' NoChd;
         ServiceFee := add_opt (ServiceFee t) SF NoChd;
         TransactionFees := add_opt (TransactionFees t) TA NoChd;
         adult := adult t; infant := infant t;
         adultT := adultT t; infantT := infantT t;
         totalExSeatFare := ExSeat |}
    else if loose_eq type (VStr "INFANT") then
      {| infant := add_to (infant t) BF NoInf;
         TotalTF := add_to (TotalTF t) TF NoInf;
         TotalTT := add_to (TotalTT t) TTX NoInf;
         infantT := add_to (infantT t) TTX NoInf;
         TotalMRKP := add_to (TotalMRKP t) MKP NoInf;
         Commission := add_opt (Commission t) COM NoInf;
         CashBack := add_opt (CashBack t) CB NoInf;
         STF := if not_null COM then js_add (STF t) (VNum 0) else STF t;
         TDS := add_opt (TDS t) TDS' NoInf;
         ServiceFee := add_opt (ServiceFee t) SF NoInf;
         TransactionFees := add_opt (TransactionFees t) TA NoInf;
         adult := adult t; child := child t;
         adultT := adultT t; childT := childT t;
         totalExSeatFare := ExSeat |}
    else
      {| adult := adult t; child := child t; infant := infant t;
         adultT := adultT t; childT := childT t; infantT := infantT t;
         TotalTF := TotalTF t; TotalTT := TotalTT t;
         TotalMRKP := TotalMRKP t; STF := STF t; TDS := TDS t;
         ServiceFee := ServiceFee t; CashBack := CashBack t;
         Commission := Commission t; TransactionFees := TransactionFees t;
         totalExSeatFare := ExSeat |} in
  PxFare_L ← copy_props row
    [("BF", "BscFr"); ("TF", "TtlFare"); ("TTX", "TtlTax"); ("PXC", "PaxCount");
     ("dfValue", "dfValue"); ("I_ZCAN", "IsZeroCancellation");
     ("ZCC", "ZeroCancellationCharge"); ("ZCV", "ZeroCancellationValidity");
     ("RFIN", "RefundableIn"); ("BRSER", "BrandedServies")]
    (<["lstTxDt" := VArr []]> PxFare_L);
  Ok t.

(** Lines 343 to 442: the loop over [seg_.Fr.L_PF]. *)
Definition PriceRows (L_PF : value) : exc totals :=
  if has_items L_PF then
    len ← get_prop L_PF "length";
    for_exc (λ pxfrC t, row ← get_elem L_PF (VNum (Z.of_nat pxfrC)); AddRow row t)
            0 (loop_count len) totals0
  else Ok totals0.

(** The object that lines 321 to 454 build in [Seg_L.Fare] from the selected
    option, before line 455 replaces it. *)
Definition fare_from_option (Fr L_PF : value) : exc obj :=
  let Fare : obj := <["lstPxPF" := VArr []]> ∅ in
  let Fare :=
    set_if (has_items L_PF) "lstCancellationPcy" (VArr []) Fare in
  Fare ← copy_props Fr
    [("BF", "BscFr"); ("TFRMP", "TtlFrWthMkp"); ("TTXMP", "TtlTxWthMkp");
     ("TF", "TTLFr")] Fare;
  copy_props Fr
    [("TTDIS", "ttlDiscount"); ("FRTYPID", "FareTypeID"); ("FRTYP", "FareType");
     ("BDKEY", "BrandKeys"); ("L_Bran", "Branded"); ("FR", "FareRule")]
    (<["lstTxDt" := VArr []]> Fare).

(** Lines 470 to 480 and 502 to 512, the same in both branches. *)
Definition segment_terms (seg_ : obj) (bonds : list value) (Seg_L : obj)
  : exc obj :=
  let Seg_L := copy_fields seg_
    [("CNP", "CancePenalty"); ("CHP", "ChangPenalty"); ("RF", "Refundable");
     ("RFIN", "RefundableIn"); ("SSK", "SpecialSegKey"); ("CT", "ConnType")]
    Seg_L in
  lstCanPo ← get_prop (nth_value bonds 0) "lstCanPo";
  if not_null lstCanPo then Ok (<["lstCanPo" := lstCanPo]> Seg_L)
  else Ok (<["lstCanPo" := field seg_ "LCP"]> Seg_L).

(** Lines 321 to 480: the branch taken when [seg_.Fr != null]. *)
Definition row_prices (seg_ : obj) (Fr : value) (bonds : list value)
    (Seg_L : obj) : exc (obj * totals) :=
  let Seg_L := <["Fare" := VObj (<["lstPxPF" := VArr []]> ∅)]> Seg_L in
  SID ← get_prop Fr "SID";
  let Seg_L := set_if (loose_ne SID (VStr "")) "searchId" SID Seg_L in
  L_PF ← get_prop Fr "L_PF";
  t ← PriceRows L_PF;
  Fare ← fare_from_option Fr L_PF;
  let Seg_L := <["Fare" := VObj Fare]> Seg_L in
  let Seg_L := <["Fare" := FFare_L]> Seg_L in
  let Seg_L := <["AdultPrice" := adult t]> Seg_L in
  let Seg_L := <["ChildPrice" := child t]> Seg_L in
  let Seg_L := <["InfantPrice" := infant t]> Seg_L in
  let Seg_L := <["AdultPriceT" := adultT t]> Seg_L in
  let Seg_L := <["ChildPriceT" := childT t]> Seg_L in
  let Seg_L := <["InfantPriceT" := infantT t]> Seg_L in
  let Seg_L := <["TotalTax" := TotalTT t]> Seg_L in
  let Seg_L := <["TotalFare" := js_add (TotalTF t) (TotalMRKP t)]> Seg_L in
  let Seg_L := <["ESF" := totalExSeatFare t]> Seg_L in
  let Seg_L := <["MarkUP" := TotalMRKP t]> Seg_L in
  let Seg_L := <["ttlDiscount" := js_add (TotalTF t) (TotalMRKP t)]> Seg_L in
  Seg_L ← segment_terms seg_ bonds Seg_L;
  Ok (Seg_L, t).

(** Lines 486 to 512: the branch taken when [seg_.Fr == null]. *)
Definition flat_prices (seg_ : obj) (bonds : list value) (Seg_L : obj)
  : exc obj :=
  let Seg_L := <["AdultPrice" := field seg_ "AP"]> Seg_L in
  let Seg_L :=
    set_if (not_null (field seg_ "APT")) "AdultPriceT" (field seg_ "APT") Seg_L in
  let Seg_L := <["ChildPrice" := field seg_ "CP"]> Seg_L in
  let Seg_L :=
    set_if (not_null (field seg_ "CPT")) "ChildPriceT" (field seg_ "CPT") Seg_L in
  let Seg_L := <["InfantPrice" := field seg_ "IP"]> Seg_L in
  let Seg_L :=
    set_if (not_null (field seg_ "IPT")) "InfantPriceT" (field seg_ "IPT") Seg_L in
  let Seg_L := copy_fields seg_
    [("TT", "TotalTax"); ("TF", "TotalFare"); ("TTDIS", "ttlDiscount")] Seg_L in
  segment_terms seg_ bonds Seg_L.

(** Lines 319 to 514; writes [seg_.CBAMT], [seg_.Comm], [seg_.TDS] and
    [seg_.SF]. *)
Definition AggregatePrices (bonds : list value) (Seg_L : obj) : M obj :=
  seg_ ← the_seg;
  let Fr := field seg_ "Fr" in
  if not_null Fr then
    '(Seg_L, t) ← lift (row_prices seg_ Fr bonds Seg_L);
    write_seg "CBAMT" (CashBack t);;
    write_seg "Comm" (Commission t);;
    write_seg "TDS" (TDS t);;
    write_seg "SF" (ServiceFee t);;
    mret Seg_L
  else lift (flat_prices seg_ bonds Seg_L).

(** Lines 533 to 541. *)
Definition resolve_coupon_code (seg_ : obj) (fareId : value) : exc value :=
  let lstFr := field seg_ "lstFr" in
  if has_items lstFr then
    Fr ← get_elem lstFr fareId;
    TTDIS ← get_prop Fr "TTDIS";
    TF ← get_prop Fr "TF";
    if js_lt TTDIS TF then get_prop Fr "CC" else Ok (VStr "")
  else Ok (field seg_ "CC").

(** Lines 515 to 531. *)
Definition record_notes (seg_ : obj) (isHndBGG : value) (Seg_L : obj) : obj :=
  let Seg_L := <["lstInBound" := VArr []]> (<["lstOutBound" := VArr []]> Seg_L) in
  let Seg_L := <["IsHndBagg" := field seg_ "IHB"]> Seg_L in
  let Seg_L :=
    <["IsHndBaggTp" :=
        if not_null (field seg_ "Is_HBT") then field seg_ "Is_HBT"
        else isHndBGG]> Seg_L in
  copy_fields seg_
    [("Nt", "Note"); ("CpNt", "CouponNote"); ("I_RT", "IsRoundTrip");
     ("EID", "EngineId"); ("svg", "Saving"); ("Ssn", "Ssn"); ("Rmk", "Remark")]
    Seg_L.

(** Lines 545 to 551, under [if (isRT_ && false)]. *)
Definition blank_coupons (Seg_L : obj) : obj :=
  <["CpnLstDis" := VNum 0]>
    (<["CpnTxtS" := VStr ""]>
       (<["IACL" := VStr ""]>
          (<["CCL" := VStr ""]> (<["CouponCode" := VStr ""]> Seg_L)))).

(** Lines 552 to 576. *)
Definition record_tail (seg_ : obj) (Seg_L : obj) : obj :=
  let Seg_L := copy_fields seg_
    [("VI", "VisaInfo"); ("SeatAv", "SeatAvailablity")] Seg_L in
  let Seg_L := <["SearchDestination" := des]> (<["SearchOrigin" := org]> Seg_L) in
  let Seg_L := copy_fields seg_
    [("l_BF", "listBrandfare"); ("I_BF", "IsBranded");
     ("I_BFAv", "IsBrandeFareAvailabel"); ("FTpInd", "FareTypeInd")] Seg_L in
  let Seg_L :=
    set_if (not_null (field seg_ "FareRule")) "FareRule" (field seg_ "FareRule")
           Seg_L in
  let Seg_L :=
    set_if (not_null (field seg_ "CBAMT")) "CBAMT" (field seg_ "CBAMT") Seg_L in
  let Seg_L :=
    set_if (not_null (field seg_ "Comm")) "Comm" (field seg_ "Comm") Seg_L in
  let Seg_L :=
    set_if (not_null (field seg_ "TDS")) "TDS" (field seg_ "TDS") Seg_L in
  set_if (not_null (field seg_ "SF")) "SF" (field seg_ "SF") Seg_L.

(** Lines 515 to 582. *)
Definition Assemble (fareId isHndBGG : value) (Seg_L : obj) : M result :=
  seg_ ← the_seg;
  let Seg_L := record_notes seg_ isHndBGG Seg_L in
  CouponCode ← lift (resolve_coupon_code seg_ fareId);
  let Seg_L := <["CouponCode" := CouponCode]> Seg_L in
  let Seg_L :=
    set_if (loose_eq (field Seg_L "CouponCode") (VStr "")) "DiscountAmount"
           (VNum 0) Seg_L in
  let Seg_L := if to_boolean isRT_ && false then blank_coupons Seg_L else Seg_L in
  let Seg_L := record_tail seg_ Seg_L in
  match get_prop (VObj seg_) "IsFlightOutOfPolicy" with
  | Ok IsFlightOutOfPolicy =>
      mret (Serialized (<["IsFlightOutOfPolicy" := IsFlightOutOfPolicy]> Seg_L))
  | Throw _ => mret (Partial Seg_L)
  end.

(** Lines 59 to 79. *)
Definition new_record (seg_ : obj) : obj :=
  let Seg_L := copy_fields seg_
    [("id", "id"); ("BKID", "BKID"); ("SD", "segDTL"); ("SK", "segKey");
     ("SID", "searchId"); ("IK", "ItineraryKey")] ∅ in
  let Seg_L := <["SearchDestination" := des]> (<["SearchOrigin" := org]> Seg_L) in
  let Seg_L := copy_fields seg_
    [("DAMT", "DiscountAmount"); ("FTpInd", "FareTypeInd");
     ("CpnTxtS", "CpnTxtS"); ("CCL", "CCL"); ("IACL", "IACL")] Seg_L in
  let Seg_L := <["CT_UPG" := VStr ""]> (<["bonds" := VArr []]> Seg_L) in
  let Seg_L := <["PT" := field seg_ "PT"]> Seg_L in
  let Seg_L := <["selectedFare" := VNum 0]> Seg_L in
  <["FareTypeUI" := VNum 0]> Seg_L.

(** The function of the script; [seg_] is the state it runs on. *)
Definition ConvertSegFinal : M result :=
  seg_ ← the_seg;
  let Seg_L := new_record seg_ in
  let fareId := fareIdByFareSelected in
  '(bonds, idFareBK, isHndBGG) ← ConvertBounds fareId;
  let Seg_L := <["bonds" := VArr bonds]> Seg_L in
  Seg_L ← SelectFare fareId Seg_L;
  Seg_L ← AggregatePrices bonds Seg_L;
  Assemble fareId isHndBGG Seg_L.

End ConvertSegFinal.

(** * The vocabulary of the statements *)

(** ** What a computation may write on the segment *)

(** [modifies W m]: whatever its outcome, [m] leaves every property of the
    segment outside [W] as it found it. *)
Definition modifies {A} (W : list string) (m : M A) : Prop :=
  ∀ s r s', m s = (r, s') → ∀ k, k ∉ W → s' !! k = s !! k.

(** [keeps m s]: run from the segment [s], the computation [m] leaves it
    as it is, whatever the outcome. *)
Definition keeps {A} (m : M A) (s : obj) : Prop :=
  ∀ x s', m s = (x, s') → s' = s.

(** Two states of the segment that differ at most on the properties [W]. *)
Definition agree_off (W : list string) (s s' : obj) : Prop :=
  ∀ k, k ∉ W → s' !! k = s !! k.

(** The properties the script writes on its argument. *)
Definition written : list string := ["l_HB"; "Fr"; "CBAMT"; "Comm"; "TDS"; "SF"].

(** ** Reading back a record *)

(** [v.k] where the read cannot throw. *)
Definition prop (v : value) (k : string) : value :=
  match get_prop v k with Ok x => x | Throw _ => VUndef end.

(** [v[i]] for an array. *)
Definition elem (v : value) (i : nat) : value :=
  match v with VArr l => default VUndef (l !! i) | _ => VUndef end.

(** [v[i]] where the read cannot throw. *)
Definition at_ (v i : value) : value :=
  match get_elem v i with Ok x => x | Throw _ => VUndef end.

(** [lst != null && lst.length > lc] *)
Definition covers (lst : value) (lc : nat) : bool :=
  not_null lst && js_gt (prop lst "length") (VNum (Z.of_nat lc)).

(** ** The legs and the bounds *)

(** The key [seg_.lstFr[fareId].fs] of the selected fare. *)
Definition fare_key (seg_ : obj) (fareId : value) : value :=
  prop (at_ (field seg_ "lstFr") fareId) "fs".

(** The test of line 211, and the one of line 216. *)
Definition has_fare_keys (bnd fareId : value) : bool :=
  not_null (prop bnd "dctBKKY") &&
  js_gt (values_length (prop bnd "dctBKKY")) fareId.

Definition fare_keys_cover (seg_ : obj) (bnd fareId : value) (lc : nat) : bool :=
  js_gt (prop (at_ (prop bnd "dctBKKY") (fare_key seg_ fareId)) "length")
        (VNum (Z.of_nat lc)).

(** [seg_.b[bc].dctBagg[idFareBK][lc]] *)
Definition fare_baggage (seg_ : obj) (bnd fareId : value) (lc : nat) : value :=
  at_ (at_ (prop bnd "dctBagg") (fare_key seg_ fareId)) (VNum (Z.of_nat lc)).

Definition lower_ascii (c : ascii) : ascii :=
  let n := nat_of_ascii c in
  if (Nat.leb 65 n && Nat.leb n 90)%bool then ascii_of_nat (n + 32) else c.

Fixpoint lower (s : string) : string :=
  match s with
  | String c r => String (lower_ascii c) (lower r)
  | EmptyString => EmptyString
  end.

(** Two labels are the same up to the case of their letters. *)
Definition same_label (s t : string) : bool := String.eqb (lower s) (lower t).

(** The row's passenger-type label is [ty], in any case. *)
Definition labelled (ty : string) (row : value) : bool :=
  match prop row "PT" with
  | VStr s => same_label s ty
  | _ => false
  end.

Section Vocabulary.

Variable LocalTZA : Z → Z.
Variable Res_L : value.
Variables NoAdt NoChd NoInf : value.

(** The leg that [GetFltDtl] finds for position [lc] of a bound. *)
Definition raw_leg (bnd : value) (lc : nat) : value :=
  match GetFltDtl Res_L (at_ (prop bnd "FL") (VNum (Z.of_nat lc))) with
  | Ok fleg => fleg
  | Throw _ => VUndef
  end.

(** What the loop over the bounds leaves in [Seg_L.bonds]: one record per
    bound, whose [Legs] are those the loop over the bound's flight legs
    produced, in a state of the segment that differs from the initial one
    on [l_HB] at most. *)
Definition bond_of (fareId : value) (s : obj) (bc : nat) (B : value) : Prop :=
  ∃ s_bc Bnd_L Legs id0 idl,
    agree_off ["l_HB"] s s_bc ∧
    B = VObj Bnd_L ∧
    Bnd_L !! "Legs" = Some (VArr Legs) ∧
    let bnd := at_ (field s "b") (VNum (Z.of_nat bc)) in
    ConvertLegs LocalTZA Res_L s_bc bnd fareId
      (loop_count (prop (prop bnd "FL") "length")) id0 = Ok (Legs, idl).


End Vocabulary.

(** The leg at position [lc] of bound [bc] in the returned record. *)
Definition out_leg (r : result) (bc lc : nat) : value :=
  elem (prop (elem (field (record_of r) "bonds") bc) "Legs") lc.

(** [seg_.lstFr[fareId].L_PF[0]] *)
Definition first_row (seg_ : obj) (fareId : value) : value :=
  at_ (prop (at_ (field seg_ "lstFr") fareId) "L_PF") (VNum 0).

(** The hand-baggage flag that an iteration over a bound leaves in
    [isHndBGG] when there are fare options. *)
Definition baggage_flag (seg_ : obj) (fareId : value) : value :=
  if js_gt (parseInt (prop (first_row seg_ fareId) "BW")) (VNum 0)
  then VBool false
  else prop (at_ (field seg_ "lstFr") fareId) "IsHB".

Definition bound_labelled (seg_ : obj) (fareId : value) (B : value) : Prop :=
  prop B "Refundable" =
    VStr (if loose_eq (prop (first_row seg_ fareId) "RF") (VStr "True")
          then "Refundable" else "Non-Refundable") ∧
  prop B "IsBaggageFare" = baggage_flag seg_ fareId.

(** What an iteration over a bound leaves in the record of the bound, for
    the bound at position [bc] of the segment. *)
Definition bound_fields (fareId : value) (s : obj) (bc : nat) (B : value)
  : Prop :=
  let bnd := at_ (field s "b") (VNum (Z.of_nat bc)) in
  let dct := prop bnd "dctCanPo" in
  prop B "bndDTL" = prop bnd "BDT" ∧
  prop B "JrnyTm" = prop bnd "JyTm" ∧
  prop B "ConnType" = prop bnd "CT" ∧
  prop B "dctCanPo" = (if not_null dct then dct else VUndef) ∧
  (has_fare_keys bnd fareId = true →
   (0 < loop_count (prop (prop bnd "FL") "length"))%nat →
   prop B "lstCanPo" =
     if not_null dct then at_ dct (fare_key s fareId) else VUndef).

(** [(a, b)]: the returned leg's [b] is the dictionary leg's [a]. *)
Definition leg_copied : list (string * string) :=
  [("ADT", "arrDT"); ("DTM", "depTM"); ("ATM", "arrTM"); ("FN", "fltNum");
   ("AC", "airCode"); ("STP", "stops"); ("CC", "currCode"); ("CB", "cabin");
   ("DUR", "duration"); ("DTER", "depTer"); ("ATER", "arrTer");
   ("GRP", "Group"); ("ACTYP", "AircraftType"); ("AST", "AirSeat");
   ("LOVAT", "LayoverAt"); ("LOVDU", "LayoverDuration"); ("OPB", "OperatedBy");
   ("ET", "EquipmentType"); ("SA", "SeatAvail");
   ("FlightDetailRefKey", "FlightDetailRefKey")].

(** ** The price aggregation *)

Definition amount (v : value) : Z :=
  match v with VNum n => n | _ => 0 end.

Definition sum_over (g : value → Z) (rows : list value) : Z :=
  foldr (λ row acc, g row + acc) 0 rows.

(** Sum of [row.f * n] over the rows labelled [ty]. *)
Definition bucket (ty f : string) (n : Z) (rows : list value) : Z :=
  sum_over (λ row, if labelled ty row then amount (prop row f) * n else 0) rows.

(** The passenger count that goes with a row's label. *)
Definition passengers (a c i : Z) (row : value) : Z :=
  if labelled "ADULT" row then a
  else if labelled "CHILD" row then c
  else if labelled "INFANT" row then i
  else 0.

(** Sum of [row.f * count] over the rows that have [f]; a row without it,
    or with another label, adds nothing. *)
Definition optional_total (f : string) (a c i : Z) (rows : list value) : Z :=
  sum_over (λ row, if not_null (prop row f)
                   then amount (prop row f) * passengers a c i row
                   else 0) rows.

Definition is_num (v : value) : bool :=
  match v with VNum _ => true | _ => false end.

Definition num_or_absent (v : value) : bool :=
  match v with VNum _ | VUndef | VNull => true | _ => false end.

(** A row whose base fare is a number and whose optional amounts are
    numbers where they are present. *)
Definition row_typed (row : value) : bool :=
  is_num (prop row "BF") &&
  forallb (λ f, num_or_absent (prop row f)) ["COM"; "CB"; "TDS"; "SF"; "TA"].




(** A string written in ASCII. *)
Fixpoint all_ascii (s : string) : bool :=
  match s with
  | String c r => (nat_of_ascii c <? 128)%nat && all_ascii r
  | EmptyString => true
  end.

(** A row whose passenger-type label is a string written in ASCII. *)
Definition plain_label (row : value) : bool :=
  match prop row "PT" with
  | VStr s => all_ascii s
  | _ => false
  end.



(** ** What the record copies from the segment *)

(** [(a, b)]: the record's [b] is the segment's [a]. *)
Definition header : list (string * string) :=
  [("id", "id"); ("BKID", "BKID"); ("SD", "segDTL"); ("SK", "segKey");
   ("PT", "PT")].

Definition terms : list (string * string) :=
  [("CNP", "CancePenalty"); ("CHP", "ChangPenalty"); ("RF", "Refundable");
   ("RFIN", "RefundableIn"); ("SSK", "SpecialSegKey"); ("CT", "ConnType")].

Definition noted : list (string * string) :=
  [("IHB", "IsHndBagg"); ("Nt", "Note"); ("CpNt", "CouponNote");
   ("I_RT", "IsRoundTrip"); ("EID", "EngineId"); ("svg", "Saving");
   ("Ssn", "Ssn"); ("Rmk", "Remark"); ("VI", "VisaInfo");
   ("SeatAv", "SeatAvailablity"); ("l_BF", "listBrandfare");
   ("I_BF", "IsBranded"); ("I_BFAv", "IsBrandeFareAvailabel");
   ("FTpInd", "FareTypeInd")].

Definition copied : list (string * string) := header ++ terms ++ noted.

(** ** Sample data *)

Definition object (l : list (string * value)) : value := VObj (list_to_map l).

(** Two legs with the same native hand baggage, one piece, whose departure
    dates are written in the two usual ways. *)
Definition sample_leg (DDT : string) : value :=
  object [("AC", VStr "6E"); ("OG", VStr "DEL"); ("DT", VStr "BOM");
          ("DDT", VStr DDT); ("HBU", VStr "PC"); ("HBW", VNum 1);
          ("LOV", VStr "0h"); ("ProviderCode", VStr "P0")].

Definition sample_Res : value :=
  object [("dctFltDtl", object [("K1", sample_leg "Sat-12Sep2020");
                                ("K2", sample_leg "12-Sep-2020")]);
          ("C", object [("6E", VStr "IndiGo")]);
          ("A", object [("DEL", VStr "Delhi"); ("BOM", VStr "")]);
          ("Cnty", object [("DEL", VStr "India"); ("BOM", VStr "India")])].

Definition sample_rows : list value :=
  [object [("PT", VStr "Adult"); ("BF", VNum 100); ("TF", VNum 120);
           ("TTX", VNum 20); ("MKP", VNum 5); ("RF", VStr "True");
           ("BW", VStr "15"); ("COM", VNum 3)];
   object [("PT", VStr "child"); ("BF", VNum 50); ("TF", VNum 60);
           ("TTX", VNum 10); ("MKP", VNum 2); ("TA", VNum 4)];
   object [("PT", VStr "SENIOR"); ("BF", VNum 70); ("TF", VNum 80);
           ("TTX", VNum 10); ("MKP", VNum 2); ("COM", VNum 9)]].

Definition sample_fare : value :=
  object [("fs", VStr "F0"); ("FId", VNum 3); ("TTDIS", VNum 100);
          ("TF", VNum 120); ("CC", VStr "SAVE"); ("DA", VNum 20);
          ("CouponCodeList", VArr [VStr "A"]); ("isAddCL", VBool true);
          ("CpnTxtS", VStr "txt"); ("SID", VStr "");
          ("L_PF", VArr sample_rows)].

(** A bound with the plain baggage list only. *)
Definition plain_bound : value :=
  object [("FL", VArr [VStr "K1"; VStr "K2"]);
          ("lFC", VArr [VStr "Y"; VStr "Y"]);
          ("lstBagg", VArr [VStr "KG|15"; VStr "KG|15"])].

(** A bound with the plain list and with the per-fare maps. *)
Definition fare_bound : value :=
  object [("FL", VArr [VStr "K1"]); ("lFC", VArr [VStr "Y"]);
          ("lstBagg", VArr [VStr "KG|15"]);
          ("dctBKKY", object [("F0", VArr [VStr "PK1"])]);
          ("dctBagg", object [("F0", VArr [VStr "KG|25"])])].

(** Engine 1, no fare options, flat prices, no out-of-policy field. *)
Definition flat_seg : obj :=
  list_to_map [("EID", VNum 1); ("b", VArr [plain_bound]);
               ("lstFr", VArr []); ("AP", VNum 100); ("CP", VNum 50);
               ("TT", VNum 20); ("TF", VNum 120)].

(** The same segment carrying a selected fare of its own. *)
Definition flat_seg_with_fare : obj := <["Fr" := sample_fare]> flat_seg.

(** Engine 1, one fare option, round trip. *)
Definition fare_seg : obj :=
  list_to_map [("EID", VNum 1); ("I_RT", VBool true); ("b", VArr [fare_bound]);
               ("lstFr", VArr [sample_fare]); ("AP", VNum 999)].

(** A bound whose leg key the leg dictionary does not have. *)
Definition lost_seg : obj :=
  list_to_map [("b", VArr [object [("FL", VArr [VStr "K9"]);
                                   ("lFC", VArr [VStr "Y"]);
                                   ("lstBagg", VArr [VStr "KG|15"])]]);
               ("lstFr", VArr [])].

(** A result object with an airport table and no country table. *)
Definition Res_without_countries : value :=
  object [("A", object [("DEL", VStr "Delhi")])].

(** A result object with a carrier table only. *)
Definition Res_without_airports : value :=
  object [("C", object [("6E", VStr "IndiGo")])].

(** The bound of [lost_seg]. *)
Definition lost_bound : value :=
  object [("FL", VArr [VStr "K9"]); ("lFC", VArr [VStr "Y"]);
          ("lstBagg", VArr [VStr "KG|15"])].

(** A bound with a leg and without the list of checked baggage. *)
Definition bare_bound : value :=
  object [("FL", VArr [VStr "K1"]); ("lFC", VArr [VStr "Y"])].

Definition bare_seg : obj :=
  list_to_map [("b", VArr [bare_bound]); ("lstFr", VArr [])].

(** A fare option with a passenger row that has no type. *)
Definition untyped_row : value := object [("BF", VNum 100)].

Definition untyped_fare : value :=
  object [("fs", VStr "F0"); ("FId", VNum 3); ("L_PF", VArr [untyped_row])].

Definition untyped_seg : obj :=
  list_to_map [("b", VArr [fare_bound]); ("lstFr", VArr [untyped_fare])].

(** A fare option with two adult rows whose base fares, for two adults,
    add up to 2^54 + 2. *)
Definition large_rows : list value :=
  [object [("PT", VStr "ADULT"); ("BF", VNum 9007199254740992);
           ("TF", VNum 9007199254740992); ("TTX", VNum 0); ("MKP", VNum 0)];
   object [("PT", VStr "ADULT"); ("BF", VNum 1); ("TF", VNum 1);
           ("TTX", VNum 0); ("MKP", VNum 0)]].

Definition large_fare : value :=
  object [("fs", VStr "F0"); ("FId", VNum 3); ("L_PF", VArr large_rows)].

Definition large_seg : obj :=
  list_to_map [("b", VArr [fare_bound]); ("lstFr", VArr [large_fare])].

(** A bound with booking keys by fare and a cancellation-policy
    dictionary. *)
Definition policy_bound : value :=
  object [("BDT", VStr "DEL-BOM"); ("FL", VArr [VStr "K1"]);
          ("lFC", VArr [VStr "Y"]); ("lstBagg", VArr [VStr "KG|15"]);
          ("dctBKKY", object [("F0", VArr [VStr "PK1"])]);
          ("dctBagg", object [("F0", VArr [VStr "KG|25"])]);
          ("dctCanPo", object [("F0", VArr [VStr "24h"])])].

Definition policy_seg : obj :=
  list_to_map [("b", VArr [policy_bound]); ("lstFr", VArr [sample_fare]);
               ("LCP", VStr "none")].

(** The call on a sample segment: two adults, one child, no infant, first
    fare option, a host five and a half hours east of UTC. *)
Abbreviation sample_call :=
  (ConvertSegFinal (λ _, 19800000) sample_Res (VStr "DEL") (VStr "BOM")
                   (VStr "") (VStr "") (VNum 2) (VNum 1) (VNum 0)
                   (VStr "FFARE") (VBool false) (VNum 0)).

Definition returned (x : exc result * obj) : result :=
  match x.1 with Ok r => r | Throw _ => Partial ∅ end.

Definition is_partial (r : result) : bool :=
  match r with Partial _ => true | Serialized _ => false end.

Definition returns (x : exc result * obj) : bool :=
  match x.1 with Ok _ => true | Throw _ => false end.

(** The value of a completion that is known to be one. *)
Definition completed (x : exc obj) : obj :=
  match x with Ok o => o | Throw _ => ∅ end.

(** * Properties *)

(** ** Completions *)

Lemma exc_bind_Ok {A B} (k : A → exc B) (m : exc A) (r : B) :
  m ≫= k = Ok r → ∃ a, m = Ok a ∧ k a = Ok r.
Proof. destruct m as [a|e]; [intros H; by exists a | discriminate]. Qed.

Lemma M_bind_Ok {A B} (k : A → M B) (m : M A) (s s' : obj) (r : B) :
  (m ≫= k) s = (Ok r, s') →
  ∃ a s1, m s = (Ok a, s1) ∧ k a s1 = (Ok r, s').
Proof.
  unfold mbind, M_bind. destruct (m s) as [[a|e] s1]; [|discriminate].
  intros H. by exists a, s1.
Qed.

Lemma lift_Ok {A} (x : exc A) (s s' : obj) (r : A) :
  lift x s = (Ok r, s') → x = Ok r ∧ s' = s.
Proof. unfold lift. intros [= -> ->]. done. Qed.

(** ** What a computation may write on the segment *)

Lemma modifies_ret {A} W (a : A) : modifies W (mret a).
Proof. intros s r s' [= _ <-]. done. Qed.

Lemma modifies_lift {A} W (x : exc A) : modifies W (lift x).
Proof. intros s r s' [= _ <-]. done. Qed.

Lemma modifies_the_seg W : modifies W the_seg.
Proof. intros s r s' [= _ <-]. done. Qed.

Lemma modifies_read W k : modifies W (read_seg k).
Proof. intros s r s' [= _ <-]. done. Qed.

Lemma modifies_write W k v : k ∈ W → modifies W (write_seg k v).
Proof.
  intros Hk s r s' [= _ <-] k' Hk'.
  apply lookup_insert_ne. intros ->. done.
Qed.

Lemma modifies_bind {A B} W (m : M A) (k : A → M B) :
  modifies W m → (∀ a, modifies W (k a)) → modifies W (m ≫= k).
Proof.
  intros Hm Hk s r s'. unfold mbind, M_bind.
  destruct (m s) as [[a|e] s1] eqn:E; intros H k' Hk'.
  - rewrite (Hk a _ _ _ H k' Hk'). by eapply Hm.
  - injection H as _ <-. by eapply Hm.
Qed.

Lemma modifies_for_M {St} W (body : nat → St → M St) n :
  (∀ i st, modifies W (body i st)) → ∀ i st, modifies W (for_M body i n st).
Proof.
  intros Hb. induction n as [|n IH]; intros i st; simpl.
  - apply modifies_ret.
  - apply modifies_bind; [apply Hb | intros a; apply IH].
Qed.

Ltac modifies_step :=
  first
    [ apply modifies_ret
    | apply modifies_lift
    | apply modifies_the_seg
    | apply modifies_read
    | apply modifies_write; set_solver
    | apply modifies_bind; [| intros ?]
    | match goal with
      | |- modifies _ (if ?c then _ else _) => destruct c
      | |- modifies _ (let '(_, _) := ?x in _) => destruct x
      | |- modifies _ (match ?x with _ => _ end) => destruct x
      end ].

Section Frame.

Variable LocalTZA : Z → Z.
Variables Res_L org des frArmy frArmyRT : value.
Variables NoAdt NoChd NoInf FFare_L isRT_ fareIdByFareSelected : value.

Lemma ConvertBounds_modifies fareId :
  modifies ["l_HB"] (ConvertBounds LocalTZA Res_L fareId).
Proof.
  unfold ConvertBounds. repeat modifies_step.
  apply modifies_for_M. intros i [[bonds id] hb].
  unfold ConvertBound. repeat modifies_step.
Qed.

Lemma SelectFare_modifies fareId Seg_L :
  modifies ["Fr"] (SelectFare frArmy frArmyRT fareId Seg_L).
Proof. unfold SelectFare. repeat modifies_step. Qed.

Lemma AggregatePrices_modifies bonds Seg_L :
  modifies ["CBAMT"; "Comm"; "TDS"; "SF"]
           (AggregatePrices NoAdt NoChd NoInf FFare_L bonds Seg_L).
Proof. unfold AggregatePrices. repeat modifies_step. Qed.

Lemma Assemble_modifies fareId isHndBGG Seg_L :
  modifies [] (Assemble org des isRT_ fareId isHndBGG Seg_L).
Proof. unfold Assemble. repeat modifies_step. Qed.

End Frame.

(** ** Reading back a record under construction *)

Lemma get_prop_prop v k x : get_prop v k = Ok x → prop v k = x.
Proof. unfold prop. by intros ->. Qed.

Lemma get_prop_obj (m : obj) k : get_prop (VObj m) k = Ok (field m k).
Proof. done. Qed.

Lemma get_elem_arr (l : list value) (i : nat) :
  get_elem (VArr l) (VNum (Z.of_nat i)) = Ok (default VUndef (l !! i)).
Proof.
  unfold get_elem. rewrite Nat2Z.id.
  destruct (Z.leb_spec 0 (Z.of_nat i)); [done | lia].
Qed.

Lemma not_null_spec v :
  not_null v = match v with VUndef | VNull => false | _ => true end.
Proof. by destruct v. Qed.

Lemma field_insert k v (o : obj) : field (<[k := v]> o) k = v.
Proof. unfold field. by rewrite lookup_insert_eq. Qed.

Lemma lookup_set_if_ne c k k' v (o : obj) :
  k ≠ k' → set_if c k v o !! k' = o !! k'.
Proof. intros. unfold set_if. destruct c; [by apply lookup_insert_ne | done]. Qed.

Lemma copy_prop_lookup src a b (o o' : obj) :
  copy_prop src a b o = Ok o' → o' !! b = Some (prop src a).
Proof.
  unfold copy_prop. intros (v & E & [= <-])%exc_bind_Ok.
  rewrite lookup_insert_eq. by rewrite (get_prop_prop _ _ _ E).
Qed.

Lemma copy_prop_lookup_ne src a b (o o' : obj) k :
  copy_prop src a b o = Ok o' → b ≠ k → o' !! k = o !! k.
Proof.
  unfold copy_prop. intros (v & E & [= <-])%exc_bind_Ok ?.
  by apply lookup_insert_ne.
Qed.

Lemma copy_props_lookup_ne src fs (o o' : obj) k :
  copy_props src fs o = Ok o' → k ∉ fs.*2 → o' !! k = o !! k.
Proof.
  revert o. induction fs as [|[a b] fs IH]; intros o; simpl.
  - by intros [= <-].
  - intros (o1 & E & H)%exc_bind_Ok Hk.
    apply not_elem_of_cons in Hk as [Hb Hk].
    rewrite (IH _ H Hk). by eapply copy_prop_lookup_ne.
Qed.

(** The last assignment to a property is the one that counts; here for a
    property that the run assigns once. *)
Lemma copy_props_lookup src fs (o o' : obj) a b :
  copy_props src fs o = Ok o' → (a, b) ∈ fs → NoDup fs.*2 →
  o' !! b = Some (prop src a).
Proof.
  revert o. induction fs as [|[a' b'] fs IH]; intros o; simpl.
  - intros _ Hin. by apply elem_of_nil in Hin.
  - intros (o1 & E & H)%exc_bind_Ok Hin Hnd.
    apply NoDup_cons in Hnd as [Hb' Hnd].
    apply elem_of_cons in Hin as [[= -> ->]|Hin].
    + rewrite (copy_props_lookup_ne _ _ _ _ _ H Hb').
      by eapply copy_prop_lookup.
    + by eapply IH.
Qed.

Lemma get_prop_Ok v k : not_null v = true → ∃ x, get_prop v k = Ok x.
Proof.
  destruct v; try done; intros _; simpl; try by eexists.
  - destruct (String.eqb k "length"); [by eexists|].
    destruct (array_index k); by eexists.
  - destruct (String.eqb k "length"); [by eexists|].
    destruct (array_index k); by eexists.
Qed.

Lemma get_prop_not_null v k x : get_prop v k = Ok x → not_null v = true.
Proof. by destruct v. Qed.


Lemma copy_fields_lookup_ne src fs (o : obj) k :
  k ∉ fs.*2 → copy_fields src fs o !! k = o !! k.
Proof.
  revert o. induction fs as [|[a b] fs IH]; intros o Hk; simpl; [done|].
  apply not_elem_of_cons in Hk as [Hb Hk].
  rewrite (IH _ Hk). by apply lookup_insert_ne.
Qed.

Lemma copy_fields_lookup src fs (o : obj) a b :
  (a, b) ∈ fs → NoDup fs.*2 → copy_fields src fs o !! b = Some (field src a).
Proof.
  revert o. induction fs as [|[a' b'] fs IH]; intros o; simpl.
  - intros Hin. by apply elem_of_nil in Hin.
  - intros Hin Hnd. apply NoDup_cons in Hnd as [Hb' Hnd].
    apply elem_of_cons in Hin as [[= -> ->]|Hin].
    + rewrite (copy_fields_lookup_ne _ _ _ _ Hb'). apply lookup_insert_eq.
    + by apply IH.
Qed.

Lemma set_split_lookup_ne s u w (o o' : obj) k :
  set_split s u w o = Ok o' → u ≠ k → w ≠ k → o' !! k = o !! k.
Proof.
  unfold set_split. intros (p & E & [= <-])%exc_bind_Ok ? ?.
  by rewrite !lookup_insert_ne.
Qed.

Lemma set_split_lookup s u w (o o' : obj) :
  set_split s u w o = Ok o' → u ≠ w →
  ∃ p, js_split s "|" = Ok p ∧
       o' !! u = Some (nth_value p 0) ∧ o' !! w = Some (nth_value p 1).
Proof.
  unfold set_split. intros (p & E & [= <-])%exc_bind_Ok ?.
  exists p. split; [done|].
  by rewrite lookup_insert_eq, lookup_insert_ne, lookup_insert_eq.
Qed.

(** Inversion of a completed chain of statements. *)
Ltac inv_exc H :=
  cbv beta zeta in H;
  lazymatch type of H with
  | mbind _ _ = Ok _ =>
      let a := fresh "x" in
      let E := fresh "E" in
      apply exc_bind_Ok in H as (a & E & H); inv_exc E; inv_exc H
  | (if ?c then _ else _) = Ok _ =>
      let C := fresh "C" in destruct c eqn:C; inv_exc H
  | (let '(_, _) := ?p in _) = Ok _ => destruct p; inv_exc H
  | try_exc ?m _ = Ok _ =>
      let a := fresh "x" in
      let E := fresh "E" in
      unfold try_exc in H; destruct m as [a|] eqn:E; [inv_exc E|]; inv_exc H
  | Throw _ = Ok _ => discriminate H
  | Ok _ = Ok _ => injection H as H; try subst
  | _ => idtac
  end.

Ltac inv_M H :=
  cbv beta zeta iota in H;
  lazymatch type of H with
  | mbind _ _ _ = (Ok _, _) =>
      let a := fresh "a" in
      let s1 := fresh "s" in
      let E := fresh "E" in
      apply M_bind_Ok in H as (a & s1 & E & H); inv_M E; inv_M H
  | lift _ _ = (Ok _, _) => apply lift_Ok in H as [H ->]; inv_exc H
  | the_seg _ = (Ok _, _) => injection H as H ?; subst
  | read_seg _ _ = (Ok _, _) => injection H as H ?; subst
  | write_seg _ _ _ = (Ok _, _) => injection H as ?; subst
  | mret _ _ = (Ok _, _) => injection H as H ?; subst
  | (if ?c then _ else _) _ = (Ok _, _) =>
      let C := fresh "C" in destruct c eqn:C; inv_M H
  | (let '(_, _) := ?p in _) _ = (Ok _, _) => destruct p; inv_M H
  | _ => idtac
  end.

(** Side conditions on property names: a name differs from another, or is
    outside a list of names. *)
Ltac split_notin :=
  repeat match goal with
         | H : _ ∉ _ :: _ |- _ => apply not_elem_of_cons in H as [? H]
         | H : _ ∉ [] |- _ => clear H
         end.

Ltac key_ne :=
  solve [ done | congruence | apply not_eq_sym; assumption ].

Ltac key_notin :=
  solve [ compute_done
        | cbn [fmap list_fmap snd];
          repeat (apply not_elem_of_cons; split; [key_ne|]);
          apply not_elem_of_nil ].

(** Follow a property of a record back through the statements that do not
    assign it. *)
Ltac lookup_back :=
  repeat
    match goal with
    | H : copy_props _ _ ?o = Ok ?o' |- context [?o' !! ?k] =>
        rewrite (copy_props_lookup_ne _ _ _ _ k H) by key_notin
    | H : copy_prop _ _ _ ?o = Ok ?o' |- context [?o' !! ?k] =>
        rewrite (copy_prop_lookup_ne _ _ _ _ _ k H) by key_ne
    | H : set_split _ _ _ ?o = Ok ?o' |- context [?o' !! ?k] =>
        rewrite (set_split_lookup_ne _ _ _ _ _ k H) by key_ne
    | |- context [<[?i := ?x]> ?m !! ?j] =>
        rewrite (lookup_insert_ne m i j x) by key_ne
    | |- context [set_if ?c ?i ?x ?m !! ?j] =>
        rewrite (lookup_set_if_ne c i j x m) by key_ne
    | |- context [copy_fields ?src ?fs ?m !! ?j] =>
        rewrite (copy_fields_lookup_ne src fs m j) by key_notin
    end.

Lemma get_elem_at v i x : get_elem v i = Ok x → at_ v i = x.
Proof. unfold at_. by intros ->. Qed.

(** Replace the successful reads among the hypotheses by [prop] and [at_]. *)
Ltac name_reads :=
  repeat match goal with
         | H : get_prop ?v ?k = Ok ?x |- _ =>
             apply get_prop_prop in H; try subst x
         | H : get_elem ?v ?i = Ok ?x |- _ =>
             apply get_elem_at in H; try subst x
         end.

(** ** The legs *)

Section Legs.

Variable LocalTZA : Z → Z.
Variable Res_L : value.

Lemma legacy_hand_baggage_lookup_ne seg_ fleg (o o' : obj) k :
  legacy_hand_baggage LocalTZA seg_ fleg o = Ok o' →
  k ≠ "HBU" → k ≠ "HBW" → o' !! k = o !! k.
Proof.
  unfold legacy_hand_baggage, hand_baggage. intros H ? ?. inv_exc H; [|done].
  repeat match goal with
         | |- context [if ?c then _ else _] => destruct c
         end;
    by rewrite ?lookup_insert_ne.
Qed.

Lemma leg_details_hand_baggage bnd fleg lc (o o' : obj) :
  leg_details bnd fleg lc o = Ok o' →
  o' !! "HBU" = Some (prop fleg "HBU") ∧ o' !! "HBW" = Some (prop fleg "HBW").
Proof.
  unfold leg_details. intros H. inv_exc H.
  all: lookup_back.
  all: split; (eapply copy_props_lookup; [eassumption | |]; compute_done).
Qed.

Lemma leg_details_lookup_ne bnd fleg lc (o o' : obj) k :
  leg_details bnd fleg lc o = Ok o' →
  k ∈ ["BaggageUnit"; "BaggageWeight"] → o' !! k = o !! k.
Proof.
  unfold leg_details. intros H Hk. inv_exc H.
  all: apply list_elem_of_In in Hk; simpl in Hk;
    destruct Hk as [<-|[<-|[]]]; by lookup_back.
Qed.

Lemma leg_baggage_hand_baggage bnd lc (o o' : obj) :
  leg_baggage bnd lc o = Ok o' →
  if covers (prop bnd "lstHBagg") lc then
    ∃ e p, get_elem (prop bnd "lstHBagg") (VNum (Z.of_nat lc)) = Ok e ∧
           js_split e "|" = Ok p ∧
           o' !! "HBU" = Some (nth_value p 0) ∧
           o' !! "HBW" = Some (nth_value p 1)
  else o' !! "HBU" = o !! "HBU" ∧ o' !! "HBW" = o !! "HBW".
Proof.
  unfold leg_baggage, covers. intros H. inv_exc H.
  all: repeat match goal with
         | H : get_prop _ _ = Ok _ |- _ => rewrite (get_prop_prop _ _ _ H) in *; clear H
         end.
  all: repeat match goal with
         | H : _ = true |- _ => rewrite H
         | H : _ = false |- _ => rewrite H
         end; simpl; rewrite ?andb_false_r.
  all: try (by lookup_back).
  all: match goal with
       | H : set_split _ "HBU" "HBW" _ = Ok _ |- _ =>
           apply set_split_lookup in H as (p & ? & ? & ?); [|done]
       end.
  all: eauto 10.
Qed.

Lemma leg_provider_hand_baggage seg_ bnd fleg fareId lc id (o o' : obj) id' :
  leg_provider seg_ bnd fleg fareId lc id o = Ok (o', id') →
  o' !! "HBU" = o !! "HBU" ∧ o' !! "HBW" = o !! "HBW".
Proof.
  unfold leg_provider. intros H. inv_exc H.
  all: by lookup_back.
Qed.

Lemma leg_provider_baggage seg_ bnd fleg fareId lc id (o o' : obj) id' :
  leg_provider seg_ bnd fleg fareId lc id o = Ok (o', id') →
  has_fare_keys bnd fareId = true →
  fare_keys_cover seg_ bnd fareId lc = true →
  ∃ p, js_split (fare_baggage seg_ bnd fareId lc) "|" = Ok p ∧
       o' !! "BaggageUnit" = Some (nth_value p 0) ∧
       o' !! "BaggageWeight" = Some (nth_value p 1).
Proof.
  unfold leg_provider, has_fare_keys, fare_keys_cover, fare_baggage, fare_key.
  intros H. inv_exc H; name_reads; intros Hk Hc; try congruence.
  match goal with
  | H : set_split _ _ _ _ = Ok _ |- _ =>
      apply set_split_lookup in H as (p & ? & ? & ?); [|done]
  end.
  eauto.
Qed.

(** What the loop over the legs leaves in [Bnd_L.Legs]. *)
Lemma ConvertLegs_legs seg_ bnd fareId n id Legs id' :
  ConvertLegs LocalTZA Res_L seg_ bnd fareId n id = Ok (Legs, id') →
  length Legs = n ∧
  ∀ lc, (lc < n)%nat →
    ∃ idi fLeg_L idj,
      ConvertLeg LocalTZA Res_L seg_ bnd fareId lc idi = Ok (fLeg_L, idj) ∧
      Legs !! lc = Some (VObj fLeg_L).
Proof.
  unfold ConvertLegs.
  assert (∀ n i (L0 : list value) id0 L id1,
    for_exc
      (λ lc (st : list value * value),
         '(fLeg_L, idFareBK) ← ConvertLeg LocalTZA Res_L seg_ bnd fareId lc st.2;
         Ok ((st.1 ++ [VObj fLeg_L])%list, idFareBK)) i n (L0, id0) = Ok (L, id1) →
    ∃ L', L = (L0 ++ L')%list ∧ length L' = n ∧
      ∀ j, (j < n)%nat →
        ∃ idi fLeg_L idj,
          ConvertLeg LocalTZA Res_L seg_ bnd fareId (i + j) idi = Ok (fLeg_L, idj) ∧
          L' !! j = Some (VObj fLeg_L)) as Hgen.
  { clear. induction n as [|n IH]; intros i L0 id0 L id1; simpl.
    - intros [= <- <-]. exists []. split; [by rewrite app_nil_r|].
      split; [done|]. intros j Hj. lia.
    - intros (st & E & H)%exc_bind_Ok.
      apply exc_bind_Ok in E as ([leg idn] & E & [= <-]). simpl in *.
      apply IH in H as (L' & -> & Hlen & Hall).
      exists (VObj leg :: L'). split; [by rewrite <- app_assoc|].
      split; [simpl; lia|].
      intros [|j] Hj.
      + rewrite Nat.add_0_r. by exists id0, leg, idn.
      + destruct (Hall j ltac:(lia)) as (idi & l & idj & Hc & Hl).
        exists idi, l, idj. split; [|done].
        by replace (i + S j)%nat with (S i + j)%nat by lia. }
  intros H. apply Hgen in H as (L' & -> & Hlen & Hall).
  split; [done|]. intros lc Hlc. by apply Hall.
Qed.

Lemma ConvertLeg_hand_baggage seg_ bnd fareId lc id fLeg_L id' :
  ConvertLeg LocalTZA Res_L seg_ bnd fareId lc id = Ok (fLeg_L, id') →
  if covers (prop bnd "lstHBagg") lc then
    ∃ p, js_split (at_ (prop bnd "lstHBagg") (VNum (Z.of_nat lc))) "|" = Ok p ∧
         fLeg_L !! "HBU" = Some (nth_value p 0) ∧
         fLeg_L !! "HBW" = Some (nth_value p 1)
  else
    fLeg_L !! "HBU" = Some (prop (raw_leg Res_L bnd lc) "HBU") ∧
    fLeg_L !! "HBW" = Some (prop (raw_leg Res_L bnd lc) "HBW").
Proof.
  unfold ConvertLeg, raw_leg. intros H.
  apply exc_bind_Ok in H as (FL & EFL & H).
  apply exc_bind_Ok in H as (key_ & Ekey & H).
  apply exc_bind_Ok in H as (fleg & Efleg & H).
  apply exc_bind_Ok in H as (o1 & _ & H).
  apply exc_bind_Ok in H as (o2 & _ & H).
  apply exc_bind_Ok in H as (o3 & Hd & H).
  apply exc_bind_Ok in H as (o4 & Hb & H).
  apply get_prop_prop in EFL as <-. apply get_elem_at in Ekey as <-.
  rewrite Efleg.
  apply leg_provider_hand_baggage in H as [-> ->].
  apply leg_baggage_hand_baggage in Hb.
  apply leg_details_hand_baggage in Hd as [Hu Hw].
  destruct (covers (prop bnd "lstHBagg") lc).
  - destruct Hb as (e & p & He & Hp & ? & ?).
    apply get_elem_at in He as <-. eauto.
  - destruct Hb as [-> ->]. done.
Qed.

Lemma ConvertLeg_baggage seg_ bnd fareId lc id fLeg_L id' :
  ConvertLeg LocalTZA Res_L seg_ bnd fareId lc id = Ok (fLeg_L, id') →
  has_fare_keys bnd fareId = true →
  fare_keys_cover seg_ bnd fareId lc = true →
  ∃ p, js_split (fare_baggage seg_ bnd fareId lc) "|" = Ok p ∧
       fLeg_L !! "BaggageUnit" = Some (nth_value p 0) ∧
       fLeg_L !! "BaggageWeight" = Some (nth_value p 1).
Proof.
  unfold ConvertLeg. intros H.
  do 7 (apply exc_bind_Ok in H as (? & _ & H)).
  eapply leg_provider_baggage, H.
Qed.

End Legs.

Section Bounds.

Variable LocalTZA : Z → Z.
Variable Res_L : value.

Lemma ConvertBound_inv fareId bc B0 id0 hb0 s B id hb s' :
  ConvertBound LocalTZA Res_L fareId bc (B0, id0, hb0) s = (Ok (B, id, hb), s') →
  ∃ Bnd_L Legs idl,
    B = (B0 ++ [VObj Bnd_L])%list ∧
    Bnd_L !! "Legs" = Some (VArr Legs) ∧
    let bnd := at_ (field s "b") (VNum (Z.of_nat bc)) in
    ConvertLegs LocalTZA Res_L s bnd fareId
      (loop_count (prop (prop bnd "FL") "length")) id0 = Ok (Legs, idl).
Proof.
  unfold ConvertBound. intros H. inv_M H.
  all: name_reads.
  all: eexists _, _, _; (split; [done|]); split; [|eassumption].
  all: lookup_back; try apply lookup_insert_eq.
Qed.

End Bounds.

(** ** The stages of the transform *)

Section Stages.

Variable LocalTZA : Z → Z.
Variables Res_L org des frArmy frArmyRT : value.
Variables NoAdt NoChd NoInf FFare_L isRT_ fareIdByFareSelected : value.

Lemma ConvertSegFinal_inv s r s' :
  ConvertSegFinal LocalTZA Res_L org des frArmy frArmyRT NoAdt NoChd NoInf
                  FFare_L isRT_ fareIdByFareSelected s = (Ok r, s') →
  ∃ bonds id hb s1 L1 s2 L2 s3,
    ConvertBounds LocalTZA Res_L fareIdByFareSelected s
      = (Ok (bonds, id, hb), s1) ∧
    SelectFare frArmy frArmyRT fareIdByFareSelected
      (<["bonds" := VArr bonds]> (new_record org des s)) s1 = (Ok L1, s2) ∧
    AggregatePrices NoAdt NoChd NoInf FFare_L bonds L1 s2 = (Ok L2, s3) ∧
    Assemble org des isRT_ fareIdByFareSelected hb L2 s3 = (Ok r, s').
Proof.
  unfold ConvertSegFinal. intros H.
  apply M_bind_Ok in H as (s0 & ? & [= <- <-] & H).
  apply M_bind_Ok in H as ([[bonds id] hb] & s1 & E1 & H).
  apply M_bind_Ok in H as (L1 & s2 & E2 & H).
  apply M_bind_Ok in H as (L2 & s3 & E3 & H).
  by exists bonds, id, hb, s1, L1, s2, L2, s3.
Qed.

Lemma SelectFare_inv fareId L s L' s' :
  SelectFare frArmy frArmyRT fareId L s = (Ok L', s') →
  if has_items (field s "lstFr") then
    s' = <["Fr" := at_ (field s "lstFr") fareId]> s ∧
    selected_fare_fields frArmy frArmyRT s' fareId
      (at_ (field s "lstFr") fareId) (<["Fare" := VNull]> L) = Ok L'
  else s' = s ∧ L' = <["Fare" := VNull]> L.
Proof.
  unfold SelectFare. intros H.
  apply M_bind_Ok in H as (lstFr & ? & [= <- <-] & H).
  destruct (has_items (field s "lstFr")).
  - apply M_bind_Ok in H as (Fr & ? & [E ->]%lift_Ok & H).
    apply get_elem_at in E as <-.
    apply M_bind_Ok in H as ([] & ? & [= <-] & H).
    apply M_bind_Ok in H as (? & ? & [= <- <-] & H).
    by apply lift_Ok in H as [H ->].
  - by injection H as <- <-.
Qed.

Lemma AggregatePrices_inv bonds L s L' s' :
  AggregatePrices NoAdt NoChd NoInf FFare_L bonds L s = (Ok L', s') →
  if not_null (field s "Fr") then
    ∃ t, row_prices NoAdt NoChd NoInf FFare_L s (field s "Fr") bonds L
           = Ok (L', t) ∧
         s' = <["SF" := ServiceFee t]>
                (<["TDS" := TDS t]>
                   (<["Comm" := Commission t]> (<["CBAMT" := CashBack t]> s)))
  else flat_prices s bonds L = Ok L' ∧ s' = s.
Proof.
  unfold AggregatePrices. intros H.
  apply M_bind_Ok in H as (? & ? & [= <- <-] & H).
  destruct (not_null (field s "Fr")).
  - apply M_bind_Ok in H as ([L1 t] & ? & [E ->]%lift_Ok & H).
    do 4 (apply M_bind_Ok in H as ([] & ? & [= <-] & H)).
    injection H as <- <-. by exists t.
  - by apply lift_Ok in H as [H ->].
Qed.

Lemma selected_fare_fields_lookup_ne seg_ fareId Fr (L L' : obj) k :
  selected_fare_fields frArmy frArmyRT seg_ fareId Fr L = Ok L' →
  k ∉ ["INSP"; "CT_UPG"; "INSAmtPP"; "INSAmtKey"; "FIA"; "lstFr";
       "selectedFare"; "FN"; "ItineraryKey"; "CCL"; "IACL"; "CpnTxtS";
       "CpnLstDis"; "DiscountAmount"; "brandFareKey"] →
  L' !! k = L !! k.
Proof.
  unfold selected_fare_fields, coupon_state, clear_coupons.
  intros H Hk. split_notin. inv_exc H; by lookup_back.
Qed.

Lemma segment_terms_lookup_ne seg_ bonds (L L' : obj) k :
  segment_terms seg_ bonds L = Ok L' →
  k ∉ ["CancePenalty"; "ChangPenalty"; "Refundable"; "RefundableIn";
       "SpecialSegKey"; "ConnType"; "lstCanPo"] →
  L' !! k = L !! k.
Proof.
  unfold segment_terms. intros H Hk. split_notin. inv_exc H; by lookup_back.
Qed.

Lemma row_prices_lookup_ne seg_ Fr bonds (L L' : obj) t k :
  row_prices NoAdt NoChd NoInf FFare_L seg_ Fr bonds L = Ok (L', t) →
  k ∉ ["Fare"; "searchId"; "AdultPrice"; "ChildPrice"; "InfantPrice";
       "AdultPriceT"; "ChildPriceT"; "InfantPriceT"; "TotalTax"; "TotalFare";
       "ESF"; "MarkUP"; "ttlDiscount";
       "CancePenalty"; "ChangPenalty"; "Refundable"; "RefundableIn";
       "SpecialSegKey"; "ConnType"; "lstCanPo"] →
  L' !! k = L !! k.
Proof.
  unfold row_prices. intros H Hk. split_notin. inv_exc H.
  match goal with
  | H : segment_terms _ _ _ = Ok _ |- _ =>
      rewrite (segment_terms_lookup_ne _ _ _ _ k H) by key_notin
  end.
  by lookup_back.
Qed.

Lemma flat_prices_lookup_ne seg_ bonds (L L' : obj) k :
  flat_prices seg_ bonds L = Ok L' →
  k ∉ ["AdultPrice"; "ChildPrice"; "InfantPrice";
       "AdultPriceT"; "ChildPriceT"; "InfantPriceT"; "TotalTax"; "TotalFare";
       "ttlDiscount";
       "CancePenalty"; "ChangPenalty"; "Refundable"; "RefundableIn";
       "SpecialSegKey"; "ConnType"; "lstCanPo"] →
  L' !! k = L !! k.
Proof.
  unfold flat_prices. intros H Hk. split_notin.
  rewrite (segment_terms_lookup_ne _ _ _ _ k H) by key_notin.
  by lookup_back.
Qed.

Lemma lookup_set_if_true k v (o : obj) : set_if true k v o !! k = Some v.
Proof. apply lookup_insert_eq. Qed.

Lemma record_notes_lookup_ne seg_ hb (L : obj) k :
  k ∉ ["lstInBound"; "lstOutBound"; "IsHndBagg"; "IsHndBaggTp"; "Note";
       "CouponNote"; "IsRoundTrip"; "EngineId"; "Saving"; "Ssn"; "Remark"] →
  record_notes seg_ hb L !! k = L !! k.
Proof. intros Hk. unfold record_notes. split_notin. by lookup_back. Qed.

Lemma record_tail_lookup_ne seg_ (L : obj) k :
  k ∉ ["VisaInfo"; "SeatAvailablity"; "SearchOrigin"; "SearchDestination";
       "listBrandfare"; "IsBranded"; "IsBrandeFareAvailabel"; "FareTypeInd";
       "FareRule"; "CBAMT"; "Comm"; "TDS"; "SF"] →
  record_tail org des seg_ L !! k = L !! k.
Proof. intros Hk. unfold record_tail. split_notin. by lookup_back. Qed.

(** The four totals that the aggregation wrote on the segment are copied
    from it when they are there. *)
Lemma record_tail_totals seg_ (L : obj) k :
  k ∈ ["CBAMT"; "Comm"; "TDS"; "SF"] →
  not_null (field seg_ k) = true →
  record_tail org des seg_ L !! k = Some (field seg_ k).
Proof.
  intros Hk Hn. unfold record_tail.
  apply list_elem_of_In in Hk. simpl in Hk.
  destruct Hk as [<-|[<-|[<-|[<-|[]]]]];
    lookup_back; rewrite Hn; apply lookup_set_if_true.
Qed.

Lemma Assemble_inv fareId hb (L : obj) s r s' :
  Assemble org des isRT_ fareId hb L s = (Ok r, s') →
  s' = s ∧
  ∃ code o,
    resolve_coupon_code s fareId = Ok code ∧
    r = Serialized o ∧
    o !! "IsFlightOutOfPolicy" = Some (field s "IsFlightOutOfPolicy") ∧
    o !! "CouponCode" = Some code ∧
    (loose_eq code (VStr "") = true → o !! "DiscountAmount" = Some (VNum 0)) ∧
    (∀ k, k ∈ ["CBAMT"; "Comm"; "TDS"; "SF"] →
       not_null (field s k) = true → o !! k = Some (field s k)) ∧
    (∀ k,
       k ∉ ["lstInBound"; "lstOutBound"; "IsHndBagg"; "IsHndBaggTp"; "Note";
            "CouponNote"; "IsRoundTrip"; "EngineId"; "Saving"; "Ssn"; "Remark";
            "CouponCode"; "DiscountAmount"; "VisaInfo"; "SeatAvailablity";
            "SearchOrigin"; "SearchDestination"; "listBrandfare"; "IsBranded";
            "IsBrandeFareAvailabel"; "FareTypeInd"; "FareRule"; "CBAMT"; "Comm";
            "TDS"; "SF"; "IsFlightOutOfPolicy"] →
       o !! k = L !! k).
Proof.
  unfold Assemble. intros H.
  apply M_bind_Ok in H as (? & ? & [= <- <-] & H).
  apply M_bind_Ok in H as (code & ? & [E ->]%lift_Ok & H).
  cbv beta zeta in H. rewrite andb_false_r, get_prop_obj in H.
  injection H as <- <-.
  split; [done|]. eexists code, _. split; [done|]. split; [done|].
  split; [apply lookup_insert_eq|].
  rewrite field_insert.
  split.
  { rewrite lookup_insert_ne by done.
    rewrite record_tail_lookup_ne by compute_done.
    rewrite lookup_set_if_ne by done. apply lookup_insert_eq. }
  split.
  { intros ->. rewrite lookup_insert_ne by done.
    rewrite record_tail_lookup_ne by compute_done.
    apply lookup_set_if_true. }
  split.
  - intros k Hk Hn. rewrite lookup_insert_ne.
    + by apply record_tail_totals.
    + intros <-. revert Hk. compute_done.
  - intros k Hk.
    assert (k ≠ "IsFlightOutOfPolicy" ∧ k ≠ "DiscountAmount" ∧ k ≠ "CouponCode")
      as (? & ? & ?)
      by (repeat split; intros ->; apply Hk; compute_done).
    rewrite lookup_insert_ne by done.
    rewrite record_tail_lookup_ne
      by (intros Hin; apply Hk; revert Hin; rewrite !elem_of_cons; tauto).
    rewrite lookup_set_if_ne, lookup_insert_ne by done.
    apply record_notes_lookup_ne.
    intros Hin; apply Hk; revert Hin; rewrite !elem_of_cons; tauto.
Qed.

End Stages.

Section BoundsLoop.

Variable LocalTZA : Z → Z.
Variable Res_L : value.

Lemma agree_off_refl W s : agree_off W s s.
Proof. by intros k _. Qed.

Lemma agree_off_trans W s1 s2 s3 :
  agree_off W s1 s2 → agree_off W s2 s3 → agree_off W s1 s3.
Proof. intros H12 H23 k Hk. rewrite (H23 k Hk). by apply H12. Qed.

Lemma agree_off_field W s s' k : agree_off W s s' → k ∉ W → field s' k = field s k.
Proof. intros H Hk. unfold field. by rewrite (H k Hk). Qed.

Lemma ConvertBound_modifies fareId bc st :
  modifies ["l_HB"] (ConvertBound LocalTZA Res_L fareId bc st).
Proof.
  destruct st as [[bonds id] hb]. unfold ConvertBound. repeat modifies_step.
Qed.

Lemma for_M_ConvertBound fareId n :
  ∀ i B0 id0 hb0 s B id hb s',
    for_M (ConvertBound LocalTZA Res_L fareId) i n (B0, id0, hb0) s
      = (Ok (B, id, hb), s') →
    agree_off ["l_HB"] s s' ∧
    ∃ B', B = (B0 ++ B')%list ∧ length B' = n ∧
      ∀ j Bj, B' !! j = Some Bj → bond_of LocalTZA Res_L fareId s (i + j) Bj.
Proof.
  induction n as [|n IH]; intros i B0 id0 hb0 s B id hb s'; simpl.
  - intros [= <- <- <- <-]. split; [apply agree_off_refl|].
    exists []. split; [by rewrite app_nil_r|]. split; [done|].
    intros j Bj Hj. by rewrite lookup_nil in Hj.
  - intros H. apply M_bind_Ok in H as ([[B1 id1] hb1] & s1 & E & H).
    pose proof (ConvertBound_modifies fareId i (B0, id0, hb0) s _ s1 E) as Hs1.
    apply ConvertBound_inv in E as (Bnd_L & Legs & idl & -> & HL & Hc).
    apply IH in H as (Hs' & B' & -> & Hlen & Hall).
    split; [by eapply agree_off_trans|].
    exists (VObj Bnd_L :: B'). split; [by rewrite <- app_assoc|].
    split; [simpl; lia|].
    intros [|j] Bj Hj; simpl in Hj.
    + injection Hj as <-. rewrite Nat.add_0_r.
      exists s, Bnd_L, Legs, id0, idl. split; [apply agree_off_refl|]. done.
    + destruct (Hall j Bj Hj) as (s_bc & Bl & Lg & ida & idb & Ha & -> & HLg & Hcv).
      replace (i + S j)%nat with (S i + j)%nat by lia.
      exists s_bc, Bl, Lg, ida, idb.
      split; [by eapply agree_off_trans|]. split; [done|]. split; [done|].
      cbv zeta in *.
      by rewrite <- (agree_off_field _ _ _ "b" Hs1) by compute_done.
Qed.

Lemma ConvertBounds_inv fareId s B id hb s' :
  ConvertBounds LocalTZA Res_L fareId s = (Ok (B, id, hb), s') →
  agree_off ["l_HB"] s s' ∧
  if has_items (field s "b") then
    length B = loop_count (prop (field s "b") "length") ∧
    ∀ bc Bv, B !! bc = Some Bv → bond_of LocalTZA Res_L fareId s bc Bv
  else B = [].
Proof.
  unfold ConvertBounds. intros H.
  apply M_bind_Ok in H as (? & ? & [= <- <-] & H).
  destruct (has_items (field s "b")).
  - apply M_bind_Ok in H as (len & ? & [E ->]%lift_Ok & H).
    apply get_prop_prop in E as <-.
    apply for_M_ConvertBound in H as (Hs & B' & -> & Hlen & Hall).
    split; [done|]. split; [done|]. intros bc Bv Hbc. by apply (Hall bc).
  - injection H as <- _ _ <-. split; [apply agree_off_refl | done].
Qed.

End BoundsLoop.

(** ** The whole run *)

Section Run.

Variable LocalTZA : Z → Z.
Variables Res_L org des frArmy frArmyRT : value.
Variables NoAdt NoChd NoInf FFare_L isRT_ fareId : value.

Abbreviation run :=
  (ConvertSegFinal LocalTZA Res_L org des frArmy frArmyRT NoAdt NoChd NoInf
                   FFare_L isRT_ fareId).

Lemma selected_fare_fields_not_null seg_ Fr (L L' : obj) :
  selected_fare_fields frArmy frArmyRT seg_ fareId Fr L = Ok L' →
  not_null Fr = true.
Proof.
  unfold selected_fare_fields. intros (FId & E & _)%exc_bind_Ok.
  by eapply get_prop_not_null.
Qed.

(** What the row branch leaves in the record. *)
Lemma row_prices_inv seg_ Fr bonds (L L' : obj) t :
  row_prices NoAdt NoChd NoInf FFare_L seg_ Fr bonds L = Ok (L', t) →
  PriceRows NoAdt NoChd NoInf (prop Fr "L_PF") = Ok t ∧
  L' !! "Fare" = Some FFare_L ∧
  L' !! "AdultPrice" = Some (adult t) ∧
  L' !! "ChildPrice" = Some (child t) ∧
  L' !! "InfantPrice" = Some (infant t) ∧
  L' !! "AdultPriceT" = Some (adultT t) ∧
  L' !! "ChildPriceT" = Some (childT t) ∧
  L' !! "InfantPriceT" = Some (infantT t) ∧
  L' !! "TotalTax" = Some (TotalTT t) ∧
  L' !! "TotalFare" = Some (js_add (TotalTF t) (TotalMRKP t)) ∧
  L' !! "ESF" = Some (totalExSeatFare t) ∧
  L' !! "MarkUP" = Some (TotalMRKP t) ∧
  L' !! "ttlDiscount" = Some (js_add (TotalTF t) (TotalMRKP t)).
Proof.
  unfold row_prices. intros H. inv_exc H. name_reads.
  split; [done|].
  match goal with
  | H : segment_terms _ _ _ = Ok _ |- _ =>
      rewrite !(segment_terms_lookup_ne _ _ _ _ _ H) by compute_done
  end.
  repeat split; lookup_back; apply lookup_insert_eq.
Qed.

Lemma lookup_set_if c k v (o : obj) :
  set_if c k v o !! k = if c then Some v else o !! k.
Proof. destruct c; [apply lookup_insert_eq | done]. Qed.

(** What the flat branch leaves in the record. *)
Lemma flat_prices_inv seg_ bonds (L L' : obj) :
  flat_prices seg_ bonds L = Ok L' →
  L' !! "AdultPrice" = Some (field seg_ "AP") ∧
  L' !! "ChildPrice" = Some (field seg_ "CP") ∧
  L' !! "InfantPrice" = Some (field seg_ "IP") ∧
  L' !! "TotalTax" = Some (field seg_ "TT") ∧
  L' !! "TotalFare" = Some (field seg_ "TF") ∧
  L' !! "ttlDiscount" = Some (field seg_ "TTDIS") ∧
  (∀ a b, (a, b) ∈ [("APT", "AdultPriceT"); ("CPT", "ChildPriceT");
                    ("IPT", "InfantPriceT")] →
     L' !! b = if not_null (field seg_ a) then Some (field seg_ a) else L !! b).
Proof.
  unfold flat_prices. intros H.
  rewrite !(segment_terms_lookup_ne _ _ _ _ _ H) by compute_done.
  repeat split;
    try (lookup_back; first [ apply lookup_insert_eq
                            | eapply copy_fields_lookup; compute_done ]).
  intros a b Hab.
  rewrite (segment_terms_lookup_ne _ _ _ _ b H)
    by (revert Hab; rewrite !elem_of_cons, elem_of_nil;
        intros [[= _ ->]|[[= _ ->]|[[= _ ->]|[]]]]; compute_done).
  apply list_elem_of_In in Hab. simpl in Hab.
  destruct Hab as [[= <- <-]|[[= <- <-]|[[= <- <-]|[]]]]; lookup_back;
    rewrite lookup_set_if; destruct (not_null _); try done; by lookup_back.
Qed.

(** The run, stage by stage: the segment after each stage and what the
    returned record holds. *)
Lemma run_inv s r s' :
  run s = (Ok r, s') →
  ∃ bonds id hb s1 L1 s2 L2 code o,
    ConvertBounds LocalTZA Res_L fareId s = (Ok (bonds, id, hb), s1) ∧
    SelectFare frArmy frArmyRT fareId
      (<["bonds" := VArr bonds]> (new_record org des s)) s1 = (Ok L1, s2) ∧
    AggregatePrices NoAdt NoChd NoInf FFare_L bonds L1 s2 = (Ok L2, s') ∧
    resolve_coupon_code s' fareId = Ok code ∧
    r = Serialized o ∧
    o !! "IsFlightOutOfPolicy" = Some (field s' "IsFlightOutOfPolicy") ∧
    o !! "CouponCode" = Some code ∧
    (loose_eq code (VStr "") = true → o !! "DiscountAmount" = Some (VNum 0)) ∧
    (∀ k, k ∈ ["CBAMT"; "Comm"; "TDS"; "SF"] →
       not_null (field s' k) = true → o !! k = Some (field s' k)) ∧
    (∀ k,
       k ∉ ["lstInBound"; "lstOutBound"; "IsHndBagg"; "IsHndBaggTp"; "Note";
            "CouponNote"; "IsRoundTrip"; "EngineId"; "Saving"; "Ssn"; "Remark";
            "CouponCode"; "DiscountAmount"; "VisaInfo"; "SeatAvailablity";
            "SearchOrigin"; "SearchDestination"; "listBrandfare"; "IsBranded";
            "IsBrandeFareAvailabel"; "FareTypeInd"; "FareRule"; "CBAMT"; "Comm";
            "TDS"; "SF"; "IsFlightOutOfPolicy"] →
       o !! k = L2 !! k).
Proof.
  intros H.
  apply ConvertSegFinal_inv in H
    as (bonds & id & hb & s1 & L1 & s2 & L2 & s3 & E1 & E2 & E3 & E4).
  apply Assemble_inv in E4 as (-> & code & o & ? & ? & ? & ? & ? & ? & ?).
  by exists bonds, id, hb, s1, L1, s2, L2, code, o.
Qed.

(** The selected option is not [null] once the run got past the fare
    selection. *)
Lemma SelectFare_fare s1 L L1 s2 :
  SelectFare frArmy frArmyRT fareId L s1 = (Ok L1, s2) →
  has_items (field s1 "lstFr") = true →
  field s2 "Fr" = at_ (field s1 "lstFr") fareId ∧
  not_null (field s2 "Fr") = true ∧
  L1 !! "Fare" = Some VNull ∧ L1 !! "bonds" = L !! "bonds".
Proof.
  intros H Hl. apply SelectFare_inv in H. rewrite Hl in H.
  destruct H as [-> H]. rewrite field_insert.
  split; [done|]. split; [by eapply selected_fare_fields_not_null|].
  rewrite !(selected_fare_fields_lookup_ne _ _ _ _ _ _ _ _ H) by compute_done.
  by rewrite lookup_insert_eq, lookup_insert_ne.
Qed.

(** C10. With a non-empty fare-option list the returned record's [Fare] is
    the caller's [FFare_L], whatever the selected option holds: the object
    assembled from the option is replaced before the return.  With no
    selected fare (an empty or absent list and no [Fr] on the segment)
    [Fare] is [null]. *)
Theorem C10_fare_is_the_callers s r s' :
  run s = (Ok r, s') →
  (has_items (field s "lstFr") = true →
   record_of r !! "Fare" = Some FFare_L) ∧
  (has_items (field s "lstFr") = false → not_null (field s "Fr") = false →
   record_of r !! "Fare" = Some VNull).
Proof.
  intros H.
  apply run_inv in H
    as (bonds & id & hb & s1 & L1 & s2 & L2 & code & o
        & E1 & E2 & E3 & _ & -> & _ & _ & _ & _ & Ho).
  apply ConvertBounds_inv in E1 as [Hs1 _].
  assert (field s1 "lstFr" = field s "lstFr") as Hl
    by (apply (agree_off_field _ _ _ _ Hs1); compute_done).
  assert (field s1 "Fr" = field s "Fr") as Hf
    by (apply (agree_off_field _ _ _ _ Hs1); compute_done).
  simpl. rewrite Ho by compute_done.
  apply AggregatePrices_inv in E3.
  split.
  - intros Hi. rewrite <- Hl in Hi.
    apply (SelectFare_fare _ _ _ _ E2) in Hi as (_ & Hn & _).
    rewrite Hn in E3. destruct E3 as (t & E3 & _).
    by apply row_prices_inv in E3 as (_ & ? & _).
  - intros Hi Hn. rewrite <- Hl in Hi. rewrite <- Hf in Hn.
    apply SelectFare_inv in E2. rewrite Hi in E2. destruct E2 as [-> ->].
    rewrite Hn in E3. destruct E3 as [E3 _].
    rewrite (flat_prices_lookup_ne _ _ _ _ _ E3) by compute_done.
    apply lookup_insert_eq.
Qed.

Lemma modifies_mono {A} W W' (m : M A) :
  (∀ k, k ∈ W → k ∈ W') → modifies W m → modifies W' m.
Proof. intros Hsub Hm s0 r0 s0' H k Hk. eapply Hm; [done|]. auto. Qed.

Lemma run_modifies : modifies written run.
Proof.
  assert (∀ W, (∀ k, k ∈ W → k ∈ written) ↔ Forall (.∈ written) W) as Hsub
    by (intros W; by rewrite Forall_forall).
  unfold ConvertSegFinal.
  apply modifies_bind; [apply modifies_the_seg | intros seg_].
  apply modifies_bind;
    [eapply modifies_mono, ConvertBounds_modifies; apply Hsub; compute_done
    | intros [[bonds id] hb]].
  apply modifies_bind;
    [eapply modifies_mono, SelectFare_modifies; apply Hsub; compute_done
    | intros L1].
  apply modifies_bind;
    [eapply modifies_mono, AggregatePrices_modifies; apply Hsub; compute_done
    | intros L2].
  eapply modifies_mono, Assemble_modifies. apply Hsub; compute_done.
Qed.

Lemma run_field s r s' k : run s = (r, s') → k ∉ written → field s' k = field s k.
Proof. intros H Hk. unfold field. by rewrite (run_modifies _ _ _ H k Hk). Qed.

Lemma has_items_arr (l : list value) x i : l !! i = Some x → has_items (VArr l) = true.
Proof.
  intros H. apply lookup_lt_Some in H.
  unfold has_items. simpl. unfold js_gt, js_lt. simpl.
  apply Z.ltb_lt. lia.
Qed.

Lemma at_arr (l : list value) (i : nat) x :
  l !! i = Some x → at_ (VArr l) (VNum (Z.of_nat i)) = x.
Proof. intros H. unfold at_. rewrite get_elem_arr, H. done. Qed.

Lemma resolve_coupon_code_inv seg_ code :
  resolve_coupon_code seg_ fareId = Ok code →
  code =
    if has_items (field seg_ "lstFr") then
      let Fr := at_ (field seg_ "lstFr") fareId in
      if js_lt (prop Fr "TTDIS") (prop Fr "TF") then prop Fr "CC" else VStr ""
    else field seg_ "CC".
Proof.
  unfold resolve_coupon_code. intros H. inv_exc H; name_reads; cbv zeta.
  all: repeat match goal with H : _ = true |- _ => rewrite H
                         | H : _ = false |- _ => rewrite H end.
  all: done.
Qed.

(** C9. With a non-empty fare-option list and the index in range, the
    record's coupon code is the selected option's when the option's
    discounted total [TTDIS] is strictly below its total fare [TF], and the
    empty string otherwise.  And in every run, a record whose coupon code is
    the empty string has discount amount 0. *)
Theorem C9_coupon_code_and_discount s r s' :
  run s = (Ok r, s') →
  (∀ fares (i : nat) Fr d t,
     field s "lstFr" = VArr fares → fareId = VNum (Z.of_nat i) →
     fares !! i = Some Fr →
     prop Fr "TTDIS" = VNum d → prop Fr "TF" = VNum t →
     record_of r !! "CouponCode"
       = Some (if d <? t then prop Fr "CC" else VStr "")) ∧
  (record_of r !! "CouponCode" = Some (VStr "") →
   record_of r !! "DiscountAmount" = Some (VNum 0)).
Proof.
  intros H.
  pose proof (run_field _ _ _ "lstFr" H ltac:(compute_done)) as Hl.
  apply run_inv in H
    as (bonds & id & hb & s1 & L1 & s2 & L2 & code & o
        & _ & _ & _ & Ec & -> & _ & Hcode & Hzero & _ & _).
  simpl. split.
  - intros fares i Fr d t Hfares Hid Hi Hd Ht.
    apply resolve_coupon_code_inv in Ec. rewrite Hl, Hfares in Ec.
    rewrite (has_items_arr _ _ _ Hi), Hid, (at_arr _ _ _ Hi) in Ec.
    cbv zeta in Ec. rewrite Hd, Ht in Ec. by rewrite Hcode, Ec.
  - rewrite Hcode. intros [= ->]. by apply Hzero.
Qed.

Lemma loose_eq_true_not_null v : loose_eq v (VBool true) = true → not_null v = true.
Proof. by destruct v. Qed.

Lemma coupon_state_inv seg_ Fr (L L' : obj) :
  coupon_state seg_ Fr L = Ok L' →
  not_null (prop Fr "CouponCodeList") = true →
  if loose_eq (field seg_ "I_RT") (VBool true) then
    L' !! "CCL" = Some (VStr "") ∧ L' !! "IACL" = Some (VBool false) ∧
    L' !! "CpnTxtS" = Some (VStr "") ∧ L' !! "CpnLstDis" = Some (VNum 0)
  else
    L' !! "CCL" = Some (prop Fr "CouponCodeList") ∧
    L' !! "IACL" = Some (prop Fr "isAddCL") ∧
    L' !! "CpnTxtS" = Some (prop Fr "CpnTxtS") ∧
    L' !! "CpnLstDis" = Some (prop Fr "DA").
Proof.
  unfold coupon_state, clear_coupons. intros H Hn.
  inv_exc H; name_reads; try congruence.
  - apply andb_true_iff in C0 as [_ ->].
    repeat split; lookup_back; apply lookup_insert_eq.
  - assert (loose_eq (field seg_ "I_RT") (VBool true) = false) as ->.
    { destruct (loose_eq (field seg_ "I_RT") (VBool true)) eqn:El; [|done].
      by rewrite (loose_eq_true_not_null _ El) in C0. }
    repeat split; eapply copy_props_lookup; first [eassumption | compute_done].
Qed.

Lemma selected_fare_fields_coupons seg_ Fr (L L' : obj) :
  selected_fare_fields frArmy frArmyRT seg_ fareId Fr L = Ok L' →
  ∃ L0 L1, coupon_state seg_ Fr L0 = Ok L1 ∧
    ∀ k, k ∈ ["CCL"; "IACL"; "CpnTxtS"; "CpnLstDis"] → L' !! k = L1 !! k.
Proof.
  unfold selected_fare_fields. intros H.
  do 9 (apply exc_bind_Ok in H as (? & _ & H)).
  apply exc_bind_Ok in H as (L1 & Ec & H).
  apply exc_bind_Ok in H as (BDKEY & _ & [= <-]).
  eexists _, L1. split; [exact Ec|].
  intros k Hk. apply lookup_set_if_ne. intros <-. revert Hk. compute_done.
Qed.

(** C8. When the selected option carries a coupon-code list: a segment
    flagged round-trip-combined ([I_RT == true]) gets all four coupon fields
    cleared, whatever the list holds; a segment that is not flagged gets
    the option's list, flag, text and discount as they are. *)
Theorem C8_round_trip_clears_coupons s r s' fares (i : nat) Fr :
  run s = (Ok r, s') →
  field s "lstFr" = VArr fares → fareId = VNum (Z.of_nat i) →
  fares !! i = Some Fr →
  not_null (prop Fr "CouponCodeList") = true →
  let o := record_of r in
  if loose_eq (field s "I_RT") (VBool true) then
    o !! "CCL" = Some (VStr "") ∧ o !! "IACL" = Some (VBool false) ∧
    o !! "CpnTxtS" = Some (VStr "") ∧ o !! "CpnLstDis" = Some (VNum 0)
  else
    o !! "CCL" = Some (prop Fr "CouponCodeList") ∧
    o !! "IACL" = Some (prop Fr "isAddCL") ∧
    o !! "CpnTxtS" = Some (prop Fr "CpnTxtS") ∧
    o !! "CpnLstDis" = Some (prop Fr "DA").
Proof.
  intros H Hfares Hid Hi Hn.
  apply run_inv in H
    as (bonds & id & hb & s1 & L1 & s2 & L2 & code & o
        & E1 & E2 & E3 & _ & -> & _ & _ & _ & _ & Ho).
  apply ConvertBounds_inv in E1 as [Hs1 _].
  assert (field s1 "lstFr" = VArr fares) as Hl
    by (rewrite <- Hfares; apply (agree_off_field _ _ _ _ Hs1); compute_done).
  assert (field s1 "I_RT" = field s "I_RT") as Hrt
    by (apply (agree_off_field _ _ _ _ Hs1); compute_done).
  pose proof (has_items_arr _ _ _ Hi) as Hitems.
  pose proof E2 as E2'. apply SelectFare_fare in E2' as (HFr & HnFr & _);
    [|by rewrite Hl].
  apply SelectFare_inv in E2. rewrite Hl, Hitems in E2.
  destruct E2 as [Hs2 E2].
  assert (at_ (VArr fares) fareId = Fr) as Hat
    by (rewrite Hid; by apply at_arr).
  rewrite Hat in E2.
  apply selected_fare_fields_coupons in E2 as (L0 & Lc & Ec & Hk).
  apply coupon_state_inv in Ec; [|done].
  assert (field s2 "I_RT" = field s "I_RT") as Hrt2.
  { rewrite Hs2. unfold field. by rewrite lookup_insert_ne by done. }
  rewrite Hrt2 in Ec.
  apply AggregatePrices_inv in E3. rewrite HnFr in E3.
  destruct E3 as (t & E3 & _).
  simpl. rewrite !Ho by compute_done.
  pose proof (λ k, row_prices_lookup_ne _ _ _ _ _ _ _ _ _ _ k E3) as Hrow.
  rewrite !Hrow by compute_done.
  rewrite !Hk by compute_done. exact Ec.
Qed.

(** C5. A run that returns hands back the serialized record, and its
    [IsFlightOutOfPolicy] is the segment's own (so [undefined] when the
    segment has none).  The unserialized record is what the script returns
    exactly when reading [seg_.IsFlightOutOfPolicy] throws, and on a segment
    object that read does not throw. *)
Theorem C5_record_is_serialized s r s' :
  run s = (Ok r, s') →
  (∃ o, r = Serialized o ∧
        o !! "IsFlightOutOfPolicy" = Some (field s "IsFlightOutOfPolicy")) ∧
  ((∃ o, r = Partial o) ↔
   (∃ e, get_prop (VObj s') "IsFlightOutOfPolicy" = Throw e)).
Proof.
  intros H.
  pose proof (run_field _ _ _ "IsFlightOutOfPolicy" H ltac:(compute_done)) as Hf.
  apply run_inv in H
    as (bonds & id & hb & s1 & L1 & s2 & L2 & code & o
        & _ & _ & _ & _ & -> & Hp & _).
  split.
  - exists o. by rewrite <- Hf.
  - split; [by intros [? [=]] | by intros [? [=]]].
Qed.

Lemma new_record_lookup_None s k :
  k ∉ ["id"; "BKID"; "segDTL"; "segKey"; "searchId"; "ItineraryKey";
       "SearchOrigin"; "SearchDestination"; "DiscountAmount"; "FareTypeInd";
       "CpnTxtS"; "CCL"; "IACL"; "bonds"; "CT_UPG"; "PT"; "selectedFare";
       "FareTypeUI"] →
  new_record org des s !! k = None.
Proof. intros Hk. unfold new_record. split_notin. by lookup_back. Qed.

(** C4. For a segment whose fare-option list is empty or absent and that
    carries no selected fare [Fr] of its own, the prices of the returned
    record are the segment's flat fields, one for one; the three per-type tax
    fields are copied when the segment has them and are absent otherwise; and
    nothing of the row aggregation is there: no [ESF], no [MarkUP], a [null]
    [Fare], and no total written back on the segment. *)
Theorem C4_flat_fields_without_fare s r s' :
  run s = (Ok r, s') →
  has_items (field s "lstFr") = false → not_null (field s "Fr") = false →
  let o := record_of r in
  o !! "AdultPrice" = Some (field s "AP") ∧
  o !! "ChildPrice" = Some (field s "CP") ∧
  o !! "InfantPrice" = Some (field s "IP") ∧
  o !! "TotalTax" = Some (field s "TT") ∧
  o !! "TotalFare" = Some (field s "TF") ∧
  o !! "ttlDiscount" = Some (field s "TTDIS") ∧
  (∀ a b, (a, b) ∈ [("APT", "AdultPriceT"); ("CPT", "ChildPriceT");
                    ("IPT", "InfantPriceT")] →
     o !! b = if not_null (field s a) then Some (field s a) else None) ∧
  o !! "ESF" = None ∧ o !! "MarkUP" = None ∧ o !! "Fare" = Some VNull ∧
  (∀ k, k ∈ ["Fr"; "CBAMT"; "Comm"; "TDS"; "SF"] → s' !! k = s !! k).
Proof.
  intros H Hi Hn.
  apply run_inv in H
    as (bonds & id & hb & s1 & L1 & s2 & L2 & code & o
        & E1 & E2 & E3 & _ & -> & _ & _ & _ & _ & Ho).
  apply ConvertBounds_inv in E1 as [Hs1 _].
  assert (∀ k, k ≠ "l_HB" → field s1 k = field s k) as Hf.
  { intros k Hk. apply (agree_off_field _ _ _ _ Hs1).
    by rewrite elem_of_cons, elem_of_nil; intros [->|[]]. }
  apply SelectFare_inv in E2. rewrite (Hf "lstFr"), Hi in E2 by done.
  destruct E2 as [-> ->].
  apply AggregatePrices_inv in E3. rewrite (Hf "Fr"), Hn in E3 by done.
  destruct E3 as [E3 ->].
  pose proof (flat_prices_inv _ _ _ _ E3) as (? & ? & ? & ? & ? & ? & HT).
  repeat match goal with
         | H : _ !! _ = Some (field s1 _) |- _ => rewrite Hf in H by done
         end.
  simpl. rewrite !Ho by compute_done.
  do 6 (split; [done|]).
  split.
  { intros a b Hab.
    assert (b ∈ ["AdultPriceT"; "ChildPriceT"; "InfantPriceT"]) as Hb
      by (revert Hab; rewrite !elem_of_cons, !elem_of_nil;
          intros [[= _ ->]|[[= _ ->]|[[= _ ->]|[]]]]; auto).
    assert (a ≠ "l_HB")
      by (revert Hab; rewrite !elem_of_cons, !elem_of_nil;
          intros [[= -> _]|[[= -> _]|[[= -> _]|[]]]]; done).
    rewrite Ho
      by (revert Hb; rewrite !elem_of_cons, !elem_of_nil;
          intros [->|[->|[->|[]]]]; compute_done).
    rewrite (HT a b Hab), (Hf a) by done.
    destruct (not_null (field s a)); [done|].
    rewrite !lookup_insert_ne
      by (revert Hb; rewrite !elem_of_cons, !elem_of_nil;
          intros [->|[->|[->|[]]]]; done).
    apply new_record_lookup_None.
    revert Hb; rewrite !elem_of_cons, !elem_of_nil;
      intros [->|[->|[->|[]]]]; compute_done. }
  rewrite !(flat_prices_lookup_ne _ _ _ _ _ E3) by compute_done.
  rewrite lookup_insert_eq, !lookup_insert_ne by done.
  rewrite !new_record_lookup_None by compute_done.
  do 3 (split; [done|]).
  intros k Hk. apply Hs1. revert Hk. rewrite !elem_of_cons, !elem_of_nil.
  intros [->|[->|[->|[->|[->|[]]]]]]; compute_done.
Qed.

End Run.

(** ** The price aggregation *)











Lemma sum_over_foldl g rows x :
  foldl (λ acc row, acc + g row) x rows = x + sum_over g rows.
Proof.
  revert x. induction rows as [|row rows IH]; intros x; simpl; [lia|].
  rewrite IH. lia.
Qed.

(** ** Sums that the doubles compute exactly *)








Lemma loop_count_nat n : loop_count (VNum (Z.of_nat n)) = n.
Proof. unfold loop_count. simpl. apply Nat2Z.id. Qed.

Section Aggregation.

Variables NoAdt NoChd NoInf : value.




End Aggregation.

Section TypedRows.

Variables a c i : Z.

Lemma add_to_num x v n :
  add_to (VNum x) (VNum v) (VNum n) = VNum (double (x + double (v * n))).
Proof. done. Qed.






End TypedRows.

Section Run2.

Variable LocalTZA : Z → Z.
Variables Res_L org des frArmy frArmyRT : value.
Variables NoAdt NoChd NoInf FFare_L isRT_ fareId : value.

Abbreviation run :=
  (ConvertSegFinal LocalTZA Res_L org des frArmy frArmyRT NoAdt NoChd NoInf
                   FFare_L isRT_ fareId).

(** A run past the aggregation, with a fare-option list that is not empty:
    the running totals of the selected option's rows, what the record shows
    of them and what is written back on the segment. *)
Lemma run_row_totals s r s' fares (i : nat) Fr :
  run s = (Ok r, s') →
  field s "lstFr" = VArr fares → fareId = VNum (Z.of_nat i) →
  fares !! i = Some Fr →
  ∃ t,
    PriceRows NoAdt NoChd NoInf (prop Fr "L_PF") = Ok t ∧
    record_of r !! "AdultPrice" = Some (adult t) ∧
    record_of r !! "ChildPrice" = Some (child t) ∧
    record_of r !! "InfantPrice" = Some (infant t) ∧
    s' !! "Fr" = Some Fr ∧
    s' !! "CBAMT" = Some (CashBack t) ∧ s' !! "Comm" = Some (Commission t) ∧
    s' !! "TDS" = Some (TDS t) ∧ s' !! "SF" = Some (ServiceFee t) ∧
    ∀ k, k ∈ ["CBAMT"; "Comm"; "TDS"; "SF"] →
      not_null (field s' k) = true → record_of r !! k = Some (field s' k).
Proof.
  intros H Hfares Hid Hi.
  apply run_inv in H
    as (bonds & id & hb & s1 & L1 & s2 & L2 & code & o
        & E1 & E2 & E3 & _ & -> & _ & _ & _ & Htot & Ho).
  apply ConvertBounds_inv in E1 as [Hs1 _].
  assert (field s1 "lstFr" = VArr fares) as Hl
    by (rewrite <- Hfares; apply (agree_off_field _ _ _ _ Hs1); compute_done).
  assert (at_ (VArr fares) fareId = Fr) as Hat
    by (rewrite Hid; by apply at_arr).
  apply SelectFare_fare in E2 as (HFr & HnFr & _);
    [|rewrite Hl; by eapply has_items_arr].
  rewrite Hl, Hat in HFr.
  apply AggregatePrices_inv in E3. rewrite HnFr in E3.
  destruct E3 as (t & E3 & ->). rewrite HFr in E3.
  apply row_prices_inv in E3 as (Ep & _ & Ha & Hc & Hin & _).
  exists t. simpl. rewrite !Ho by compute_done.
  do 4 (split; [done|]).
  split.
  { rewrite !lookup_insert_ne by done. unfold field in HFr.
    destruct (s2 !! "Fr") as [v|] eqn:E; simpl in HFr; [by subst|].
    subst Fr. by rewrite not_null_spec in HnFr; unfold field in HnFr;
      rewrite E in HnFr. }
  split; [by rewrite !lookup_insert_ne, lookup_insert_eq by done|].
  split; [by rewrite !lookup_insert_ne, lookup_insert_eq by done|].
  split; [by rewrite !lookup_insert_ne, lookup_insert_eq by done|].
  split; [by rewrite lookup_insert_eq|]. done.
Qed.


(** C7. The script writes on its argument: whatever the outcome, the
    segment after the call differs from the segment before it on [l_HB],
    [Fr], [CBAMT], [Comm], [TDS] and [SF] at most; and a run that returns
    with a fare-option list that is not empty has stored the selected option
    in [Fr] and the four totals in the other four. *)
Theorem C7_segment_is_written_to s out s' :
  run s = (out, s') →
  (∀ k, k ∉ written → s' !! k = s !! k) ∧
  (∀ r fares (i : nat) Fr,
     out = Ok r → field s "lstFr" = VArr fares →
     fareId = VNum (Z.of_nat i) → fares !! i = Some Fr →
     s' !! "Fr" = Some Fr ∧
     ∃ t, PriceRows NoAdt NoChd NoInf (prop Fr "L_PF") = Ok t ∧
          s' !! "CBAMT" = Some (CashBack t) ∧
          s' !! "Comm" = Some (Commission t) ∧
          s' !! "TDS" = Some (TDS t) ∧ s' !! "SF" = Some (ServiceFee t)).
Proof.
  intros H. split.
  - intros k Hk. by eapply run_modifies.
  - intros r fares i Fr -> Hfares Hid Hi.
    destruct (run_row_totals _ _ _ _ _ _ H Hfares Hid Hi)
      as (t & Ep & _ & _ & _ & HFr & Hcb & Hcm & Htd & Hsf & _).
    split; [done|]. by exists t.
Qed.

End Run2.

Lemma prop_obj (m : obj) k v : m !! k = Some v → prop (VObj m) k = v.
Proof. intros H. unfold prop. simpl. unfold field. by rewrite H. Qed.

Section RunLegs.

Variable LocalTZA : Z → Z.
Variables Res_L org des frArmy frArmyRT : value.
Variables NoAdt NoChd NoInf FFare_L isRT_ fareId : value.

Abbreviation run :=
  (ConvertSegFinal LocalTZA Res_L org des frArmy frArmyRT NoAdt NoChd NoInf
                   FFare_L isRT_ fareId).

Lemma run_bonds s r s' :
  run s = (Ok r, s') →
  ∃ bonds id hb s1,
    ConvertBounds LocalTZA Res_L fareId s = (Ok (bonds, id, hb), s1) ∧
    record_of r !! "bonds" = Some (VArr bonds).
Proof.
  intros H.
  apply run_inv in H
    as (bonds & id & hb & s1 & L1 & s2 & L2 & code & o
        & E1 & E2 & E3 & _ & -> & _ & _ & _ & _ & Ho).
  exists bonds, id, hb, s1. split; [done|].
  simpl. rewrite Ho by compute_done.
  assert (L1 !! "bonds" = Some (VArr bonds)) as HL1.
  { apply SelectFare_inv in E2. destruct (has_items (field s1 "lstFr")).
    - destruct E2 as [_ E2].
      rewrite (selected_fare_fields_lookup_ne _ _ _ _ _ _ _ _ E2)
        by compute_done.
      by rewrite lookup_insert_ne, lookup_insert_eq.
    - destruct E2 as [_ ->]. by rewrite lookup_insert_ne, lookup_insert_eq. }
  apply AggregatePrices_inv in E3. destruct (not_null (field s2 "Fr")).
  - destruct E3 as (t & E3 & _).
    by rewrite (row_prices_lookup_ne _ _ _ _ _ _ _ _ _ _ _ E3) by compute_done.
  - destruct E3 as [E3 _].
    by rewrite (flat_prices_lookup_ne _ _ _ _ _ E3) by compute_done.
Qed.

(** Every leg of the returned record is what one iteration of the loop
    over the legs made of the bound, in a state of the segment that is the
    initial one up to [l_HB]. *)
Lemma run_leg s r s' bs bc bnd keys lc :
  run s = (Ok r, s') →
  field s "b" = VArr bs → bs !! bc = Some bnd →
  prop bnd "FL" = VArr keys → (lc < length keys)%nat →
  ∃ s_bc fLeg_L id id',
    agree_off ["l_HB"] s s_bc ∧
    ConvertLeg LocalTZA Res_L s_bc bnd fareId lc id = Ok (fLeg_L, id') ∧
    out_leg r bc lc = VObj fLeg_L.
Proof.
  intros H Hb Hbc HFL Hlc.
  apply run_bonds in H as (bonds & id & hb & s1 & E1 & Hbonds).
  apply ConvertBounds_inv in E1 as [_ E1].
  rewrite Hb, (has_items_arr _ _ _ Hbc) in E1.
  destruct E1 as [Hlen Hall].
  change (prop (VArr bs) "length") with (VNum (Z.of_nat (length bs))) in Hlen.
  rewrite loop_count_nat in Hlen.
  destruct (lookup_lt_is_Some_2 bonds bc) as [Bv HBv];
    [rewrite Hlen; by eapply lookup_lt_Some|].
  destruct (Hall bc Bv HBv)
    as (s_bc & Bnd_L & Legs & id0 & idl & Hs & -> & HLegs & Hc).
  cbv zeta in Hc. rewrite Hb, (at_arr _ _ _ Hbc), HFL in Hc.
  change (prop (VArr keys) "length") with (VNum (Z.of_nat (length keys))) in Hc.
  rewrite loop_count_nat in Hc.
  apply ConvertLegs_legs in Hc as [_ Hc].
  destruct (Hc lc Hlc) as (idi & fLeg_L & idj & Hleg & HL).
  exists s_bc, fLeg_L, idi, idj. split; [done|]. split; [done|].
  unfold out_leg, field. rewrite Hbonds. simpl. rewrite HBv. simpl.
  unfold prop, field. simpl. rewrite HLegs. simpl. by rewrite HL.
Qed.

(** C1. The engine and date table decides nothing: for a leg that no
    per-leg hand-baggage list covers, the returned hand-baggage unit and
    weight are the leg's own [HBU] and [HBW], for every engine id (1, 0 and
    31 included) and every departure date. *)
Theorem C1_hand_baggage_is_the_legs_own s r s' bs bc bnd keys lc :
  run s = (Ok r, s') →
  field s "b" = VArr bs → bs !! bc = Some bnd →
  prop bnd "FL" = VArr keys → (lc < length keys)%nat →
  covers (prop bnd "lstHBagg") lc = false →
  prop (out_leg r bc lc) "HBU" = prop (raw_leg Res_L bnd lc) "HBU" ∧
  prop (out_leg r bc lc) "HBW" = prop (raw_leg Res_L bnd lc) "HBW".
Proof.
  intros H Hb Hbc HFL Hlc Hcov.
  destruct (run_leg _ _ _ _ _ _ _ _ H Hb Hbc HFL Hlc)
    as (s_bc & fLeg_L & id & id' & _ & Hleg & ->).
  apply ConvertLeg_hand_baggage in Hleg. rewrite Hcov in Hleg.
  destruct Hleg as [Hu Hw].
  by rewrite (prop_obj _ _ _ Hu), (prop_obj _ _ _ Hw).
Qed.

Lemma fare_keys_agree s s_bc bnd lc :
  agree_off ["l_HB"] s s_bc →
  fare_keys_cover s_bc bnd fareId lc = fare_keys_cover s bnd fareId lc ∧
  fare_baggage s_bc bnd fareId lc = fare_baggage s bnd fareId lc.
Proof.
  intros Hs. unfold fare_keys_cover, fare_baggage, fare_key.
  by rewrite (agree_off_field _ _ _ "lstFr" Hs) by compute_done.
Qed.

(** C2. For a leg that the selected fare's booking-key list covers, the
    returned checked-baggage unit and weight are the two parts of the
    selected fare's [unit|weight] string at the leg's position, whether or
    not the bound's plain list covers the leg.  The hand baggage has no
    per-fare source: it is the two parts of the bound's per-leg hand-baggage
    string when that list covers the leg, and the leg's own [HBU] and [HBW]
    otherwise; the engine and date table decides neither. *)
Theorem C2_baggage_of_the_selected_fare s r s' bs bc bnd keys lc :
  run s = (Ok r, s') →
  field s "b" = VArr bs → bs !! bc = Some bnd →
  prop bnd "FL" = VArr keys → (lc < length keys)%nat →
  has_fare_keys bnd fareId = true →
  fare_keys_cover s bnd fareId lc = true →
  let leg := out_leg r bc lc in
  (∃ p, js_split (fare_baggage s bnd fareId lc) "|" = Ok p ∧
        prop leg "BaggageUnit" = nth_value p 0 ∧
        prop leg "BaggageWeight" = nth_value p 1) ∧
  (if covers (prop bnd "lstHBagg") lc then
     ∃ p, js_split (at_ (prop bnd "lstHBagg") (VNum (Z.of_nat lc))) "|" = Ok p ∧
          prop leg "HBU" = nth_value p 0 ∧ prop leg "HBW" = nth_value p 1
   else
     prop leg "HBU" = prop (raw_leg Res_L bnd lc) "HBU" ∧
     prop leg "HBW" = prop (raw_leg Res_L bnd lc) "HBW").
Proof.
  intros H Hb Hbc HFL Hlc Hkeys Hcover.
  destruct (run_leg _ _ _ _ _ _ _ _ H Hb Hbc HFL Hlc)
    as (s_bc & fLeg_L & id & id' & Hs & Hleg & ->).
  destruct (fare_keys_agree _ _ bnd lc Hs) as [Hk1 Hk2].
  rewrite <- Hk1 in Hcover. rewrite <- Hk2.
  pose proof (ConvertLeg_baggage _ _ _ _ _ _ _ _ _ Hleg Hkeys Hcover)
    as (p & Hp & Hu & Hw).
  apply ConvertLeg_hand_baggage in Hleg.
  cbv zeta. split.
  - exists p. by rewrite (prop_obj _ _ _ Hu), (prop_obj _ _ _ Hw).
  - destruct (covers (prop bnd "lstHBagg") lc).
    + destruct Hleg as (q & Hq & Hqu & Hqw). exists q.
      by rewrite (prop_obj _ _ _ Hqu), (prop_obj _ _ _ Hqw).
    + destruct Hleg as [Hqu Hqw].
      by rewrite (prop_obj _ _ _ Hqu), (prop_obj _ _ _ Hqw).
Qed.

End RunLegs.

(** * Further properties *)

(** ** The lookup closures *)

Lemma get_prop_total v k : not_null v = true → get_prop v k = Ok (prop v k).
Proof.
  intros H. destruct (get_prop_Ok v k H) as [x E].
  by rewrite (get_prop_prop _ _ _ E).
Qed.

Lemma get_elem_total v i : not_null v = true → get_elem v i = Ok (at_ v i).
Proof.
  intros H. unfold at_.
  assert (∃ x, get_elem v i = Ok x) as [x ->]; [|done].
  unfold get_elem. destruct v; try done; try apply (get_prop_Ok _ _ H).
  destruct i; try apply (get_prop_Ok _ _ H). by eexists.
Qed.

(** X1. [GetFltDtl] never throws: it answers the dictionary's entry for the
    key, and [undefined] when the result object, its leg dictionary or the
    key is missing. *)
Theorem GetFltDtl_never_throws Res_L key_ :
  GetFltDtl Res_L key_ =
    Ok (if not_null Res_L && not_null (prop Res_L "dctFltDtl") && not_null key_
        then at_ (prop Res_L "dctFltDtl") key_
        else VUndef).
Proof.
  unfold GetFltDtl. destruct (not_null Res_L) eqn:HR; [|done].
  rewrite (get_prop_total _ _ HR). cbn [mbind exc_bind andb].
  destruct (not_null (prop Res_L "dctFltDtl")) eqn:Hn; [|done]. cbn [andb].
  destruct (not_null key_); [|done]. by apply get_elem_total.
Qed.

(** X2. [GetAirLineName] never throws: it answers the carrier table's entry
    for the code, and [undefined] without a result object or a table. *)
Theorem GetAirLineName_never_throws Res_L key_ :
  GetAirLineName Res_L key_ =
    Ok (if not_null Res_L && not_null (prop Res_L "C")
        then at_ (prop Res_L "C") key_
        else VUndef).
Proof.
  unfold GetAirLineName. destruct (not_null Res_L) eqn:HR; [|done].
  rewrite (get_prop_total _ _ HR). cbn [mbind exc_bind andb].
  destruct (not_null (prop Res_L "C")) eqn:Hn; [|done].
  by apply get_elem_total.
Qed.

(** X3. [GetAirportName] with an airport table: the answer is the table's
    entry when that is neither blank nor missing, and the code itself
    otherwise; so a blank or missing name comes back as the code. *)
Theorem GetAirportName_echoes_the_code Res_L key_ :
  not_null Res_L = true → not_null (prop Res_L "A") = true →
  ∃ name, GetAirportName Res_L key_ = Ok name ∧
    (name = key_ ∨
     (name = at_ (prop Res_L "A") key_ ∧
      loose_eq name (VStr "") = false ∧ not_null name = true)).
Proof.
  intros HR HA. unfold GetAirportName. rewrite HR, (get_prop_total _ _ HR).
  cbn [mbind exc_bind]. rewrite HA, (get_elem_total _ _ HA).
  cbn [mbind exc_bind]. unfold loose_ne.
  destruct (loose_eq (at_ (prop Res_L "A") key_) (VStr "")) eqn:E1;
    cbn [negb andb]; [eauto|].
  destruct (not_null (at_ (prop Res_L "A") key_)) eqn:E2; eauto 10.
Qed.

(** X4. Without a result object or without an airport table, [GetAirportName]
    and [CountryName] answer [undefined]; the country table is not looked
    at. *)
Theorem names_without_airport_table Res_L key_ :
  not_null Res_L && not_null (prop Res_L "A") = false →
  GetAirportName Res_L key_ = Ok VUndef ∧ CountryName Res_L key_ = Ok VUndef.
Proof.
  intros H. unfold GetAirportName, CountryName.
  destruct (not_null Res_L) eqn:HR; [|done].
  rewrite (get_prop_total _ _ HR). cbn [mbind exc_bind].
  simpl in H. by rewrite H.
Qed.

(** X5. [CountryName] guards on the airport table and reads the country table:
    with the first present and the second missing it throws. *)
Theorem CountryName_throws_without_country_table Res_L key_ :
  not_null Res_L = true → not_null (prop Res_L "A") = true →
  not_null (prop Res_L "Cnty") = false →
  CountryName Res_L key_ = Throw TypeError.
Proof.
  intros HR HA HC. unfold CountryName.
  rewrite HR, !(get_prop_total _ _ HR). cbn [mbind exc_bind].
  rewrite HA. cbn [mbind exc_bind].
  destruct (prop Res_L "Cnty"); try done; by destruct key_.
Qed.

(** ** The engine and date table *)

Section Legacy.

Variable LocalTZA : Z → Z.

(** X6. The table of lines 133 to 170, taken alone: on every departure date
    and in every time zone it sets the hand baggage to 5 KG for engine 31
    and to 7 KG for every other engine, when the departure timestamp has a
    hyphen; without a hyphen it sets nothing. *)
Theorem legacy_table_ignores_the_date seg_ fleg DDT (o o' : obj) :
  prop fleg "DDT" = VStr DDT →
  legacy_hand_baggage LocalTZA seg_ fleg o = Ok o' →
  (∀ k, k ≠ "HBU" → k ≠ "HBW" → o' !! k = o !! k) ∧
  if (1 <? length (split_on "-" DDT))%nat then
    o' !! "HBU" = Some (VStr "KG") ∧
    o' !! "HBW" =
      Some (VNum (if loose_eq (field seg_ "EID") (VNum 31) then 5 else 7))
  else o' = o.
Proof.
  intros HD H. split.
  { intros k ? ?. by eapply legacy_hand_baggage_lookup_ne. }
  unfold legacy_hand_baggage in H.
  apply exc_bind_Ok in H as (d & Ed & H).
  apply get_prop_prop in Ed. rewrite HD in Ed. subst d.
  apply exc_bind_Ok in H as (parts & [= <-] & H).
  rewrite length_fmap in H.
  destruct (1 <? length (split_on "-" DDT))%nat; [|by injection H as <-].
  cbv zeta in H. injection H as <-. unfold hand_baggage.
  repeat match goal with
         | |- context [if ?c then _ else _] => destruct c
         end;
    split; by rewrite ?lookup_insert_eq, ?lookup_insert_ne, ?lookup_insert_eq
                 by done.
Qed.

(** X7. A departure timestamp that is not a string makes the table throw. *)
Theorem legacy_table_needs_a_string seg_ fleg (o : obj) :
  (∀ DDT, prop fleg "DDT" ≠ VStr DDT) →
  legacy_hand_baggage LocalTZA seg_ fleg o = Throw TypeError.
Proof.
  intros HD. unfold legacy_hand_baggage.
  destruct (get_prop fleg "DDT") as [d|[]] eqn:E; [|done].
  apply get_prop_prop in E. cbn [mbind exc_bind].
  destruct d; try done. by destruct (HD s).
Qed.

End Legacy.

(** ** The other fields of a leg *)

Lemma leg_details_inv bnd fleg lc (o o' : obj) :
  leg_details bnd fleg lc o = Ok o' →
  o' !! "fareCls" = Some (at_ (prop bnd "lFC") (VNum (Z.of_nat lc))) ∧
  o' !! "LyOvr" =
    Some (if (0 <? lc)%nat && not_null (prop bnd "LLOV")
          then at_ (prop bnd "LLOV") (VNum (Z.of_nat lc - 1))
          else prop fleg "LOV").
Proof.
  unfold leg_details. intros H. inv_exc H; name_reads.
  all: repeat match goal with H : _ = true |- _ => rewrite H
                         | H : _ = false |- _ => rewrite H end.
  all: split; lookup_back;
    first [ apply lookup_insert_eq
          | eapply copy_prop_lookup; eassumption ].
Qed.

Lemma leg_baggage_lookup_ne bnd lc (o o' : obj) k :
  leg_baggage bnd lc o = Ok o' →
  k ∉ ["BaggageUnit"; "BaggageWeight"; "HBU"; "HBW"] → o' !! k = o !! k.
Proof.
  unfold leg_baggage. intros H Hk. split_notin. inv_exc H; by lookup_back.
Qed.

Lemma leg_provider_lookup_ne seg_ bnd fleg fareId lc id (o o' : obj) id' k :
  leg_provider seg_ bnd fleg fareId lc id o = Ok (o', id') →
  k ∉ ["EquipmentType"; "SeatAvail"; "FlightDetailRefKey"; "ProviderCode";
       "BaggageUnit"; "BaggageWeight"] →
  o' !! k = o !! k.
Proof.
  unfold leg_provider. intros H Hk. split_notin. inv_exc H; by lookup_back.
Qed.

Lemma leg_provider_code seg_ bnd fleg fareId lc id (o o' : obj) id' :
  leg_provider seg_ bnd fleg fareId lc id o = Ok (o', id') →
  o' !! "ProviderCode" =
    Some (if has_fare_keys bnd fareId then
            if fare_keys_cover seg_ bnd fareId lc
            then at_ (at_ (prop bnd "dctBKKY") (fare_key seg_ fareId))
                     (VNum (Z.of_nat lc))
            else VStr ""
          else if not_null (prop bnd "BkKY")
               then at_ (prop bnd "BkKY") (VNum (Z.of_nat lc))
               else prop fleg "ProviderCode").
Proof.
  unfold leg_provider, has_fare_keys, fare_keys_cover, fare_key.
  intros H. inv_exc H; name_reads.
  all: repeat match goal with H : _ = true |- _ => rewrite H
                         | H : _ = false |- _ => rewrite H end.
  all: lookup_back;
    first [ apply lookup_insert_eq
          | eapply copy_prop_lookup; eassumption ].
Qed.

Section LegFields.

Variable LocalTZA : Z → Z.
Variables Res_L org des frArmy frArmyRT : value.
Variables NoAdt NoChd NoInf FFare_L isRT_ fareId : value.

Abbreviation run :=
  (ConvertSegFinal LocalTZA Res_L org des frArmy frArmyRT NoAdt NoChd NoInf
                   FFare_L isRT_ fareId).

Lemma ConvertLeg_inv seg_ bnd lc id fLeg_L id' :
  ConvertLeg LocalTZA Res_L seg_ bnd fareId lc id = Ok (fLeg_L, id') →
  not_null (raw_leg Res_L bnd lc) = true ∧
  fLeg_L !! "fareCls" = Some (at_ (prop bnd "lFC") (VNum (Z.of_nat lc))) ∧
  fLeg_L !! "LyOvr" =
    Some (if (0 <? lc)%nat && not_null (prop bnd "LLOV")
          then at_ (prop bnd "LLOV") (VNum (Z.of_nat lc - 1))
          else prop (raw_leg Res_L bnd lc) "LOV") ∧
  fLeg_L !! "ProviderCode" =
    Some (if has_fare_keys bnd fareId then
            if fare_keys_cover seg_ bnd fareId lc
            then at_ (at_ (prop bnd "dctBKKY") (fare_key seg_ fareId))
                     (VNum (Z.of_nat lc))
            else VStr ""
          else if not_null (prop bnd "BkKY")
               then at_ (prop bnd "BkKY") (VNum (Z.of_nat lc))
               else prop (raw_leg Res_L bnd lc) "ProviderCode").
Proof.
  unfold ConvertLeg, raw_leg. intros H.
  apply exc_bind_Ok in H as (FL & EFL & H).
  apply exc_bind_Ok in H as (key_ & Ekey & H).
  apply exc_bind_Ok in H as (fleg & Efleg & H).
  apply exc_bind_Ok in H as (o1 & Hh & H).
  apply exc_bind_Ok in H as (o2 & _ & H).
  apply exc_bind_Ok in H as (o3 & Hd & H).
  apply exc_bind_Ok in H as (o4 & Hb & H).
  apply get_prop_prop in EFL as <-. apply get_elem_at in Ekey as <-.
  rewrite Efleg.
  split.
  { unfold leg_head in Hh. apply exc_bind_Ok in Hh as (AC & E & _).
    by eapply get_prop_not_null. }
  rewrite !(leg_provider_lookup_ne _ _ _ _ _ _ _ _ _ _ H) by compute_done.
  rewrite !(leg_baggage_lookup_ne _ _ _ _ _ Hb) by compute_done.
  apply leg_details_inv in Hd as [? ?].
  apply leg_provider_code in H. done.
Qed.

(** X8. The fare class of a returned leg is the bound's per-leg fare class,
    not the leg dictionary's; its layover is the bound's connection layover
    before the leg when the bound has that list and the leg is not the
    first, and the leg's own layover otherwise. *)
Theorem leg_fare_class_and_layover s r s' bs bc bnd keys lc :
  run s = (Ok r, s') →
  field s "b" = VArr bs → bs !! bc = Some bnd →
  prop bnd "FL" = VArr keys → (lc < length keys)%nat →
  prop (out_leg r bc lc) "fareCls" = at_ (prop bnd "lFC") (VNum (Z.of_nat lc)) ∧
  prop (out_leg r bc lc) "LyOvr" =
    if (0 <? lc)%nat && not_null (prop bnd "LLOV")
    then at_ (prop bnd "LLOV") (VNum (Z.of_nat lc - 1))
    else prop (raw_leg Res_L bnd lc) "LOV".
Proof.
  intros H Hb Hbc HFL Hlc.
  destruct (run_leg _ _ _ _ _ _ _ _ _ _ _ _ _ _ _ _ _ _ _ _ H Hb Hbc HFL Hlc)
    as (s_bc & fLeg_L & id & id' & _ & Hleg & ->).
  apply ConvertLeg_inv in Hleg as (_ & Hf & Hl & _).
  by rewrite (prop_obj _ _ _ Hf), (prop_obj _ _ _ Hl).
Qed.

(** X9. The provider code of a returned leg: the selected fare's booking key
    for the leg when the bound has booking keys by fare, and the empty
    string when that fare's list is too short for the leg; without such
    keys the bound's plain booking key; without that the leg's own code. *)
Theorem leg_provider_code_tiers s r s' bs bc bnd keys lc :
  run s = (Ok r, s') →
  field s "b" = VArr bs → bs !! bc = Some bnd →
  prop bnd "FL" = VArr keys → (lc < length keys)%nat →
  prop (out_leg r bc lc) "ProviderCode" =
    if has_fare_keys bnd fareId then
      if fare_keys_cover s bnd fareId lc
      then at_ (at_ (prop bnd "dctBKKY") (fare_key s fareId))
               (VNum (Z.of_nat lc))
      else VStr ""
    else if not_null (prop bnd "BkKY")
         then at_ (prop bnd "BkKY") (VNum (Z.of_nat lc))
         else prop (raw_leg Res_L bnd lc) "ProviderCode".
Proof.
  intros H Hb Hbc HFL Hlc.
  destruct (run_leg _ _ _ _ _ _ _ _ _ _ _ _ _ _ _ _ _ _ _ _ H Hb Hbc HFL Hlc)
    as (s_bc & fLeg_L & id & id' & Hs & Hleg & ->).
  apply ConvertLeg_inv in Hleg as (_ & _ & _ & Hp).
  rewrite (prop_obj _ _ _ Hp).
  destruct (fare_keys_agree fareId _ _ bnd lc Hs) as [-> _].
  unfold fare_key. by rewrite (agree_off_field _ _ _ "lstFr" Hs) by compute_done.
Qed.

(** X10. A leg key that the leg dictionary does not resolve makes the script
    throw: no run returns on such a segment. *)
Theorem unresolved_leg_throws s bs bc bnd keys lc :
  field s "b" = VArr bs → bs !! bc = Some bnd →
  prop bnd "FL" = VArr keys → (lc < length keys)%nat →
  not_null (raw_leg Res_L bnd lc) = false →
  ∃ s', run s = (Throw TypeError, s').
Proof.
  intros Hb Hbc HFL Hlc Hn.
  destruct (run s) as [[r|[]] s'] eqn:H; [exfalso|by exists s'].
  destruct (run_leg _ _ _ _ _ _ _ _ _ _ _ _ _ _ _ _ _ _ _ _ H Hb Hbc HFL Hlc)
    as (s_bc & fLeg_L & id & id' & _ & Hleg & _).
  apply ConvertLeg_inv in Hleg as (Hnn & _). congruence.
Qed.

(** A run that returns went through at least one bound. *)
Lemma run_has_bounds s r s' :
  run s = (Ok r, s') → has_items (field s "b") = true.
Proof.
  intros H. destruct (has_items (field s "b")) eqn:Hb; [done|exfalso].
  apply run_inv in H
    as (bonds & id & hb & s1 & L1 & s2 & L2 & code & o
        & E1 & E2 & E3 & _).
  apply ConvertBounds_inv in E1 as [_ E1]. rewrite Hb in E1. subst bonds.
  apply AggregatePrices_inv in E3.
  assert (∀ seg_ (L L' : obj), segment_terms seg_ [] L = Ok L' → False) as Hno.
  { intros seg_ L L'. unfold segment_terms. by intros (? & [=] & _)%exc_bind_Ok. }
  destruct (not_null (field s2 "Fr")).
  - destruct E3 as (t & E3 & _). unfold row_prices in E3.
    do 4 (apply exc_bind_Ok in E3 as (? & _ & E3)).
    apply exc_bind_Ok in E3 as (? & E3 & _). by eapply Hno.
  - destruct E3 as [E3 _]. unfold flat_prices in E3. by eapply Hno.
Qed.

(** X11. A segment without bounds makes the script throw: both price branches
    read the cancellation policy of the first bound of the record. *)
Theorem no_bounds_throws s :
  has_items (field s "b") = false →
  ∃ s', run s = (Throw TypeError, s').
Proof.
  intros Hb.
  destruct (run s) as [[r|[]] s'] eqn:H; [exfalso|by exists s'].
  apply run_has_bounds in H. congruence.
Qed.

End LegFields.

(** ** The other totals *)


Section Totals.

Variables NoAdt NoChd NoInf : value.


End Totals.

Section TypedTotals.

Variables a c i : Z.







End TypedTotals.

(** ** A call that leaves the segment alone *)

Lemma keeps_ret {A} (a : A) s : keeps (mret a) s.
Proof. by intros x s' [= _ <-]. Qed.

Lemma keeps_lift {A} (x : exc A) s : keeps (lift x) s.
Proof. by intros y s' [= _ <-]. Qed.

Lemma keeps_read k s : keeps (read_seg k) s.
Proof. by intros y s' [= _ <-]. Qed.

Lemma keeps_bind {A B} (m : M A) (k : A → M B) s :
  keeps m s → (∀ a, m s = (Ok a, s) → keeps (k a) s) → keeps (m ≫= k) s.
Proof.
  intros Hm Hk x s'. unfold mbind, M_bind.
  destruct (m s) as [[a|e] s1] eqn:E; pose proof (Hm _ _ E) as ->.
  - by apply Hk.
  - by intros [= _ <-].
Qed.

Lemma keeps_seg_bind {B} (k : obj → M B) s :
  keeps (k s) s → keeps (the_seg ≫= k) s.
Proof.
  intros Hk. apply keeps_bind; [by intros x s' [= _ <-]|].
  by intros a [= <-].
Qed.

Lemma keeps_for_M {St} (body : nat → St → M St) s n :
  (∀ i st, keeps (body i st) s) → ∀ i st, keeps (for_M body i n st) s.
Proof.
  intros Hb. induction n as [|n IH]; intros i st; simpl.
  - apply keeps_ret.
  - apply keeps_bind; [apply Hb | intros a _; apply IH].
Qed.

Ltac keeps_step :=
  first
    [ apply keeps_ret
    | apply keeps_lift
    | apply keeps_read
    | apply keeps_seg_bind
    | apply keeps_bind; [| intros ? ?]
    | progress cbv beta
    | match goal with
      | |- keeps (let '(_, _) := ?x in _) _ => destruct x
      | |- keeps (match ?x with _ => _ end) _ => destruct x
      end ].

Section NoWrite.

Variable LocalTZA : Z → Z.
Variables Res_L org des frArmy frArmyRT : value.
Variables NoAdt NoChd NoInf FFare_L isRT_ fareId : value.

Abbreviation run :=
  (ConvertSegFinal LocalTZA Res_L org des frArmy frArmyRT NoAdt NoChd NoInf
                   FFare_L isRT_ fareId).

Lemma ConvertBound_keeps bc st s :
  has_items (field s "lstFr") = false →
  keeps (ConvertBound LocalTZA Res_L fareId bc st) s.
Proof.
  intros Hl. destruct st as [[bonds id] hb]. unfold ConvertBound.
  do 8 keeps_step. keeps_step. cbv zeta. rewrite Hl.
  repeat keeps_step.
  destruct a5 as [Legs idl]. repeat keeps_step.
  destruct a5 as [Bnd_L hb']. repeat keeps_step.
Qed.

(** X12. With no fare options and no selected fare on the segment, the script
    writes nothing on its argument, whatever the outcome of the call. *)
Theorem no_fares_no_write s out s' :
  has_items (field s "lstFr") = false → not_null (field s "Fr") = false →
  run s = (out, s') → s' = s.
Proof.
  intros Hl HF. revert out s'. change (keeps run s).
  unfold ConvertSegFinal. apply keeps_seg_bind.
  apply keeps_bind.
  { unfold ConvertBounds. apply keeps_bind; [apply keeps_read | intros b _].
    destruct (has_items b); [|apply keeps_ret].
    apply keeps_bind; [apply keeps_lift | intros len _].
    apply keeps_for_M. intros i st. by apply ConvertBound_keeps. }
  intros [[bonds id] hb] _.
  apply keeps_bind.
  { unfold SelectFare. apply keeps_bind; [apply keeps_read|].
    intros lstFr [= <-]. rewrite Hl. apply keeps_ret. }
  intros L1 _.
  apply keeps_bind.
  { unfold AggregatePrices. apply keeps_seg_bind. cbv zeta. rewrite HF.
    apply keeps_lift. }
  intros L2 _.
  unfold Assemble. apply keeps_seg_bind. cbv zeta.
  apply keeps_bind; [apply keeps_lift | intros code _].
  rewrite get_prop_obj. apply keeps_ret.
Qed.

End NoWrite.

(** ** Arguments that the result does not depend on *)

Lemma SelectFare_armory frArmy frArmyRT frArmy' frArmyRT' fareId L :
  SelectFare frArmy frArmyRT fareId L = SelectFare frArmy' frArmyRT' fareId L.
Proof. reflexivity. Qed.

Lemma Assemble_round_trip org des isRT_ isRT_' fareId hb L s :
  Assemble org des isRT_ fareId hb L s = Assemble org des isRT_' fareId hb L s.
Proof. unfold Assemble. by rewrite !andb_false_r. Qed.

(** X13. The fare ids and the round-trip flag that the caller passes decide
    nothing: the script rebinds [frArmy] and [frArmyRT] locally and reads
    neither again, and it tests [isRT_] only together with [false]. *)
Theorem armory_and_round_trip_flag_unused
    LocalTZA Res_L org des NoAdt NoChd NoInf FFare_L fareId
    frArmy frArmyRT isRT_ frArmy' frArmyRT' isRT_' s :
  ConvertSegFinal LocalTZA Res_L org des frArmy frArmyRT NoAdt NoChd NoInf
                  FFare_L isRT_ fareId s
  = ConvertSegFinal LocalTZA Res_L org des frArmy' frArmyRT' NoAdt NoChd NoInf
                    FFare_L isRT_' fareId s.
Proof.
  unfold ConvertSegFinal, mbind, M_bind, the_seg.
  destruct (ConvertBounds _ _ _ s) as [[[[bonds id] hb]|e] s1]; [|done].
  rewrite (SelectFare_armory frArmy frArmyRT frArmy' frArmyRT').
  destruct (SelectFare _ _ _ _ s1) as [[L1|e] s2]; [|done].
  destruct (AggregatePrices _ _ _ _ _ _ s2) as [[L2|e] s3]; [|done].
  apply Assemble_round_trip.
Qed.

(** ** The totals on the record *)


Section RunTotals.

Variable LocalTZA : Z → Z.
Variables Res_L org des frArmy frArmyRT : value.
Variables NoAdt NoChd NoInf FFare_L isRT_ fareId : value.

Abbreviation run :=
  (ConvertSegFinal LocalTZA Res_L org des frArmy frArmyRT NoAdt NoChd NoInf
                   FFare_L isRT_ fareId).

(** The segment as the aggregation sees it: the initial one up to [l_HB]
    and [Fr]. *)
Lemma before_aggregation s bonds id hb s1 L L1 s2 k :
  ConvertBounds LocalTZA Res_L fareId s = (Ok (bonds, id, hb), s1) →
  SelectFare frArmy frArmyRT fareId L s1 = (Ok L1, s2) →
  k ≠ "l_HB" → k ≠ "Fr" → field s2 k = field s k.
Proof.
  intros E1 E2 Hk1 Hk2.
  apply ConvertBounds_inv in E1 as [Hs1 _].
  rewrite <- (agree_off_field _ _ _ k Hs1)
    by (rewrite elem_of_cons, elem_of_nil; intros [->|[]]; done).
  apply SelectFare_inv in E2. destruct (has_items (field s1 "lstFr")).
  - destruct E2 as [-> _]. unfold field. by rewrite lookup_insert_ne.
  - by destruct E2 as [-> _].
Qed.

(** What the record shows of the row totals, with a fare-option list that
    is not empty. *)
Lemma run_row_prices s r s' fares (i : nat) Fr :
  run s = (Ok r, s') →
  field s "lstFr" = VArr fares → fareId = VNum (Z.of_nat i) →
  fares !! i = Some Fr →
  ∃ t,
    PriceRows NoAdt NoChd NoInf (prop Fr "L_PF") = Ok t ∧
    record_of r !! "AdultPriceT" = Some (adultT t) ∧
    record_of r !! "ChildPriceT" = Some (childT t) ∧
    record_of r !! "InfantPriceT" = Some (infantT t) ∧
    record_of r !! "TotalTax" = Some (TotalTT t) ∧
    record_of r !! "TotalFare" = Some (js_add (TotalTF t) (TotalMRKP t)) ∧
    record_of r !! "ESF" = Some (totalExSeatFare t) ∧
    record_of r !! "MarkUP" = Some (TotalMRKP t) ∧
    record_of r !! "ttlDiscount" = Some (js_add (TotalTF t) (TotalMRKP t)).
Proof.
  intros H Hfares Hid Hi.
  apply run_inv in H
    as (bonds & id & hb & s1 & L1 & s2 & L2 & code & o
        & E1 & E2 & E3 & _ & -> & _ & _ & _ & _ & Ho).
  apply ConvertBounds_inv in E1 as [Hs1 _].
  assert (field s1 "lstFr" = VArr fares) as Hl
    by (rewrite <- Hfares; apply (agree_off_field _ _ _ _ Hs1); compute_done).
  assert (at_ (VArr fares) fareId = Fr) as Hat
    by (rewrite Hid; by apply at_arr).
  apply SelectFare_fare in E2 as (HFr & HnFr & _);
    [|rewrite Hl; by eapply has_items_arr].
  rewrite Hl, Hat in HFr.
  apply AggregatePrices_inv in E3. rewrite HnFr in E3.
  destruct E3 as (t & E3 & ->). rewrite HFr in E3.
  apply row_prices_inv in E3
    as (Ep & _ & _ & _ & _ & ? & ? & ? & ? & ? & ? & ? & ?).
  exists t. simpl. rewrite !Ho by compute_done. done.
Qed.



End RunTotals.

(** ** What the record copies from the segment *)

Lemma segment_terms_inv seg_ bonds (L L' : obj) :
  segment_terms seg_ bonds L = Ok L' →
  (∀ a b, (a, b) ∈ terms → L' !! b = Some (field seg_ a)) ∧
  L' !! "lstCanPo" =
    Some (if not_null (prop (nth_value bonds 0) "lstCanPo")
          then prop (nth_value bonds 0) "lstCanPo"
          else field seg_ "LCP").
Proof.
  unfold segment_terms. intros H.
  apply exc_bind_Ok in H as (c & Ec & H). apply get_prop_prop in Ec as <-.
  split.
  - intros a b Hab. unfold terms in Hab.
    apply list_elem_of_In in Hab. simpl in Hab.
    destruct (not_null _); injection H as <-;
      repeat (destruct Hab as [[= <- <-]|Hab];
              [lookup_back;
               first [ apply lookup_insert_eq
                     | apply copy_fields_lookup; compute_done ]|]);
      destruct Hab.
  - destruct (not_null _); injection H as <-; apply lookup_insert_eq.
Qed.

Section Copies.

Variables org des isRT_ : value.
Variables NoAdt NoChd NoInf FFare_L : value.

Lemma AggregatePrices_terms bonds L s L' s' :
  AggregatePrices NoAdt NoChd NoInf FFare_L bonds L s = (Ok L', s') →
  (∀ a b, (a, b) ∈ terms → L' !! b = Some (field s a)) ∧
  L' !! "lstCanPo" =
    Some (if not_null (prop (nth_value bonds 0) "lstCanPo")
          then prop (nth_value bonds 0) "lstCanPo"
          else field s "LCP").
Proof.
  intros H. apply AggregatePrices_inv in H.
  destruct (not_null (field s "Fr")).
  - destruct H as (t & H & _). unfold row_prices in H.
    do 4 (apply exc_bind_Ok in H as (? & _ & H)).
    apply exc_bind_Ok in H as (? & H & [= <- _]).
    by apply segment_terms_inv in H.
  - destruct H as [H _]. unfold flat_prices in H.
    by apply segment_terms_inv in H.
Qed.

Lemma Assemble_notes fareId hb (L : obj) s r s' :
  Assemble org des isRT_ fareId hb L s = (Ok r, s') →
  (∀ a b, (a, b) ∈ noted → record_of r !! b = Some (field s a)) ∧
  record_of r !! "SearchOrigin" = Some org ∧
  record_of r !! "SearchDestination" = Some des ∧
  record_of r !! "lstOutBound" = Some (VArr []) ∧
  record_of r !! "lstInBound" = Some (VArr []) ∧
  record_of r !! "IsHndBaggTp" =
    Some (if not_null (field s "Is_HBT") then field s "Is_HBT" else hb) ∧
  ∃ code, resolve_coupon_code s fareId = Ok code ∧
    record_of r !! "DiscountAmount" =
      if loose_eq code (VStr "") then Some (VNum 0)
      else L !! "DiscountAmount".
Proof.
  unfold Assemble. intros H.
  apply M_bind_Ok in H as (? & ? & [= <- <-] & H).
  apply M_bind_Ok in H as (code & ? & [E ->]%lift_Ok & H).
  cbv beta zeta in H. rewrite andb_false_r, get_prop_obj in H.
  injection H as <- <-. cbn [record_of].
  split.
  { intros a b Hab. unfold noted in Hab.
    apply list_elem_of_In in Hab. simpl in Hab.
    repeat (destruct Hab as [[= <- <-]|Hab];
            [unfold record_tail, record_notes; lookup_back;
             first [ apply lookup_insert_eq
                   | apply copy_fields_lookup; compute_done ]|]).
    destruct Hab. }
  unfold record_tail, record_notes.
  repeat split; try (lookup_back; apply lookup_insert_eq).
  exists code. split; [done|]. rewrite field_insert.
  lookup_back. rewrite lookup_set_if. destruct (loose_eq code (VStr "")); [done|].
  by lookup_back.
Qed.

End Copies.

Section RunCopies.

Variable LocalTZA : Z → Z.
Variables Res_L org des frArmy frArmyRT : value.
Variables NoAdt NoChd NoInf FFare_L isRT_ fareId : value.

Abbreviation run :=
  (ConvertSegFinal LocalTZA Res_L org des frArmy frArmyRT NoAdt NoChd NoInf
                   FFare_L isRT_ fareId).

(** The four stages of a run that returns. *)
Lemma run_stages s r s' :
  run s = (Ok r, s') →
  ∃ bonds id hb s1 L1 s2 L2,
    ConvertBounds LocalTZA Res_L fareId s = (Ok (bonds, id, hb), s1) ∧
    SelectFare frArmy frArmyRT fareId
      (<["bonds" := VArr bonds]> (new_record org des s)) s1 = (Ok L1, s2) ∧
    AggregatePrices NoAdt NoChd NoInf FFare_L bonds L1 s2 = (Ok L2, s') ∧
    Assemble org des isRT_ fareId hb L2 s' = (Ok r, s').
Proof.
  intros H.
  apply ConvertSegFinal_inv in H
    as (bonds & id & hb & s1 & L1 & s2 & L2 & s3 & E1 & E2 & E3 & E4).
  pose proof (Assemble_inv _ _ _ _ _ _ _ _ _ E4) as [-> _].
  by exists bonds, id, hb, s1, L1, s2, L2.
Qed.

(** The properties of the record that only the first lines assign. *)
Lemma run_untouched s r s' k :
  run s = (Ok r, s') →
  k ∈ ["id"; "BKID"; "segDTL"; "segKey"; "PT"; "FareTypeUI"] →
  record_of r !! k = new_record org des s !! k.
Proof.
  intros H Hk.
  apply run_inv in H
    as (bonds & id & hb & s1 & L1 & s2 & L2 & code & o
        & E1 & E2 & E3 & _ & -> & _ & _ & _ & _ & Ho).
  simpl. apply list_elem_of_In in Hk. simpl in Hk.
  apply AggregatePrices_inv in E3. apply SelectFare_inv in E2.
  destruct Hk as [<-|[<-|[<-|[<-|[<-|[<-|[]]]]]]];
    (rewrite Ho by compute_done);
    (destruct (not_null (field s2 "Fr"));
     [destruct E3 as (t & E3 & _);
      rewrite (row_prices_lookup_ne _ _ _ _ _ _ _ _ _ _ _ E3) by compute_done
     |destruct E3 as [E3 _];
      rewrite (flat_prices_lookup_ne _ _ _ _ _ E3) by compute_done]);
    (destruct (has_items (field s1 "lstFr"));
     [destruct E2 as [_ E2];
      rewrite (selected_fare_fields_lookup_ne _ _ _ _ _ _ _ _ E2)
        by compute_done
     |destruct E2 as [_ ->]]);
    by rewrite !lookup_insert_ne by done.
Qed.

(** X16. The record's copies of the segment: in every run that returns, each of
    these properties of the record is the segment's own, as it was before
    the call, whatever the fare options hold; the search origin and
    destination are the caller's, and the two lists of bounds by direction
    are empty. *)
Theorem record_copies_the_segment s r s' :
  run s = (Ok r, s') →
  (∀ a b, (a, b) ∈ copied → record_of r !! b = Some (field s a)) ∧
  record_of r !! "SearchOrigin" = Some org ∧
  record_of r !! "SearchDestination" = Some des ∧
  record_of r !! "lstOutBound" = Some (VArr []) ∧
  record_of r !! "lstInBound" = Some (VArr []).
Proof.
  intros H.
  pose proof (λ k, run_untouched s r s' k H) as Hhead.
  pose proof (λ k, run_field _ _ _ _ _ _ _ _ _ _ _ _ s (Ok r) s' k H) as Hframe.
  apply run_stages in H
    as (bonds & id & hb & s1 & L1 & s2 & L2 & E1 & E2 & E3 & E4).
  pose proof (Assemble_inv _ _ _ _ _ _ _ _ _ E4)
    as (_ & code & o & _ & -> & _ & _ & _ & _ & Ho).
  apply Assemble_notes in E4 as (Hnotes & ? & ? & ? & ? & _).
  split; [|done].
  intros a b Hab. unfold copied in Hab.
  apply elem_of_app in Hab as [Hab|Hab];
    [|apply elem_of_app in Hab as [Hab|Hab]].
  - unfold header in Hab. apply list_elem_of_In in Hab. simpl in Hab.
    repeat (destruct Hab as [[= <- <-]|Hab];
            [rewrite Hhead by compute_done; unfold new_record; lookup_back;
             first [ apply lookup_insert_eq
                   | apply copy_fields_lookup; compute_done ]|]).
    destruct Hab.
  - apply AggregatePrices_terms in E3 as [Ht _].
    pose proof (Ht a b Hab) as Hb.
    pose proof (λ k, before_aggregation _ _ _ _ _ _ _ _ _ _ _ _ _ k E1 E2) as Hs2.
    unfold terms in Hab. apply list_elem_of_In in Hab. simpl in Hab.
    simpl.
    repeat (destruct Hab as [[= <- <-]|Hab];
            [rewrite Ho by compute_done; rewrite Hb; by rewrite Hs2|]).
    destruct Hab.
  - rewrite (Hnotes a b Hab).
    unfold noted in Hab. apply list_elem_of_In in Hab. simpl in Hab.
    repeat (destruct Hab as [[= <- <-]|Hab];
            [by rewrite Hframe by compute_done|]).
    destruct Hab.
Qed.

End RunCopies.

(** ** The fare option on the record *)

Lemma selected_fare_fields_inv frArmy frArmyRT seg_ fareId Fr (L L' : obj) :
  selected_fare_fields frArmy frArmyRT seg_ fareId Fr L = Ok L' →
  L' !! "selectedFare" = Some fareId ∧
  L' !! "lstFr" = Some (field seg_ "lstFr") ∧
  L' !! "ItineraryKey" = Some (prop Fr "ItnanaryKey") ∧
  L' !! "FN" = Some (prop Fr "FN") ∧
  L' !! "INSP" = Some (prop Fr "INSP") ∧
  L' !! "FIA" = Some (prop Fr "FIA") ∧
  L' !! "INSAmtPP" = Some (prop (at_ (prop Fr "L_PF") (VNum 0)) "INSAmtPP") ∧
  L' !! "CT_UPG" =
    (if not_null (prop Fr "CT_UPG") then Some (prop Fr "CT_UPG")
     else L !! "CT_UPG") ∧
  L' !! "DiscountAmount" =
    (if not_null (prop Fr "CouponCodeList") then L !! "DiscountAmount"
     else if loose_ne (prop Fr "CC") (VStr "") then Some (prop Fr "DA")
          else L !! "DiscountAmount").
Proof.
  unfold selected_fare_fields, coupon_state, clear_coupons.
  intros H. inv_exc H; name_reads.
  all: repeat match goal with H : _ = true |- _ => rewrite H
                         | H : _ = false |- _ => rewrite H end.
  all: repeat match goal with
         | H : _ && _ = true |- _ => apply andb_true_iff in H as [H _]
         | H : not_null ?x && not_null ?x = false |- _ =>
             rewrite andb_diag in H
         end.
  all: repeat match goal with H : _ = true |- _ => rewrite H
                         | H : _ = false |- _ => rewrite H end.
  all: repeat split; lookup_back;
    first [ apply lookup_insert_eq
          | eapply copy_prop_lookup; eassumption
          | eapply copy_props_lookup; first [eassumption | compute_done]
          | reflexivity
          | rewrite andb_diag, lookup_set_if;
            destruct (not_null (prop Fr "CT_UPG"));
            [reflexivity | lookup_back; reflexivity] ].
Qed.

Lemma row_prices_searchId NoAdt NoChd NoInf FFare_L seg_ Fr bonds (L L' : obj) t :
  row_prices NoAdt NoChd NoInf FFare_L seg_ Fr bonds L = Ok (L', t) →
  L' !! "searchId" =
    if loose_ne (prop Fr "SID") (VStr "") then Some (prop Fr "SID")
    else L !! "searchId".
Proof.
  unfold row_prices. intros H. inv_exc H. name_reads.
  match goal with
  | H : segment_terms _ _ _ = Ok _ |- _ =>
      rewrite !(segment_terms_lookup_ne _ _ _ _ _ H) by compute_done
  end.
  lookup_back. rewrite lookup_set_if.
  destruct (loose_ne _ _); [done | by lookup_back].
Qed.

Lemma new_record_lookup org des s :
  new_record org des s !! "searchId" = Some (field s "SID") ∧
  new_record org des s !! "ItineraryKey" = Some (field s "IK") ∧
  new_record org des s !! "DiscountAmount" = Some (field s "DAMT") ∧
  new_record org des s !! "CT_UPG" = Some (VStr "") ∧
  new_record org des s !! "selectedFare" = Some (VNum 0) ∧
  new_record org des s !! "lstFr" = None.
Proof.
  unfold new_record.
  repeat split; lookup_back;
    first [ apply lookup_insert_eq
          | apply copy_fields_lookup; compute_done
          | apply lookup_empty ].
Qed.

Section RunFare.

Variable LocalTZA : Z → Z.
Variables Res_L org des frArmy frArmyRT : value.
Variables NoAdt NoChd NoInf FFare_L isRT_ fareId : value.

Abbreviation run :=
  (ConvertSegFinal LocalTZA Res_L org des frArmy frArmyRT NoAdt NoChd NoInf
                   FFare_L isRT_ fareId).

(** The stages of a run with a fare-option list that is not empty. *)
Lemma run_stages_with_fare s r s' fares (i : nat) Fr :
  run s = (Ok r, s') →
  field s "lstFr" = VArr fares → fareId = VNum (Z.of_nat i) →
  fares !! i = Some Fr →
  ∃ bonds hb s2 L1 L2 t,
    (∀ k, k ≠ "l_HB" → k ≠ "Fr" → field s2 k = field s k) ∧
    selected_fare_fields frArmy frArmyRT s2 fareId Fr
      (<["Fare" := VNull]> (<["bonds" := VArr bonds]> (new_record org des s)))
      = Ok L1 ∧
    row_prices NoAdt NoChd NoInf FFare_L s2 Fr bonds L1 = Ok (L2, t) ∧
    Assemble org des isRT_ fareId hb L2 s' = (Ok r, s').
Proof.
  intros H Hfares Hid Hi.
  apply run_stages in H
    as (bonds & id & hb & s1 & L1 & s2 & L2 & E1 & E2 & E3 & E4).
  pose proof (λ k, before_aggregation _ _ _ _ _ _ _ _ _ _ _ _ _ k E1 E2) as Hs2.
  apply ConvertBounds_inv in E1 as [Hs1 _].
  assert (field s1 "lstFr" = VArr fares) as Hl
    by (rewrite <- Hfares; apply (agree_off_field _ _ _ _ Hs1); compute_done).
  assert (at_ (VArr fares) fareId = Fr) as Hat
    by (rewrite Hid; by apply at_arr).
  pose proof (has_items_arr _ _ _ Hi) as Hitems.
  pose proof E2 as E2'. apply SelectFare_fare in E2' as (HFr & HnFr & _);
    [|by rewrite Hl].
  rewrite Hl, Hat in HFr.
  apply SelectFare_inv in E2. rewrite Hl, Hitems in E2.
  destruct E2 as [_ E2]. rewrite Hat in E2.
  apply AggregatePrices_inv in E3. rewrite HnFr in E3.
  destruct E3 as (t & E3 & _). rewrite HFr in E3.
  by exists bonds, hb, s2, L1, L2, t.
Qed.

(** X17. With a fare-option list that is not empty, the record carries the
    list and the caller's index, and the selected option's itinerary key,
    fare name and insurance fields replace the segment's; the search id is
    the option's unless that is the empty string, and the upgrade type is the
    option's when it has one and the empty string otherwise. *)
Theorem selected_fare_on_the_record s r s' fares (i : nat) Fr :
  run s = (Ok r, s') →
  field s "lstFr" = VArr fares → fareId = VNum (Z.of_nat i) →
  fares !! i = Some Fr →
  let o := record_of r in
  o !! "selectedFare" = Some fareId ∧
  o !! "lstFr" = Some (VArr fares) ∧
  o !! "ItineraryKey" = Some (prop Fr "ItnanaryKey") ∧
  o !! "FN" = Some (prop Fr "FN") ∧
  o !! "INSP" = Some (prop Fr "INSP") ∧
  o !! "FIA" = Some (prop Fr "FIA") ∧
  o !! "INSAmtPP" = Some (prop (at_ (prop Fr "L_PF") (VNum 0)) "INSAmtPP") ∧
  o !! "CT_UPG" =
    Some (if not_null (prop Fr "CT_UPG") then prop Fr "CT_UPG" else VStr "") ∧
  o !! "searchId" =
    Some (if loose_ne (prop Fr "SID") (VStr "") then prop Fr "SID"
          else field s "SID").
Proof.
  intros H Hfares Hid Hi.
  destruct (run_stages_with_fare _ _ _ _ _ _ H Hfares Hid Hi)
    as (bonds & hb & s2 & L1 & L2 & t & Hs2 & E2 & E3 & E4).
  pose proof (Assemble_inv _ _ _ _ _ _ _ _ _ E4)
    as (_ & code & o & _ & -> & _ & _ & _ & _ & Ho).
  pose proof (λ k, row_prices_lookup_ne _ _ _ _ _ _ _ _ _ _ k E3) as Hrow.
  pose proof (row_prices_searchId _ _ _ _ _ _ _ _ _ _ E3) as Hsid.
  pose proof (selected_fare_fields_lookup_ne _ _ _ _ _ _ _ "searchId" E2) as Hsf.
  apply selected_fare_fields_inv in E2
    as (? & Hl & ? & ? & ? & ? & ? & Hct & _).
  rewrite Hs2, Hfares in Hl by done.
  destruct (new_record_lookup org des s) as (Hn1 & _ & _ & Hn2 & _).
  rewrite !lookup_insert_ne, Hn2 in Hct by done.
  rewrite Hsf, !lookup_insert_ne, Hn1 in Hsid by compute_done.
  simpl. rewrite !Ho by compute_done. rewrite !Hrow by compute_done.
  repeat split; try done.
  - rewrite Hct. by destruct (not_null _).
  - rewrite Hsid. by destruct (loose_ne _ _).
Qed.

(** X18. The discount amount of the record.  With a coupon code that is the
    empty string it is 0.  Otherwise, without fare options it is the
    segment's [DAMT]; with a selected option it is the option's [DA] when the
    option has no coupon-code list, and the segment's [DAMT] when it has
    one. *)
Theorem discount_amount_of_the_record s r s' :
  run s = (Ok r, s') →
  (has_items (field s "lstFr") = false →
   record_of r !! "DiscountAmount" =
     Some (if loose_eq (field s "CC") (VStr "") then VNum 0
           else field s "DAMT")) ∧
  (∀ fares (i : nat) Fr,
     field s "lstFr" = VArr fares → fareId = VNum (Z.of_nat i) →
     fares !! i = Some Fr →
     record_of r !! "DiscountAmount" =
       Some (if loose_eq (if js_lt (prop Fr "TTDIS") (prop Fr "TF")
                          then prop Fr "CC" else VStr "") (VStr "")
             then VNum 0
             else if not_null (prop Fr "CouponCodeList")
                  then field s "DAMT" else prop Fr "DA")).
Proof.
  intros H.
  pose proof (λ k, run_field _ _ _ _ _ _ _ _ _ _ _ _ s (Ok r) s' k H) as Hframe.
  destruct (new_record_lookup org des s) as (_ & _ & Hn & _).
  split.
  - intros Hitems.
    apply run_stages in H
      as (bonds & id & hb & s1 & L1 & s2 & L2 & E1 & E2 & E3 & E4).
    apply Assemble_notes in E4
      as (_ & _ & _ & _ & _ & _ & code & Ec & ->).
    apply resolve_coupon_code_inv in Ec.
    rewrite !Hframe in Ec by compute_done. rewrite Hitems in Ec. subst code.
    destruct (loose_eq _ _); [done|].
    apply ConvertBounds_inv in E1 as [Hs1 _].
    apply SelectFare_inv in E2.
    rewrite (agree_off_field _ _ _ "lstFr" Hs1), Hitems in E2 by compute_done.
    destruct E2 as [-> ->].
    apply AggregatePrices_inv in E3. destruct (not_null (field s1 "Fr")).
    + destruct E3 as (t & E3 & _).
      rewrite (row_prices_lookup_ne _ _ _ _ _ _ _ _ _ _ _ E3) by compute_done.
      by rewrite !lookup_insert_ne by done.
    + destruct E3 as [E3 _].
      rewrite (flat_prices_lookup_ne _ _ _ _ _ E3) by compute_done.
      by rewrite !lookup_insert_ne by done.
  - intros fares i Fr Hfares Hid Hi.
    destruct (run_stages_with_fare _ _ _ _ _ _ H Hfares Hid Hi)
      as (bonds & hb & s2 & L1 & L2 & t & Hs2 & E2 & E3 & E4).
    apply Assemble_notes in E4
      as (_ & _ & _ & _ & _ & _ & code & Ec & ->).
    apply resolve_coupon_code_inv in Ec.
    rewrite !Hframe, Hfares in Ec by compute_done.
    rewrite (has_items_arr _ _ _ Hi), Hid, (at_arr _ _ _ Hi) in Ec.
    cbv zeta in Ec. subst code.
    rewrite (row_prices_lookup_ne _ _ _ _ _ _ _ _ _ _ _ E3) by compute_done.
    apply selected_fare_fields_inv in E2 as (_ & _ & _ & _ & _ & _ & _ & _ & ->).
    rewrite !lookup_insert_ne, Hn by done.
    destruct (js_lt _ _); [|done].
    unfold loose_ne.
    destruct (loose_eq (prop Fr "CC") (VStr "")); [done|].
    by destruct (not_null _).
Qed.

(** X19. The cancellation policy of the record is that of the first bound of
    the record when that bound has one, and the segment's [LCP] otherwise;
    the bounds after the first are not looked at. *)
Theorem cancellation_policy_of_the_first_bound s r s' :
  run s = (Ok r, s') →
  record_of r !! "lstCanPo" =
    Some (let first := prop (elem (field (record_of r) "bonds") 0) "lstCanPo" in
          if not_null first then first else field s "LCP").
Proof.
  intros H.
  destruct (run_bonds _ _ _ _ _ _ _ _ _ _ _ _ _ _ _ H)
    as (bonds & id0 & hb0 & s0 & E0 & Hbonds).
  apply run_stages in H
    as (bonds' & id & hb & s1 & L1 & s2 & L2 & E1 & E2 & E3 & E4).
  rewrite E0 in E1. injection E1 as <- <- <- <-.
  pose proof (before_aggregation _ _ _ _ _ _ _ _ _ _ _ _ _ "LCP" E0 E2) as Hs2.
  pose proof (Assemble_inv _ _ _ _ _ _ _ _ _ E4)
    as (_ & code & o & _ & -> & _ & _ & _ & _ & Ho).
  apply AggregatePrices_terms in E3 as [_ Hc].
  simpl in *.
  assert (elem (field o "bonds") 0 = nth_value bonds 0) as ->
    by (unfold field; by rewrite Hbonds).
  by rewrite Ho, Hc, Hs2 by first [done | compute_done].
Qed.

End RunFare.

(** ** The labels of a bound *)

Section Labels.

Variable LocalTZA : Z → Z.
Variable Res_L : value.

Lemma ConvertBound_labels fareId bc B0 id0 hb0 s B id hb s' :
  ConvertBound LocalTZA Res_L fareId bc (B0, id0, hb0) s = (Ok (B, id, hb), s') →
  has_items (field s "lstFr") = true →
  ∃ Bv, B = (B0 ++ [Bv])%list ∧ bound_labelled s fareId Bv ∧
    hb = baggage_flag s fareId ∧
    s' = <["l_HB" := prop (at_ (field s "lstFr") fareId) "IsHB"]> s.
Proof.
  unfold ConvertBound. intros H Hl. inv_M H; try congruence.
  all: match goal with
       | Ha : get_elem (field _ "lstFr") _ = Ok ?Fr,
         Hb : get_prop ?Fr "L_PF" = Ok ?L,
         Hc : get_elem ?L (VNum 0) = Ok ?P,
         Hd : get_prop ?P "RF" = Ok _ |- _ =>
           assert (first_row_has_baggage (field s0 "lstFr") fareId
                   = Ok (js_gt (parseInt (prop P "BW")) (VNum 0))) as Hpos
             by (unfold first_row_has_baggage;
                 rewrite Ha; cbn [mbind exc_bind];
                 rewrite Hb; cbn [mbind exc_bind];
                 rewrite Hc; cbn [mbind exc_bind];
                 rewrite (get_prop_total P "BW")
                   by (eapply get_prop_not_null; exact Hd);
                 reflexivity)
       end.
  all: rewrite Hpos in *; clear Hpos; name_reads.
  all: eexists; split; [reflexivity|].
  all: unfold bound_labelled, baggage_flag, first_row.
  all: split; [|done].
  all: split; apply prop_obj; lookup_back;
         [ apply lookup_insert_eq
         | rewrite lookup_set_if; destruct (js_gt _ _);
           [done | apply lookup_insert_eq] ].
Qed.

Lemma labels_frame v s fareId :
  field (<["l_HB" := v]> s) "lstFr" = field s "lstFr" ∧
  baggage_flag (<["l_HB" := v]> s) fareId = baggage_flag s fareId ∧
  ∀ B, bound_labelled (<["l_HB" := v]> s) fareId B ↔ bound_labelled s fareId B.
Proof.
  assert (field (<["l_HB" := v]> s) "lstFr" = field s "lstFr") as E
    by (unfold field; by rewrite lookup_insert_ne).
  unfold bound_labelled, baggage_flag, first_row. by rewrite E.
Qed.

Lemma for_M_labels fareId n :
  ∀ i B0 id0 hb0 s B id hb s',
    for_M (ConvertBound LocalTZA Res_L fareId) i n (B0, id0, hb0) s
      = (Ok (B, id, hb), s') →
    has_items (field s "lstFr") = true →
    ∃ B', B = (B0 ++ B')%list ∧
      (∀ Bv, Bv ∈ B' → bound_labelled s fareId Bv) ∧
      ((0 < n)%nat →
       hb = baggage_flag s fareId ∧
       s' !! "l_HB" = Some (prop (at_ (field s "lstFr") fareId) "IsHB")).
Proof.
  induction n as [|n IH]; intros i B0 id0 hb0 s B id hb s'; simpl.
  - intros [= <- <- <- <-] _. exists []. split; [by rewrite app_nil_r|].
    split; [by intros Bv ?%elem_of_nil | lia].
  - intros H Hl. apply M_bind_Ok in H as ([[B1 id1] hb1] & s1 & E & H).
    apply ConvertBound_labels in E as (Bv & -> & HBv & -> & ->); [|done].
    destruct (labels_frame (prop (at_ (field s "lstFr") fareId) "IsHB")
                s fareId) as (Ef & Eb & EB).
    pose proof H as H'.
    apply IH in H as (B' & -> & Hall & Hlast); [|by rewrite Ef].
    exists (Bv :: B'). split; [by rewrite <- app_assoc|]. split.
    + intros Bj [->|Hj]%elem_of_cons; [done|]. by apply EB, Hall.
    + intros _. destruct n as [|n].
      * simpl in H'. injection H' as _ _ <- <-.
        split; [done | apply lookup_insert_eq].
      * destruct Hlast as [-> ->]; [lia|]. by rewrite Eb, Ef.
Qed.

End Labels.

Lemma has_items_loop_count v :
  has_items v = true → (0 < loop_count (prop v "length"))%nat.
Proof.
  unfold has_items, prop. intros [_ H]%andb_true_iff.
  destruct (get_prop v "length") as [n|]; [|done].
  unfold js_gt, js_lt, loop_count in *. simpl in H.
  destruct n as [| |[]|z| |str|l|m]; simpl in *; try done;
    unfold to_number in *; simpl in *;
    repeat match goal with
           | H : context [StringToNumber ?x] |- _ => destruct (StringToNumber x)
           end;
    try done; apply Z.ltb_lt in H; lia.
Qed.

Section PlainLabels.

Variable LocalTZA : Z → Z.
Variable Res_L : value.

Lemma ConvertBound_plain fareId bc B0 id0 s B id hb s' :
  ConvertBound LocalTZA Res_L fareId bc (B0, id0, VBool false) s
    = (Ok (B, id, hb), s') →
  has_items (field s "lstFr") = false →
  ∃ Bv, B = (B0 ++ [Bv])%list ∧
    prop Bv "Refundable" =
      VStr (if loose_eq (field s "RF") (VBool true)
            then "Refundable" else "Non-Refundable") ∧
    hb = VBool false.
Proof.
  unfold ConvertBound. intros H Hl. inv_M H; try congruence.
  all: eexists; split; [reflexivity|].
  all: split; [|by destruct (match first_row_has_baggage _ _ with
                             | Ok b => b | Throw _ => false end)].
  all: apply prop_obj; lookup_back; apply lookup_insert_eq.
Qed.

Lemma for_M_plain fareId n :
  ∀ i B0 id0 s B id hb s',
    for_M (ConvertBound LocalTZA Res_L fareId) i n (B0, id0, VBool false) s
      = (Ok (B, id, hb), s') →
    has_items (field s "lstFr") = false →
    ∃ B', B = (B0 ++ B')%list ∧ hb = VBool false ∧
      ∀ Bv, Bv ∈ B' →
        prop Bv "Refundable" =
          VStr (if loose_eq (field s "RF") (VBool true)
                then "Refundable" else "Non-Refundable").
Proof.
  induction n as [|n IH]; intros i B0 id0 s B id hb s'; simpl.
  - intros [= <- <- <- <-] _. exists []. split; [by rewrite app_nil_r|].
    split; [done | by intros Bv ?%elem_of_nil].
  - intros H Hl. apply M_bind_Ok in H as ([[B1 id1] hb1] & s1 & E & H).
    pose proof (ConvertBound_keeps LocalTZA Res_L fareId i
                  (B0, id0, VBool false) s Hl _ _ E) as ->.
    apply ConvertBound_plain in E as (Bv & -> & HBv & ->); [|done].
    apply IH in H as (B' & -> & -> & Hall); [|done].
    exists (Bv :: B'). split; [by rewrite <- app_assoc|]. split; [done|].
    intros Bj [->|Hj]%elem_of_cons; [done|]. by apply Hall.
Qed.

End PlainLabels.

Section RunLabels.

Variable LocalTZA : Z → Z.
Variables Res_L org des frArmy frArmyRT : value.
Variables NoAdt NoChd NoInf FFare_L isRT_ fareId : value.

Abbreviation run :=
  (ConvertSegFinal LocalTZA Res_L org des frArmy frArmyRT NoAdt NoChd NoInf
                   FFare_L isRT_ fareId).

(** The loop over the bounds of a run that returns. *)
Lemma run_bounds_loop s r s' :
  run s = (Ok r, s') →
  ∃ bonds id hb s1 n,
    (0 < n)%nat ∧
    for_M (ConvertBound LocalTZA Res_L fareId) 0 n ([], VStr "", VBool false) s
      = (Ok (bonds, id, hb), s1) ∧
    record_of r !! "bonds" = Some (VArr bonds) ∧
    (∀ k, k ∉ ["Fr"; "CBAMT"; "Comm"; "TDS"; "SF"] → s' !! k = s1 !! k) ∧
    record_of r !! "IsHndBaggTp" =
      Some (if not_null (field s "Is_HBT") then field s "Is_HBT" else hb).
Proof.
  intros H.
  pose proof (run_has_bounds _ _ _ _ _ _ _ _ _ _ _ _ _ _ _ H) as Hb.
  pose proof (run_field _ _ _ _ _ _ _ _ _ _ _ _ s (Ok r) s' "Is_HBT" H
                ltac:(compute_done)) as Hframe.
  destruct (run_bonds _ _ _ _ _ _ _ _ _ _ _ _ _ _ _ H)
    as (bonds & id0 & hb0 & s0 & E0 & Hbonds).
  apply run_stages in H
    as (bonds' & id & hb & s1 & L1 & s2 & L2 & E1 & E2 & E3 & E4).
  rewrite E0 in E1. injection E1 as <- <- <- <-.
  apply Assemble_notes in E4 as (_ & _ & _ & _ & _ & Htp & _).
  rewrite Hframe in Htp.
  pose proof (SelectFare_modifies _ _ _ _ _ _ _ E2) as M2.
  pose proof (AggregatePrices_modifies _ _ _ _ _ _ _ _ _ E3) as M3.
  unfold ConvertBounds in E0.
  apply M_bind_Ok in E0 as (b & ? & [= <- <-] & E0). rewrite Hb in E0.
  apply M_bind_Ok in E0 as (len & ? & [E ->]%lift_Ok & E0).
  apply get_prop_prop in E as <-.
  exists bonds, id0, hb0, s0, (loop_count (prop (field s "b") "length")).
  split; [by apply has_items_loop_count|]. split; [done|]. split; [done|].
  split; [|done].
  intros k Hk. rewrite M3, M2; [done| |];
    intros Hin; apply Hk; revert Hin; rewrite !elem_of_cons; tauto.
Qed.

(** X20. With a fare-option list that is not empty, every bound of the record
    is labelled from the first passenger row of the selected option: its
    [Refundable] is the string [Refundable] when that row's [RF] is the
    string [True] and the string [Non-Refundable] when it is not, whatever
    the segment's own [RF] says, and its baggage-fare flag is the option's
    [IsHB], or [false] when the row's baggage weight is a positive
    number.  The option's [IsHB] is written on the segment's [l_HB], and the
    record's hand-baggage type is the segment's [Is_HBT] when it has one and
    the bounds' flag otherwise. *)
Theorem bound_labels_of_the_selected_fare s r s' fares (i : nat) Fr :
  run s = (Ok r, s') →
  field s "lstFr" = VArr fares → fareId = VNum (Z.of_nat i) →
  fares !! i = Some Fr →
  let row := at_ (prop Fr "L_PF") (VNum 0) in
  let flag :=
    if js_gt (parseInt (prop row "BW")) (VNum 0) then VBool false
    else prop Fr "IsHB" in
  (∀ bonds B, record_of r !! "bonds" = Some (VArr bonds) → B ∈ bonds →
     prop B "Refundable" =
       VStr (if loose_eq (prop row "RF") (VStr "True")
             then "Refundable" else "Non-Refundable") ∧
     prop B "IsBaggageFare" = flag) ∧
  s' !! "l_HB" = Some (prop Fr "IsHB") ∧
  record_of r !! "IsHndBaggTp" =
    Some (if not_null (field s "Is_HBT") then field s "Is_HBT" else flag).
Proof.
  intros H Hfares Hid Hi.
  apply run_bounds_loop in H
    as (bonds & id & hb & s1 & n & Hn & Hloop & Hbonds & Hs' & Htp).
  apply for_M_labels in Hloop as (B' & -> & Hall & Hlast);
    [|rewrite Hfares; by eapply has_items_arr].
  destruct (Hlast Hn) as [-> Hl].
  unfold bound_labelled, baggage_flag, first_row in *.
  rewrite Hfares, Hid, (at_arr _ _ _ Hi) in *.
  cbv zeta. split; [|split].
  - intros bonds B. rewrite Hbonds. intros [= <-] HB. by apply Hall.
  - rewrite Hs' by compute_done. done.
  - done.
Qed.

(** X21. Without fare options every bound of the record is labelled from the
    segment: its [Refundable] is the string [Refundable] when the segment's
    [RF] is loosely [true] and the string [Non-Refundable] when it is not;
    nothing raises the hand-baggage flag, so the record's hand-baggage type
    is the segment's [Is_HBT] when it has one and [false] otherwise. *)
Theorem bound_labels_without_fares s r s' :
  run s = (Ok r, s') →
  has_items (field s "lstFr") = false →
  (∀ bonds B, record_of r !! "bonds" = Some (VArr bonds) → B ∈ bonds →
     prop B "Refundable" =
       VStr (if loose_eq (field s "RF") (VBool true)
             then "Refundable" else "Non-Refundable")) ∧
  record_of r !! "IsHndBaggTp" =
    Some (if not_null (field s "Is_HBT") then field s "Is_HBT"
          else VBool false).
Proof.
  intros H Hl.
  apply run_bounds_loop in H
    as (bonds & id & hb & s1 & n & Hn & Hloop & Hbonds & Hs' & Htp).
  apply for_M_plain in Hloop as (B' & -> & -> & Hall); [|done].
  split; [|done].
  intros bonds B. rewrite Hbonds. intros [= <-] HB. by apply Hall.
Qed.

End RunLabels.

(** ** Rows that the aggregation cannot read *)

Section RowErrors.

Variables NoAdt NoChd NoInf : value.

Lemma AddRow_label row t t' :
  AddRow NoAdt NoChd NoInf row t = Ok t' → ∃ pt, prop row "PT" = VStr pt.
Proof.
  unfold AddRow. intros H. inv_exc H. name_reads.
  destruct (prop row "PT"); try discriminate. by eexists.
Qed.

Lemma PriceRows_each_row rows t :
  PriceRows NoAdt NoChd NoInf (VArr rows) = Ok t →
  ∀ row, row ∈ rows → ∃ t0 t1, AddRow NoAdt NoChd NoInf row t0 = Ok t1.
Proof.
  unfold PriceRows. destruct (has_items (VArr rows)) eqn:Hi.
  - intros (len & [= <-] & H)%exc_bind_Ok.
    rewrite loop_count_nat in H.
    assert (∀ n i t0,
      (i + n = length rows)%nat →
      for_exc (λ pxfrC t, row ← get_elem (VArr rows) (VNum (Z.of_nat pxfrC));
                          AddRow NoAdt NoChd NoInf row t) i n t0 = Ok t →
      ∀ j row, (i ≤ j)%nat → rows !! j = Some row →
        ∃ ta tb, AddRow NoAdt NoChd NoInf row ta = Ok tb) as Hgen.
    { clear H. induction n as [|n IH]; intros i t0 Hlen; cbn [for_exc].
      - intros _ j row Hj Hrow. apply lookup_lt_Some in Hrow. lia.
      - intros (t1 & E & H)%exc_bind_Ok j row Hj Hrow.
        apply exc_bind_Ok in E as (row' & Er & E).
        rewrite get_elem_arr in Er. injection Er as <-.
        destruct (decide (j = i)) as [->|Hne].
        + rewrite Hrow in E. simpl in E. by exists t0, t1.
        + apply (IH (S i) t1 ltac:(lia) H j); [lia | done]. }
    intros row [j Hj]%list_elem_of_lookup_1.
    apply (Hgen (length rows) 0%nat totals0 eq_refl H j row); [lia | done].
  - intros _ row Hrow. destruct rows as [|row' rows];
      [by apply elem_of_nil in Hrow|].
    unfold has_items in Hi. simpl in Hi. unfold js_gt, js_lt in Hi. simpl in Hi.
    apply Z.ltb_ge in Hi. lia.
Qed.

End RowErrors.

Section RunRows.

Variable LocalTZA : Z → Z.
Variables Res_L org des frArmy frArmyRT : value.
Variables NoAdt NoChd NoInf FFare_L isRT_ fareId : value.

Abbreviation run :=
  (ConvertSegFinal LocalTZA Res_L org des frArmy frArmyRT NoAdt NoChd NoInf
                   FFare_L isRT_ fareId).

(** X22. A passenger row of the selected option whose type is not a string
    makes the script throw, wherever the row stands in the list: the type is
    upper-cased before it is compared. *)
Theorem row_without_type_throws s fares (i : nat) Fr rows row :
  field s "lstFr" = VArr fares → fareId = VNum (Z.of_nat i) →
  fares !! i = Some Fr →
  prop Fr "L_PF" = VArr rows → row ∈ rows →
  (∀ pt, prop row "PT" ≠ VStr pt) →
  ∃ s', run s = (Throw TypeError, s').
Proof.
  intros Hfares Hid Hi Hrows Hrow Hpt.
  destruct (run s) as [[r|[]] s'] eqn:H; [exfalso|by exists s'].
  destruct (run_row_prices _ _ _ _ _ _ _ _ _ _ _ _ _ _ _ _ _ _ H Hfares Hid Hi)
    as (t & Ep & _).
  rewrite Hrows in Ep.
  destruct (PriceRows_each_row _ _ _ _ _ Ep row Hrow) as (ta & tb & E).
  apply AddRow_label in E as [pt E]. by eapply Hpt.
Qed.

End RunRows.

(** ** The head of a leg and its checked baggage *)

Lemma leg_head_inv Res_L fleg (o : obj) :
  leg_head Res_L fleg = Ok o →
  (∃ og dt,
     place Res_L (prop fleg "OG") = Ok og ∧
     place Res_L (prop fleg "DT") = Ok dt ∧
     o !! "org" = Some og ∧ o !! "dest" = Some dt) ∧
  GetAirLineName Res_L (prop fleg "AC") = Ok (default VUndef (o !! "airName")) ∧
  o !! "depDT" = Some (prop fleg "DDT") ∧
  o !! "BaggageUnit" = None ∧ o !! "BaggageWeight" = None.
Proof.
  unfold leg_head. intros H.
  apply exc_bind_Ok in H as (AC & EAC & H). apply get_prop_prop in EAC as <-.
  apply exc_bind_Ok in H as (airName & Eair & H).
  apply exc_bind_Ok in H as (OG & EOG & H). apply get_prop_prop in EOG as <-.
  apply exc_bind_Ok in H as (og & Eog & H).
  apply exc_bind_Ok in H as (DT & EDT & H). apply get_prop_prop in EDT as <-.
  apply exc_bind_Ok in H as (dt & Edt & H).
  split; [exists og, dt; repeat split; try done; by lookup_back;
          rewrite ?lookup_insert_eq|].
  split; [by lookup_back; rewrite lookup_insert_eq|].
  split; [by eapply copy_prop_lookup|].
  split; by lookup_back.
Qed.

Lemma leg_details_head_ne bnd fleg lc (o o' : obj) k :
  leg_details bnd fleg lc o = Ok o' →
  k ∈ ["airName"; "org"; "dest"; "depDT"] → o' !! k = o !! k.
Proof.
  unfold leg_details. intros H Hk. inv_exc H.
  all: apply list_elem_of_In in Hk; simpl in Hk;
    destruct Hk as [<-|[<-|[<-|[<-|[]]]]]; by lookup_back.
Qed.

Lemma leg_baggage_inv bnd lc (o o' : obj) :
  leg_baggage bnd lc o = Ok o' →
  not_null (prop bnd "lstBagg") = true ∧
  if js_gt (prop (prop bnd "lstBagg") "length") (VNum (Z.of_nat lc)) then
    ∃ p, js_split (at_ (prop bnd "lstBagg") (VNum (Z.of_nat lc))) "|" = Ok p ∧
         o' !! "BaggageUnit" = Some (nth_value p 0) ∧
         o' !! "BaggageWeight" = Some (nth_value p 1)
  else o' !! "BaggageUnit" = o !! "BaggageUnit" ∧
       o' !! "BaggageWeight" = o !! "BaggageWeight".
Proof.
  unfold leg_baggage. intros H.
  apply exc_bind_Ok in H as (lstBagg & E1 & H).
  apply get_prop_prop in E1 as <-.
  apply exc_bind_Ok in H as (len & E2 & H).
  pose proof (get_prop_not_null _ _ _ E2) as Hn.
  apply get_prop_prop in E2 as <-.
  split; [done|].
  apply exc_bind_Ok in H as (o1 & E3 & H).
  assert (o' !! "BaggageUnit" = o1 !! "BaggageUnit" ∧
          o' !! "BaggageWeight" = o1 !! "BaggageWeight") as [-> ->]
    by (inv_exc H; split; by lookup_back).
  destruct (js_gt _ _); [|by injection E3 as <-].
  apply exc_bind_Ok in E3 as (e & Ee & E3). apply get_elem_at in Ee as <-.
  apply set_split_lookup in E3 as (p & ? & ? & ?); [|done]. eauto.
Qed.

Lemma leg_provider_plain seg_ bnd fleg fareId lc id (o o' : obj) id' :
  leg_provider seg_ bnd fleg fareId lc id o = Ok (o', id') →
  has_fare_keys bnd fareId && fare_keys_cover seg_ bnd fareId lc = false →
  o' !! "BaggageUnit" = o !! "BaggageUnit" ∧
  o' !! "BaggageWeight" = o !! "BaggageWeight".
Proof.
  unfold leg_provider, has_fare_keys, fare_keys_cover, fare_key.
  intros H. inv_exc H; name_reads; intros Hk.
  all: try (split; by lookup_back).
  all: repeat match goal with H : _ = true |- _ => rewrite H in Hk end.
  all: done.
Qed.

Lemma append_assoc (s t u : string) : (s +:+ t) +:+ u = s +:+ (t +:+ u).
Proof.
  induction s as [|x s IH]; [done|].
  change (String x ((s +:+ t) +:+ u) = String x (s +:+ t +:+ u)).
  by rewrite IH.
Qed.

(** The string that the script joins with bars. *)
Lemma bar_join code name country :
  js_add (js_add (js_add (js_add code (VStr "|")) name) (VStr "|")) country
    = VStr (to_string code +:+ "|" +:+ to_string name
            +:+ "|" +:+ to_string country).
Proof.
  assert (∀ x v, js_add (VStr x) v = VStr (x +:+ to_string v)) as Hs
    by (intros x []; done).
  assert (js_add code (VStr "|") = VStr (to_string code +:+ "|")) as ->
    by (destruct code as [| |[]| | | | |]; done).
  rewrite !Hs. cbn [to_string]. by rewrite !append_assoc.
Qed.

Lemma place_inv Res_L code v :
  place Res_L code = Ok v →
  ∃ name country,
    GetAirportName Res_L code = Ok name ∧
    CountryName Res_L code = Ok country ∧
    v = VStr (to_string code +:+ "|" +:+ to_string name
              +:+ "|" +:+ to_string country).
Proof.
  unfold place. intros H.
  apply exc_bind_Ok in H as (name & Hn & H).
  apply exc_bind_Ok in H as (country & Hc & [= <-]).
  exists name, country. by rewrite bar_join.
Qed.

Section LegHead.

Variable LocalTZA : Z → Z.
Variables Res_L org des frArmy frArmyRT : value.
Variables NoAdt NoChd NoInf FFare_L isRT_ fareId : value.

Abbreviation run :=
  (ConvertSegFinal LocalTZA Res_L org des frArmy frArmyRT NoAdt NoChd NoInf
                   FFare_L isRT_ fareId).

Lemma ConvertLeg_head seg_ bnd lc id fLeg_L id' :
  ConvertLeg LocalTZA Res_L seg_ bnd fareId lc id = Ok (fLeg_L, id') →
  let fleg := raw_leg Res_L bnd lc in
  (∃ og dt,
     place Res_L (prop fleg "OG") = Ok og ∧
     place Res_L (prop fleg "DT") = Ok dt ∧
     fLeg_L !! "org" = Some og ∧ fLeg_L !! "dest" = Some dt) ∧
  GetAirLineName Res_L (prop fleg "AC")
    = Ok (default VUndef (fLeg_L !! "airName")) ∧
  fLeg_L !! "depDT" = Some (prop fleg "DDT") ∧
  not_null (prop bnd "lstBagg") = true ∧
  not_null (prop bnd "lFC") = true ∧
  (has_fare_keys bnd fareId && fare_keys_cover seg_ bnd fareId lc = false →
   if js_gt (prop (prop bnd "lstBagg") "length") (VNum (Z.of_nat lc)) then
     ∃ p, js_split (at_ (prop bnd "lstBagg") (VNum (Z.of_nat lc))) "|" = Ok p ∧
          fLeg_L !! "BaggageUnit" = Some (nth_value p 0) ∧
          fLeg_L !! "BaggageWeight" = Some (nth_value p 1)
   else fLeg_L !! "BaggageUnit" = None ∧ fLeg_L !! "BaggageWeight" = None).
Proof.
  unfold ConvertLeg, raw_leg. intros H.
  apply exc_bind_Ok in H as (FL & EFL & H).
  apply exc_bind_Ok in H as (key_ & Ekey & H).
  apply exc_bind_Ok in H as (fleg & Efleg & H).
  apply exc_bind_Ok in H as (o1 & Hh & H).
  apply exc_bind_Ok in H as (o2 & Hl & H).
  apply exc_bind_Ok in H as (o3 & Hd & H).
  apply exc_bind_Ok in H as (o4 & Hb & H).
  apply get_prop_prop in EFL as <-. apply get_elem_at in Ekey as <-.
  rewrite Efleg. cbv zeta.
  pose proof (λ k, leg_provider_lookup_ne _ _ _ _ _ _ _ _ _ k H) as Hp.
  pose proof (λ k, leg_baggage_lookup_ne _ _ _ _ k Hb) as Hbg.
  pose proof (λ k, leg_details_head_ne _ _ _ _ _ k Hd) as Hdt.
  pose proof (λ k, legacy_hand_baggage_lookup_ne _ _ _ _ _ k Hl) as Hlg.
  rewrite !Hp, !Hbg, !Hdt, !Hlg by first [done | compute_done].
  apply leg_head_inv in Hh as (Hpl & Hair & Hdep & Hu & Hw).
  do 3 (split; [done|]).
  apply leg_baggage_inv in Hb as [Hn Hb]. split; [done|].
  split.
  { unfold leg_details in Hd.
    apply exc_bind_Ok in Hd as (? & _ & Hd).
    apply exc_bind_Ok in Hd as (lFC & E1 & Hd).
    apply exc_bind_Ok in Hd as (? & E2 & _).
    apply get_prop_prop in E1 as <-.
    destruct (prop bnd "lFC"); try done. }
  intros Hk. apply (leg_provider_plain _ _ _ _ _ _ _ _ _ H) in Hk as [-> ->].
  destruct (js_gt _ _); [done|]. destruct Hb as [-> ->].
  rewrite !(leg_details_lookup_ne _ _ _ _ _ _ Hd) by compute_done.
  by rewrite !Hlg.
Qed.

(** X24. The places and the carrier of a returned leg: its origin is the
    string made of the leg's origin code, a bar, the name that
    [GetAirportName] answers for the code, a bar and the country that
    [CountryName] answers for it, each turned into a string, and its
    destination is made the same way from the destination code; the carrier
    name is the carrier table's entry; the departure timestamp is the leg's
    own. *)
Theorem leg_places_and_carrier s r s' bs bc bnd keys lc :
  run s = (Ok r, s') →
  field s "b" = VArr bs → bs !! bc = Some bnd →
  prop bnd "FL" = VArr keys → (lc < length keys)%nat →
  let fleg := raw_leg Res_L bnd lc in
  let leg := out_leg r bc lc in
  (∀ code place_, (code, place_) ∈ [("OG", "org"); ("DT", "dest")] →
     ∃ name country,
       GetAirportName Res_L (prop fleg code) = Ok name ∧
       CountryName Res_L (prop fleg code) = Ok country ∧
       prop leg place_ =
         VStr (to_string (prop fleg code) +:+ "|" +:+ to_string name
               +:+ "|" +:+ to_string country)) ∧
  GetAirLineName Res_L (prop fleg "AC") = Ok (prop leg "airName") ∧
  prop leg "depDT" = prop fleg "DDT".
Proof.
  intros H Hb Hbc HFL Hlc.
  destruct (run_leg _ _ _ _ _ _ _ _ _ _ _ _ _ _ _ _ _ _ _ _ H Hb Hbc HFL Hlc)
    as (s_bc & fLeg_L & id & id' & _ & Hleg & ->).
  apply ConvertLeg_head in Hleg
    as ((og & dt & Hog & Hdt & Ho & Hd) & Hair & Hdep & _).
  cbv zeta. split; [|split].
  - intros code place_ Hin. apply list_elem_of_In in Hin. simpl in Hin.
    destruct Hin as [[= <- <-]|[[= <- <-]|[]]].
    + apply place_inv in Hog as (name & country & ? & ? & ->).
      exists name, country. by rewrite (prop_obj _ _ _ Ho).
    + apply place_inv in Hdt as (name & country & ? & ? & ->).
      exists name, country. by rewrite (prop_obj _ _ _ Hd).
  - unfold prop at 2. simpl. unfold field.
    destruct (fLeg_L !! "airName"); done.
  - by rewrite (prop_obj _ _ _ Hdep).
Qed.

(** X25. The checked baggage of a returned leg that the selected fare's booking
    keys do not cover: the two parts of the bound's plain [unit|weight]
    string at the leg's position when the plain list is long enough, and no
    baggage at all otherwise; the leg dictionary's own baggage is not
    read. *)
Theorem checked_baggage_of_the_plain_list s r s' bs bc bnd keys lc :
  run s = (Ok r, s') →
  field s "b" = VArr bs → bs !! bc = Some bnd →
  prop bnd "FL" = VArr keys → (lc < length keys)%nat →
  has_fare_keys bnd fareId && fare_keys_cover s bnd fareId lc = false →
  let leg := out_leg r bc lc in
  if js_gt (prop (prop bnd "lstBagg") "length") (VNum (Z.of_nat lc)) then
    ∃ p, js_split (at_ (prop bnd "lstBagg") (VNum (Z.of_nat lc))) "|" = Ok p ∧
         prop leg "BaggageUnit" = nth_value p 0 ∧
         prop leg "BaggageWeight" = nth_value p 1
  else prop leg "BaggageUnit" = VUndef ∧ prop leg "BaggageWeight" = VUndef.
Proof.
  intros H Hb Hbc HFL Hlc Hk.
  destruct (run_leg _ _ _ _ _ _ _ _ _ _ _ _ _ _ _ _ _ _ _ _ H Hb Hbc HFL Hlc)
    as (s_bc & fLeg_L & id & id' & Hs & Hleg & ->).
  destruct (fare_keys_agree fareId _ _ bnd lc Hs) as [Hk1 _].
  rewrite <- Hk1 in Hk.
  apply ConvertLeg_head in Hleg as (_ & _ & _ & _ & _ & Hbg).
  specialize (Hbg Hk). cbv zeta.
  destruct (js_gt _ _).
  - destruct Hbg as (p & Hp & Hu & Hw). exists p.
    by rewrite (prop_obj _ _ _ Hu), (prop_obj _ _ _ Hw).
  - destruct Hbg as [Hu Hw]. unfold prop. simpl. unfold field.
    by rewrite Hu, Hw.
Qed.

(** X26. A bound with a leg and without the per-leg list of checked baggage, or
    without the per-leg list of fare classes, makes the script throw: both
    lists are read without a test. *)
Theorem bound_without_lists_throws s bs bc bnd keys lc :
  field s "b" = VArr bs → bs !! bc = Some bnd →
  prop bnd "FL" = VArr keys → (lc < length keys)%nat →
  not_null (prop bnd "lstBagg") && not_null (prop bnd "lFC") = false →
  ∃ s', run s = (Throw TypeError, s').
Proof.
  intros Hb Hbc HFL Hlc Hn.
  destruct (run s) as [[r|[]] s'] eqn:H; [exfalso|by exists s'].
  destruct (run_leg _ _ _ _ _ _ _ _ _ _ _ _ _ _ _ _ _ _ _ _ H Hb Hbc HFL Hlc)
    as (s_bc & fLeg_L & id & id' & _ & Hleg & _).
  apply ConvertLeg_head in Hleg as (_ & _ & _ & H1 & H2 & _).
  by rewrite H1, H2 in Hn.
Qed.

End LegHead.

(** ** The fields of a bound *)

Lemma prop_obj_None (m : obj) k : m !! k = None → prop (VObj m) k = VUndef.
Proof. intros H. unfold prop. simpl. unfold field. by rewrite H. Qed.

Lemma leg_provider_key seg_ bnd fleg fareId lc id (o o' : obj) id' :
  leg_provider seg_ bnd fleg fareId lc id o = Ok (o', id') →
  id' = if has_fare_keys bnd fareId then fare_key seg_ fareId else id.
Proof.
  unfold leg_provider, has_fare_keys, fare_key.
  intros H. inv_exc H; name_reads.
  all: repeat match goal with H : _ = true |- _ => rewrite H
                         | H : _ = false |- _ => rewrite H end.
  all: done.
Qed.

Section BoundFields.

Variable LocalTZA : Z → Z.
Variable Res_L : value.

Lemma ConvertLegs_key seg_ bnd fareId n id Legs id' :
  ConvertLegs LocalTZA Res_L seg_ bnd fareId n id = Ok (Legs, id') →
  id' = if has_fare_keys bnd fareId && (0 <? n)%nat
        then fare_key seg_ fareId else id.
Proof.
  unfold ConvertLegs.
  assert (∀ n i (L0 : list value) id0 L id1,
    for_exc
      (λ lc (st : list value * value),
         '(fLeg_L, idFareBK) ← ConvertLeg LocalTZA Res_L seg_ bnd fareId lc st.2;
         Ok ((st.1 ++ [VObj fLeg_L])%list, idFareBK)) i n (L0, id0) = Ok (L, id1) →
    id1 = if has_fare_keys bnd fareId && (0 <? n)%nat
          then fare_key seg_ fareId else id0) as Hgen.
  { clear. induction n as [|n IH]; intros i L0 id0 L id1; cbn [for_exc].
    - intros [= <- <-]. by rewrite andb_false_r.
    - intros (st & E & H)%exc_bind_Ok.
      apply exc_bind_Ok in E as ([leg idn] & E & [= <-]). simpl in *.
      apply IH in H as ->.
      unfold ConvertLeg in E.
      do 7 (apply exc_bind_Ok in E as (? & _ & E)).
      apply leg_provider_key in E as ->.
      destruct (has_fare_keys bnd fareId); [|done].
      by destruct (0 <? n)%nat. }
  apply Hgen.
Qed.

Lemma ConvertBound_fields fareId bc B0 id0 hb0 s B id hb s' :
  ConvertBound LocalTZA Res_L fareId bc (B0, id0, hb0) s = (Ok (B, id, hb), s') →
  ∃ Bv, B = (B0 ++ [Bv])%list ∧ bound_fields fareId s bc Bv.
Proof.
  unfold ConvertBound. intros H. inv_M H.
  all: match goal with
       | H : ConvertLegs _ _ _ _ _ _ _ = Ok _ |- _ =>
           apply ConvertLegs_key in H
       end.
  all: try match goal with
           | C : not_null ?d = true, E : context [get_elem ?d ?i] |- _ =>
               rewrite (get_elem_total d i C) in E; discriminate E
           end.
  all: name_reads.
  all: eexists; split; [reflexivity|]; unfold bound_fields; cbv zeta.
  all: repeat match goal with H : not_null _ = _ |- _ => rewrite H end.
  all: split; [apply prop_obj; lookup_back; eapply copy_prop_lookup; eassumption|].
  all: split; [apply prop_obj; lookup_back;
               eapply copy_props_lookup; first [eassumption | compute_done]|].
  all: split; [apply prop_obj; lookup_back;
               eapply copy_props_lookup; first [eassumption | compute_done]|].
  all: split;
    [ first [ apply prop_obj; lookup_back; apply lookup_set_if_true
            | apply prop_obj_None; lookup_back; unfold set_if; lookup_back;
              apply lookup_empty ]
    | intros Hk Hn; apply Nat.ltb_lt in Hn; rewrite Hk, Hn in *;
      cbn [andb] in *; subst;
      first [ apply prop_obj; apply lookup_insert_eq
            | apply prop_obj_None; lookup_back; unfold set_if; lookup_back;
              apply lookup_empty ] ].
Qed.

Lemma bound_fields_agree fareId s s1 bc B :
  agree_off ["l_HB"] s s1 → bound_fields fareId s1 bc B →
  bound_fields fareId s bc B.
Proof.
  intros Hs. unfold bound_fields, fare_key.
  by rewrite (agree_off_field _ _ _ "b" Hs), (agree_off_field _ _ _ "lstFr" Hs)
    by compute_done.
Qed.

Lemma for_M_bound_fields fareId n :
  ∀ i B0 id0 hb0 s B id hb s',
    for_M (ConvertBound LocalTZA Res_L fareId) i n (B0, id0, hb0) s
      = (Ok (B, id, hb), s') →
    ∃ B', B = (B0 ++ B')%list ∧
      ∀ j Bj, B' !! j = Some Bj → bound_fields fareId s (i + j) Bj.
Proof.
  induction n as [|n IH]; intros i B0 id0 hb0 s B id hb s'; cbn [for_M].
  - intros [= <- <- <- <-]. exists []. split; [by rewrite app_nil_r|].
    intros j Bj Hj. by rewrite lookup_nil in Hj.
  - intros H. apply M_bind_Ok in H as ([[B1 id1] hb1] & s1 & E & H).
    pose proof (ConvertBound_modifies LocalTZA Res_L fareId i (B0, id0, hb0)
                  s _ s1 E) as Hs1.
    apply ConvertBound_fields in E as (Bv & -> & HBv).
    apply IH in H as (B' & -> & Hall).
    exists (Bv :: B'). split; [by rewrite <- app_assoc|].
    intros [|j] Bj Hj; simpl in Hj.
    + injection Hj as <-. by rewrite Nat.add_0_r.
    + replace (i + S j)%nat with (S i + j)%nat by lia.
      eapply bound_fields_agree; [exact Hs1 | by apply Hall].
Qed.

End BoundFields.

Section RunBoundFields.

Variable LocalTZA : Z → Z.
Variables Res_L org des frArmy frArmyRT : value.
Variables NoAdt NoChd NoInf FFare_L isRT_ fareId : value.

Abbreviation run :=
  (ConvertSegFinal LocalTZA Res_L org des frArmy frArmyRT NoAdt NoChd NoInf
                   FFare_L isRT_ fareId).

(** X27. The fields of a bound of the record: its details, journey time and
    connection type are the segment's bound's; it carries the bound's
    cancellation-policy dictionary when there is one; and when the bound has
    booking keys by fare and at least one leg, its cancellation policy is
    the dictionary's entry for the selected option's key [fs]. *)
Theorem bound_fields_of_the_record s r s' bs bc bnd :
  run s = (Ok r, s') →
  field s "b" = VArr bs → bs !! bc = Some bnd →
  let B := elem (field (record_of r) "bonds") bc in
  let dct := prop bnd "dctCanPo" in
  prop B "bndDTL" = prop bnd "BDT" ∧
  prop B "JrnyTm" = prop bnd "JyTm" ∧
  prop B "ConnType" = prop bnd "CT" ∧
  prop B "dctCanPo" = (if not_null dct then dct else VUndef) ∧
  (has_fare_keys bnd fareId = true →
   (0 < loop_count (prop (prop bnd "FL") "length"))%nat →
   prop B "lstCanPo" =
     if not_null dct then at_ dct (fare_key s fareId) else VUndef).
Proof.
  intros H Hb Hbc.
  destruct (run_bonds _ _ _ _ _ _ _ _ _ _ _ _ _ _ _ H)
    as (bonds & id & hb & s1 & E0 & Hbonds).
  unfold ConvertBounds in E0.
  apply M_bind_Ok in E0 as (b & ? & [= <- <-] & E0).
  rewrite Hb, (has_items_arr _ _ _ Hbc) in E0.
  apply M_bind_Ok in E0 as (len & ? & [E ->]%lift_Ok & E0).
  apply get_prop_prop in E as <-.
  change (prop (VArr bs) "length") with (VNum (Z.of_nat (length bs))) in E0.
  rewrite loop_count_nat in E0.
  pose proof E0 as Hlen.
  apply for_M_ConvertBound in Hlen as (_ & B' & HB' & Hlen & _).
  simpl in HB'. subst bonds.
  apply for_M_bound_fields in E0 as (B'' & HB'' & Hall).
  simpl in HB''. subst B''.
  destruct (lookup_lt_is_Some_2 B' bc) as [Bv HBv];
    [rewrite Hlen; by eapply lookup_lt_Some|].
  specialize (Hall bc Bv HBv). simpl in Hall. unfold bound_fields in Hall.
  rewrite Hb, (at_arr _ _ _ Hbc) in Hall.
  assert (elem (field (record_of r) "bonds") bc = Bv) as ->
    by (unfold field; rewrite Hbonds; simpl; by rewrite HBv).
  exact Hall.
Qed.

End RunBoundFields.

(** ** What a leg copies from the leg dictionary *)

Lemma leg_details_copies bnd fleg lc (o o' : obj) a b :
  leg_details bnd fleg lc o = Ok o' →
  (a, b) ∈ take 17 leg_copied → o' !! b = Some (prop fleg a).
Proof.
  unfold leg_details. intros H Hab.
  apply list_elem_of_In in Hab. simpl in Hab.
  inv_exc H.
  all: repeat (destruct Hab as [[= <- <-]|Hab];
               [lookup_back;
                eapply copy_props_lookup; first [eassumption | compute_done]|]).
  all: destruct Hab.
Qed.

Lemma leg_provider_copies seg_ bnd fleg fareId lc id (o o' : obj) id' a b :
  leg_provider seg_ bnd fleg fareId lc id o = Ok (o', id') →
  (a, b) ∈ drop 17 leg_copied → o' !! b = Some (prop fleg a).
Proof.
  unfold leg_provider. intros H Hab.
  apply list_elem_of_In in Hab. simpl in Hab.
  inv_exc H.
  all: repeat (destruct Hab as [[= <- <-]|Hab];
               [lookup_back;
                eapply copy_props_lookup; first [eassumption | compute_done]|]).
  all: destruct Hab.
Qed.

Section LegCopies.

Variable LocalTZA : Z → Z.
Variables Res_L org des frArmy frArmyRT : value.
Variables NoAdt NoChd NoInf FFare_L isRT_ fareId : value.

Abbreviation run :=
  (ConvertSegFinal LocalTZA Res_L org des frArmy frArmyRT NoAdt NoChd NoInf
                   FFare_L isRT_ fareId).

Lemma ConvertLeg_copies seg_ bnd lc id fLeg_L id' a b :
  ConvertLeg LocalTZA Res_L seg_ bnd fareId lc id = Ok (fLeg_L, id') →
  (a, b) ∈ leg_copied → fLeg_L !! b = Some (prop (raw_leg Res_L bnd lc) a).
Proof.
  unfold ConvertLeg, raw_leg. intros H Hab.
  apply exc_bind_Ok in H as (FL & EFL & H).
  apply exc_bind_Ok in H as (key_ & Ekey & H).
  apply exc_bind_Ok in H as (fleg & Efleg & H).
  apply exc_bind_Ok in H as (o1 & _ & H).
  apply exc_bind_Ok in H as (o2 & _ & H).
  apply exc_bind_Ok in H as (o3 & Hd & H).
  apply exc_bind_Ok in H as (o4 & Hb & H).
  apply get_prop_prop in EFL as <-. apply get_elem_at in Ekey as <-.
  rewrite Efleg.
  rewrite <- (take_drop 17 leg_copied) in Hab.
  apply elem_of_app in Hab as [Hab|Hab].
  - rewrite <- (leg_details_copies _ _ _ _ _ _ _ Hd Hab).
    pose proof (λ k, leg_provider_lookup_ne _ _ _ _ _ _ _ _ _ k H) as Hp.
    pose proof (λ k, leg_baggage_lookup_ne _ _ _ _ k Hb) as Hbg.
    apply list_elem_of_In in Hab. simpl in Hab.
    repeat (destruct Hab as [[= <- <-]|Hab];
            [by rewrite Hp, Hbg by compute_done|]).
    destruct Hab.
  - by eapply leg_provider_copies.
Qed.

(** X28. Twenty fields of a returned leg are the leg dictionary's own, under
    the record's names: times, flight number, carrier code, stops, currency,
    cabin, duration, terminals, group, aircraft, seats, layover place and
    duration, operator, equipment, seat availability and reference key. *)
Theorem leg_copies_the_dictionary s r s' bs bc bnd keys lc a b :
  run s = (Ok r, s') →
  field s "b" = VArr bs → bs !! bc = Some bnd →
  prop bnd "FL" = VArr keys → (lc < length keys)%nat →
  (a, b) ∈ leg_copied →
  prop (out_leg r bc lc) b = prop (raw_leg Res_L bnd lc) a.
Proof.
  intros H Hb Hbc HFL Hlc Hab.
  destruct (run_leg _ _ _ _ _ _ _ _ _ _ _ _ _ _ _ _ _ _ _ _ H Hb Hbc HFL Hlc)
    as (s_bc & fLeg_L & id & id' & _ & Hleg & ->).
  apply prop_obj. by eapply ConvertLeg_copies.
Qed.

End LegCopies.

(** * The sample runs *)

Lemma returns_returned x : returns x = true → x = (Ok (returned x), x.2).
Proof. destruct x as [[r|e] s]; [done | discriminate]. Qed.

Lemma flat_run :
  sample_call flat_seg
    = (Ok (returned (sample_call flat_seg)), (sample_call flat_seg).2).
Proof. apply returns_returned. vm_compute. reflexivity. Qed.

Lemma fare_run :
  sample_call fare_seg
    = (Ok (returned (sample_call fare_seg)), (sample_call fare_seg).2).
Proof. apply returns_returned. vm_compute. reflexivity. Qed.

Lemma flat_with_fare_run :
  sample_call flat_seg_with_fare
    = (Ok (returned (sample_call flat_seg_with_fare)),
       (sample_call flat_seg_with_fare).2).
Proof. apply returns_returned. vm_compute. reflexivity. Qed.

Lemma C1_counterexample :
  field flat_seg "EID" = VNum 1 ∧
  covers (prop plain_bound "lstHBagg") 0 = false ∧
  has_fare_keys plain_bound (VNum 0) = false ∧
  returns (sample_call flat_seg) = true ∧
  prop (out_leg (returned (sample_call flat_seg)) 0 0) "HBU" = VStr "PC" ∧
  prop (out_leg (returned (sample_call flat_seg)) 0 0) "HBW" = VNum 1 ∧
  prop (out_leg (returned (sample_call flat_seg)) 0 1) "HBU" = VStr "PC" ∧
  prop (out_leg (returned (sample_call flat_seg)) 0 1) "HBW" = VNum 1.
Proof. (repeat split; vm_compute; reflexivity). Qed.

Lemma C1_witness :
  prop (out_leg (returned (sample_call flat_seg)) 0 1) "HBU"
    = prop (raw_leg sample_Res plain_bound 1) "HBU" ∧
  prop (out_leg (returned (sample_call flat_seg)) 0 1) "HBW"
    = prop (raw_leg sample_Res plain_bound 1) "HBW".
Proof.
  (eapply C1_hand_baggage_is_the_legs_own
    with (bs := [plain_bound]) (bnd := plain_bound)
         (keys := [VStr "K1"; VStr "K2"]);
    first [exact flat_run | vm_compute; reflexivity | vm_compute; lia]).
Defined.

Lemma C2_counterexample :
  has_fare_keys fare_bound (VNum 0) = true ∧
  fare_keys_cover fare_seg fare_bound (VNum 0) 0 = true ∧
  covers (prop fare_bound "lstBagg") 0 = true ∧
  field fare_seg "EID" = VNum 1 ∧
  fare_baggage fare_seg fare_bound (VNum 0) 0 = VStr "KG|25" ∧
  returns (sample_call fare_seg) = true ∧
  prop (out_leg (returned (sample_call fare_seg)) 0 0) "HBU" = VStr "PC" ∧
  prop (out_leg (returned (sample_call fare_seg)) 0 0) "HBW" = VNum 1 ∧
  prop (raw_leg sample_Res fare_bound 0) "HBU" = VStr "PC" ∧
  prop (raw_leg sample_Res fare_bound 0) "HBW" = VNum 1.
Proof. repeat split; vm_compute; reflexivity. Qed.

Lemma C2_witness :
  (∃ p, js_split (fare_baggage fare_seg fare_bound (VNum 0) 0) "|" = Ok p ∧
        prop (out_leg (returned (sample_call fare_seg)) 0 0) "BaggageUnit"
          = nth_value p 0 ∧
        prop (out_leg (returned (sample_call fare_seg)) 0 0) "BaggageWeight"
          = nth_value p 1) ∧
  (if covers (prop fare_bound "lstHBagg") 0 then
     ∃ p, js_split (at_ (prop fare_bound "lstHBagg") (VNum (Z.of_nat 0))) "|"
            = Ok p ∧
          prop (out_leg (returned (sample_call fare_seg)) 0 0) "HBU"
            = nth_value p 0 ∧
          prop (out_leg (returned (sample_call fare_seg)) 0 0) "HBW"
            = nth_value p 1
   else
     prop (out_leg (returned (sample_call fare_seg)) 0 0) "HBU"
       = prop (raw_leg sample_Res fare_bound 0) "HBU" ∧
     prop (out_leg (returned (sample_call fare_seg)) 0 0) "HBW"
       = prop (raw_leg sample_Res fare_bound 0) "HBW").
Proof.
  eapply (C2_baggage_of_the_selected_fare _ _ _ _ _ _ _ _ _ _ _ _
            fare_seg _ _ [fare_bound] 0%nat fare_bound [VStr "K1"] 0%nat);
    first [exact fare_run | vm_compute; reflexivity | vm_compute; lia].
Defined.


(** Two adults on the rows of [large_fare]: the products are 2^54 and 2, and
    the double nearest to their sum is 2^54. *)
Lemma C3_counterexample :
  Forall (λ row, row_typed row = true) large_rows ∧
  Forall (λ row, plain_label row = true) large_rows ∧
  field large_seg "lstFr" = VArr [large_fare] ∧
  prop large_fare "L_PF" = VArr large_rows ∧
  returns (sample_call large_seg) = true ∧
  record_of (returned (sample_call large_seg)) !! "AdultPrice"
    = Some (VNum 18014398509481984) ∧
  bucket "ADULT" "BF" 2 large_rows = 18014398509481986.
Proof.
  split; [by repeat constructor|]. split; [by repeat constructor|].
  repeat split; vm_compute; reflexivity.
Qed.

Example sample_prices :
  bucket "ADULT" "BF" 2 sample_rows = 200 ∧
  bucket "CHILD" "BF" 1 sample_rows = 50 ∧
  bucket "INFANT" "BF" 0 sample_rows = 0 ∧
  optional_total "COM" 2 1 0 sample_rows = 6 ∧
  optional_total "TA" 2 1 0 sample_rows = 4.
Proof. repeat split; reflexivity. Qed.

Lemma C4_counterexample :
  has_items (field flat_seg_with_fare "lstFr") = false ∧
  field flat_seg_with_fare "AP" = VNum 100 ∧
  returns (sample_call flat_seg_with_fare) = true ∧
  record_of (returned (sample_call flat_seg_with_fare)) !! "AdultPrice"
    = Some (VNum 200).
Proof. repeat split; vm_compute; reflexivity. Qed.

Lemma C4_witness :
  let o := record_of (returned (sample_call flat_seg)) in
  o !! "AdultPrice" = Some (field flat_seg "AP") ∧
  o !! "ChildPrice" = Some (field flat_seg "CP") ∧
  o !! "InfantPrice" = Some (field flat_seg "IP") ∧
  o !! "TotalTax" = Some (field flat_seg "TT") ∧
  o !! "TotalFare" = Some (field flat_seg "TF") ∧
  o !! "ttlDiscount" = Some (field flat_seg "TTDIS") ∧
  (∀ a b, (a, b) ∈ [("APT", "AdultPriceT"); ("CPT", "ChildPriceT");
                    ("IPT", "InfantPriceT")] →
     o !! b = if not_null (field flat_seg a) then Some (field flat_seg a)
              else None) ∧
  o !! "ESF" = None ∧ o !! "MarkUP" = None ∧ o !! "Fare" = Some VNull ∧
  (∀ k, k ∈ ["Fr"; "CBAMT"; "Comm"; "TDS"; "SF"] →
     (sample_call flat_seg).2 !! k = flat_seg !! k).
Proof.
  eapply (C4_flat_fields_without_fare _ _ _ _ _ _ _ _ _ _ _ _ flat_seg);
    first [exact flat_run | vm_compute; reflexivity].
Defined.

Lemma C5_counterexample :
  flat_seg !! "IsFlightOutOfPolicy" = None ∧
  returns (sample_call flat_seg) = true ∧
  is_partial (returned (sample_call flat_seg)) = false.
Proof. repeat split; vm_compute; reflexivity. Qed.

Lemma C5_witness :
  (∃ o, returned (sample_call flat_seg) = Serialized o ∧
        o !! "IsFlightOutOfPolicy"
          = Some (field flat_seg "IsFlightOutOfPolicy")) ∧
  ((∃ o, returned (sample_call flat_seg) = Partial o) ↔
   (∃ e, get_prop (VObj (sample_call flat_seg).2) "IsFlightOutOfPolicy"
           = Throw e)).
Proof.
  eapply (C5_record_is_serialized _ _ _ _ _ _ _ _ _ _ _ _ flat_seg).
  exact flat_run.
Defined.

(** C6. The leg dictionary has no [K9]: [GetFltDtl] answers [undefined]
    and the script throws on the first property it reads of it. *)
Theorem C6_missing_leg_throws :
  GetFltDtl sample_Res (VStr "K9") = Ok VUndef ∧
  sample_call lost_seg = (Throw TypeError, lost_seg).
Proof. split; vm_compute; reflexivity. Qed.

Lemma C7_counterexample :
  fare_seg !! "Fr" = None ∧ fare_seg !! "Comm" = None ∧
  returns (sample_call fare_seg) = true ∧
  (sample_call fare_seg).2 !! "Fr" = Some sample_fare ∧
  (sample_call fare_seg).2 !! "Comm" = Some (VNum 6).
Proof. repeat split; vm_compute; reflexivity. Qed.

Lemma C7_witness :
  (∀ k, k ∉ written → (sample_call fare_seg).2 !! k = fare_seg !! k) ∧
  (∀ r fares (i : nat) Fr,
     Ok (returned (sample_call fare_seg)) = Ok r →
     field fare_seg "lstFr" = VArr fares →
     VNum 0 = VNum (Z.of_nat i) → fares !! i = Some Fr →
     (sample_call fare_seg).2 !! "Fr" = Some Fr ∧
     ∃ t, PriceRows (VNum 2) (VNum 1) (VNum 0) (prop Fr "L_PF") = Ok t ∧
          (sample_call fare_seg).2 !! "CBAMT" = Some (CashBack t) ∧
          (sample_call fare_seg).2 !! "Comm" = Some (Commission t) ∧
          (sample_call fare_seg).2 !! "TDS" = Some (TDS t) ∧
          (sample_call fare_seg).2 !! "SF" = Some (ServiceFee t)).
Proof.
  eapply (C7_segment_is_written_to _ _ _ _ _ _ _ _ _ _ _ _ fare_seg).
  exact fare_run.
Defined.

Lemma C8_witness :
  let o := record_of (returned (sample_call fare_seg)) in
  if loose_eq (field fare_seg "I_RT") (VBool true) then
    o !! "CCL" = Some (VStr "") ∧ o !! "IACL" = Some (VBool false) ∧
    o !! "CpnTxtS" = Some (VStr "") ∧ o !! "CpnLstDis" = Some (VNum 0)
  else
    o !! "CCL" = Some (prop sample_fare "CouponCodeList") ∧
    o !! "IACL" = Some (prop sample_fare "isAddCL") ∧
    o !! "CpnTxtS" = Some (prop sample_fare "CpnTxtS") ∧
    o !! "CpnLstDis" = Some (prop sample_fare "DA").
Proof.
  eapply (C8_round_trip_clears_coupons _ _ _ _ _ _ _ _ _ _ _ _
            fare_seg _ _ [sample_fare] 0%nat sample_fare);
    first [exact fare_run | vm_compute; reflexivity].
Defined.

Lemma C9_witness :
  record_of (returned (sample_call fare_seg)) !! "CouponCode"
    = Some (if 100 <? 120 then prop sample_fare "CC" else VStr "").
Proof.
  eapply (proj1 (C9_coupon_code_and_discount _ _ _ _ _ _ _ _ _ _ _ _
                   fare_seg _ _ fare_run) [sample_fare] 0%nat sample_fare);
    vm_compute; reflexivity.
Defined.

Lemma C10_witness :
  record_of (returned (sample_call fare_seg)) !! "Fare" = Some (VStr "FFARE").
Proof.
  eapply (proj1 (C10_fare_is_the_callers _ _ _ _ _ _ _ _ _ _ _ _
                   fare_seg _ _ fare_run)).
  vm_compute; reflexivity.
Defined.

(** ** Further sample runs *)

Lemma GetAirportName_echoes_the_code_witness :
  ∃ name, GetAirportName sample_Res (VStr "BOM") = Ok name ∧
    (name = VStr "BOM" ∨
     (name = at_ (prop sample_Res "A") (VStr "BOM") ∧
      loose_eq name (VStr "") = false ∧ not_null name = true)).
Proof.
  apply (GetAirportName_echoes_the_code sample_Res (VStr "BOM"));
    vm_compute; reflexivity.
Defined.

Lemma names_without_airport_table_witness :
  GetAirportName Res_without_airports (VStr "DEL") = Ok VUndef ∧
  CountryName Res_without_airports (VStr "DEL") = Ok VUndef.
Proof.
  apply (names_without_airport_table Res_without_airports (VStr "DEL")).
  vm_compute; reflexivity.
Defined.

Lemma CountryName_throws_without_country_table_witness :
  CountryName Res_without_countries (VStr "DEL") = Throw TypeError.
Proof.
  apply (CountryName_throws_without_country_table
           Res_without_countries (VStr "DEL"));
    vm_compute; reflexivity.
Defined.

Lemma legacy_table_ignores_the_date_witness :
  let o' := completed (legacy_hand_baggage (λ _, 19800000) fare_seg
                         (sample_leg "12-Sep-2020") ∅) in
  (∀ k, k ≠ "HBU" → k ≠ "HBW" → o' !! k = (∅ : obj) !! k) ∧
  if (1 <? length (split_on "-" "12-Sep-2020"))%nat then
    o' !! "HBU" = Some (VStr "KG") ∧
    o' !! "HBW" =
      Some (VNum (if loose_eq (field fare_seg "EID") (VNum 31) then 5 else 7))
  else o' = ∅.
Proof.
  apply (legacy_table_ignores_the_date (λ _, 19800000) fare_seg
           (sample_leg "12-Sep-2020") "12-Sep-2020" ∅);
    vm_compute; reflexivity.
Defined.

Lemma legacy_table_needs_a_string_witness :
  legacy_hand_baggage (λ _, 19800000) fare_seg (object [("DDT", VNum 12)]) ∅
    = Throw TypeError.
Proof.
  apply (legacy_table_needs_a_string (λ _, 19800000) fare_seg
           (object [("DDT", VNum 12)]) ∅).
  intros DDT. vm_compute. discriminate.
Defined.

Lemma leg_fare_class_and_layover_witness :
  prop (out_leg (returned (sample_call flat_seg)) 0 1) "fareCls"
    = at_ (prop plain_bound "lFC") (VNum (Z.of_nat 1)) ∧
  prop (out_leg (returned (sample_call flat_seg)) 0 1) "LyOvr" =
    if (0 <? 1)%nat && not_null (prop plain_bound "LLOV")
    then at_ (prop plain_bound "LLOV") (VNum (Z.of_nat 1 - 1))
    else prop (raw_leg sample_Res plain_bound 1) "LOV".
Proof.
  eapply (leg_fare_class_and_layover _ _ _ _ _ _ _ _ _ _ _ _
            flat_seg _ _ [plain_bound] 0%nat plain_bound
            [VStr "K1"; VStr "K2"] 1%nat);
    first [exact flat_run | vm_compute; reflexivity | vm_compute; lia].
Defined.

Lemma leg_provider_code_tiers_witness :
  prop (out_leg (returned (sample_call fare_seg)) 0 0) "ProviderCode" =
    if has_fare_keys fare_bound (VNum 0) then
      if fare_keys_cover fare_seg fare_bound (VNum 0) 0
      then at_ (at_ (prop fare_bound "dctBKKY") (fare_key fare_seg (VNum 0)))
               (VNum (Z.of_nat 0))
      else VStr ""
    else if not_null (prop fare_bound "BkKY")
         then at_ (prop fare_bound "BkKY") (VNum (Z.of_nat 0))
         else prop (raw_leg sample_Res fare_bound 0) "ProviderCode".
Proof.
  eapply (leg_provider_code_tiers _ _ _ _ _ _ _ _ _ _ _ _
            fare_seg _ _ [fare_bound] 0%nat fare_bound [VStr "K1"] 0%nat);
    first [exact fare_run | vm_compute; reflexivity | vm_compute; lia].
Defined.

Lemma leg_places_and_carrier_witness :
  let fleg := raw_leg sample_Res plain_bound 0 in
  let leg := out_leg (returned (sample_call flat_seg)) 0 0 in
  (∀ code place_, (code, place_) ∈ [("OG", "org"); ("DT", "dest")] →
     ∃ name country,
       GetAirportName sample_Res (prop fleg code) = Ok name ∧
       CountryName sample_Res (prop fleg code) = Ok country ∧
       prop leg place_ =
         VStr (to_string (prop fleg code) +:+ "|" +:+ to_string name
               +:+ "|" +:+ to_string country)) ∧
  GetAirLineName sample_Res (prop fleg "AC") = Ok (prop leg "airName") ∧
  prop leg "depDT" = prop fleg "DDT".
Proof.
  eapply (leg_places_and_carrier _ _ _ _ _ _ _ _ _ _ _ _
            flat_seg _ _ [plain_bound] 0%nat plain_bound
            [VStr "K1"; VStr "K2"] 0%nat);
    first [exact flat_run | vm_compute; reflexivity | vm_compute; lia].
Defined.

Lemma checked_baggage_of_the_plain_list_witness :
  let leg := out_leg (returned (sample_call flat_seg)) 0 0 in
  if js_gt (prop (prop plain_bound "lstBagg") "length") (VNum (Z.of_nat 0)) then
    ∃ p, js_split (at_ (prop plain_bound "lstBagg") (VNum (Z.of_nat 0))) "|"
           = Ok p ∧
         prop leg "BaggageUnit" = nth_value p 0 ∧
         prop leg "BaggageWeight" = nth_value p 1
  else prop leg "BaggageUnit" = VUndef ∧ prop leg "BaggageWeight" = VUndef.
Proof.
  eapply (checked_baggage_of_the_plain_list _ _ _ _ _ _ _ _ _ _ _ _
            flat_seg _ _ [plain_bound] 0%nat plain_bound
            [VStr "K1"; VStr "K2"] 0%nat);
    first [exact flat_run | vm_compute; reflexivity | vm_compute; lia].
Defined.

Lemma unresolved_leg_throws_witness :
  ∃ s', sample_call lost_seg = (Throw TypeError, s').
Proof.
  eapply (unresolved_leg_throws _ _ _ _ _ _ _ _ _ _ _ _
            lost_seg [lost_bound] 0%nat lost_bound [VStr "K9"] 0%nat);
    first [vm_compute; reflexivity | vm_compute; lia].
Defined.

Lemma bound_without_lists_throws_witness :
  ∃ s', sample_call bare_seg = (Throw TypeError, s').
Proof.
  eapply (bound_without_lists_throws _ _ _ _ _ _ _ _ _ _ _ _
            bare_seg [bare_bound] 0%nat bare_bound [VStr "K1"] 0%nat);
    first [vm_compute; reflexivity | vm_compute; lia].
Defined.

Lemma no_bounds_throws_witness :
  ∃ s', sample_call (<["b" := VArr []]> flat_seg) = (Throw TypeError, s').
Proof.
  eapply (no_bounds_throws _ _ _ _ _ _ _ _ _ _ _ _
            (<["b" := VArr []]> flat_seg)).
  vm_compute; reflexivity.
Defined.

Lemma no_fares_no_write_witness : (sample_call flat_seg).2 = flat_seg.
Proof.
  eapply (no_fares_no_write _ _ _ _ _ _ _ _ _ _ _ _ flat_seg);
    first [exact flat_run | vm_compute; reflexivity].
Defined.



Lemma row_without_type_throws_witness :
  ∃ s', sample_call untyped_seg = (Throw TypeError, s').
Proof.
  eapply (row_without_type_throws _ _ _ _ _ _ _ _ _ _ _ _
            untyped_seg [untyped_fare] 0%nat untyped_fare [untyped_row]
            untyped_row);
    first [ vm_compute; reflexivity
          | apply list_elem_of_here
          | intros pt; vm_compute; discriminate ].
Defined.

Lemma record_copies_the_segment_witness :
  (∀ a b, (a, b) ∈ copied →
     record_of (returned (sample_call flat_seg)) !! b
       = Some (field flat_seg a)) ∧
  record_of (returned (sample_call flat_seg)) !! "SearchOrigin"
    = Some (VStr "DEL") ∧
  record_of (returned (sample_call flat_seg)) !! "SearchDestination"
    = Some (VStr "BOM") ∧
  record_of (returned (sample_call flat_seg)) !! "lstOutBound"
    = Some (VArr []) ∧
  record_of (returned (sample_call flat_seg)) !! "lstInBound"
    = Some (VArr []).
Proof.
  eapply (record_copies_the_segment _ _ _ _ _ _ _ _ _ _ _ _ flat_seg).
  exact flat_run.
Defined.

Lemma selected_fare_on_the_record_witness :
  let o := record_of (returned (sample_call fare_seg)) in
  o !! "selectedFare" = Some (VNum 0) ∧
  o !! "lstFr" = Some (VArr [sample_fare]) ∧
  o !! "ItineraryKey" = Some (prop sample_fare "ItnanaryKey") ∧
  o !! "FN" = Some (prop sample_fare "FN") ∧
  o !! "INSP" = Some (prop sample_fare "INSP") ∧
  o !! "FIA" = Some (prop sample_fare "FIA") ∧
  o !! "INSAmtPP"
    = Some (prop (at_ (prop sample_fare "L_PF") (VNum 0)) "INSAmtPP") ∧
  o !! "CT_UPG" =
    Some (if not_null (prop sample_fare "CT_UPG")
          then prop sample_fare "CT_UPG" else VStr "") ∧
  o !! "searchId" =
    Some (if loose_ne (prop sample_fare "SID") (VStr "")
          then prop sample_fare "SID" else field fare_seg "SID").
Proof.
  eapply (selected_fare_on_the_record _ _ _ _ _ _ _ _ _ _ _ _
            fare_seg _ _ [sample_fare] 0%nat sample_fare);
    first [exact fare_run | vm_compute; reflexivity].
Defined.

Lemma discount_amount_of_the_record_witness :
  record_of (returned (sample_call fare_seg)) !! "DiscountAmount" =
    Some (if loose_eq (if js_lt (prop sample_fare "TTDIS") (prop sample_fare "TF")
                       then prop sample_fare "CC" else VStr "") (VStr "")
          then VNum 0
          else if not_null (prop sample_fare "CouponCodeList")
               then field fare_seg "DAMT" else prop sample_fare "DA").
Proof.
  eapply (proj2 (discount_amount_of_the_record _ _ _ _ _ _ _ _ _ _ _ _
                   fare_seg _ _ fare_run) [sample_fare] 0%nat sample_fare);
    vm_compute; reflexivity.
Defined.

Lemma cancellation_policy_of_the_first_bound_witness :
  record_of (returned (sample_call flat_seg)) !! "lstCanPo" =
    Some (let first :=
            prop (elem (field (record_of (returned (sample_call flat_seg)))
                          "bonds") 0) "lstCanPo" in
          if not_null first then first else field flat_seg "LCP").
Proof.
  eapply (cancellation_policy_of_the_first_bound _ _ _ _ _ _ _ _ _ _ _ _
            flat_seg).
  exact flat_run.
Defined.

Lemma bound_labels_of_the_selected_fare_witness :
  let row := at_ (prop sample_fare "L_PF") (VNum 0) in
  let flag :=
    if js_gt (parseInt (prop row "BW")) (VNum 0) then VBool false
    else prop sample_fare "IsHB" in
  (∀ bonds B,
     record_of (returned (sample_call fare_seg)) !! "bonds"
       = Some (VArr bonds) →
     B ∈ bonds →
     prop B "Refundable" =
       VStr (if loose_eq (prop row "RF") (VStr "True")
             then "Refundable" else "Non-Refundable") ∧
     prop B "IsBaggageFare" = flag) ∧
  (sample_call fare_seg).2 !! "l_HB" = Some (prop sample_fare "IsHB") ∧
  record_of (returned (sample_call fare_seg)) !! "IsHndBaggTp" =
    Some (if not_null (field fare_seg "Is_HBT") then field fare_seg "Is_HBT"
          else flag).
Proof.
  eapply (bound_labels_of_the_selected_fare _ _ _ _ _ _ _ _ _ _ _ _
            fare_seg _ _ [sample_fare] 0%nat sample_fare);
    first [exact fare_run | vm_compute; reflexivity].
Defined.

Lemma bound_labels_without_fares_witness :
  (∀ bonds B,
     record_of (returned (sample_call flat_seg)) !! "bonds"
       = Some (VArr bonds) →
     B ∈ bonds →
     prop B "Refundable" =
       VStr (if loose_eq (field flat_seg "RF") (VBool true)
             then "Refundable" else "Non-Refundable")) ∧
  record_of (returned (sample_call flat_seg)) !! "IsHndBaggTp" =
    Some (if not_null (field flat_seg "Is_HBT") then field flat_seg "Is_HBT"
          else VBool false).
Proof.
  eapply (bound_labels_without_fares _ _ _ _ _ _ _ _ _ _ _ _ flat_seg);
    first [exact flat_run | vm_compute; reflexivity].
Defined.

Lemma policy_run :
  sample_call policy_seg
    = (Ok (returned (sample_call policy_seg)), (sample_call policy_seg).2).
Proof. apply returns_returned. vm_compute. reflexivity. Qed.

Lemma bound_fields_of_the_record_witness :
  let B := elem (field (record_of (returned (sample_call policy_seg)))
                   "bonds") 0 in
  let dct := prop policy_bound "dctCanPo" in
  prop B "bndDTL" = prop policy_bound "BDT" ∧
  prop B "JrnyTm" = prop policy_bound "JyTm" ∧
  prop B "ConnType" = prop policy_bound "CT" ∧
  prop B "dctCanPo" = (if not_null dct then dct else VUndef) ∧
  (has_fare_keys policy_bound (VNum 0) = true →
   (0 < loop_count (prop (prop policy_bound "FL") "length"))%nat →
   prop B "lstCanPo" =
     if not_null dct then at_ dct (fare_key policy_seg (VNum 0)) else VUndef).
Proof.
  eapply (bound_fields_of_the_record _ _ _ _ _ _ _ _ _ _ _ _
            policy_seg _ _ [policy_bound] 0%nat policy_bound);
    first [exact policy_run | vm_compute; reflexivity].
Defined.

Lemma leg_copies_the_dictionary_witness :
  prop (out_leg (returned (sample_call flat_seg)) 0 1) "airCode"
    = prop (raw_leg sample_Res plain_bound 1) "AC".
Proof.
  eapply (leg_copies_the_dictionary _ _ _ _ _ _ _ _ _ _ _ _
            flat_seg _ _ [plain_bound] 0%nat plain_bound
            [VStr "K1"; VStr "K2"] 1%nat "AC" "airCode");
    first [ exact flat_run | vm_compute; reflexivity | vm_compute; lia
          | unfold leg_copied; rewrite !elem_of_cons; auto 10 ].
Defined.
